(** * sushe: the media-processing pipeline of the Telegram video bot

    A shallow embedding of [internal/downloader/downloader.go], of the
    bot service of [internal/bot/bot.go] and of the whitelist of
    [internal/bot/auth.go], with the properties of the pipeline that the
    specification states and further properties of the code.

    Conventions of the embedding:
    - Go's [int] and [int64] are [Z] with the two's-complement wrap-around
      written out ([wrap64]); the binaries are built with
      [GOOS=linux GOARCH=amd64] (Makefile, scripts/update.sh), so [int] is
      64 bits wide;
    - Go's [float64] is Rocq's primitive binary64 type [float]; general
      facts go through the IEEE 754 specification [Prim2SF];
    - Go strings are byte strings ([string]);
    - the operating system, the clock and the external tools (yt-dlp,
      ffprobe, ffmpeg) are an interface [OS] over an abstract world, and
      every stage is a state-passing function that also logs its effects. *)

From Stdlib Require Import ZArith Lia Bool List String Ascii.
From Stdlib Require Import Floats Uint63.
From Stdlib Require Import DecimalString DecimalZ Sorted.
From Stdlib Require Import FunInd Recdef MSetAVL OrdersEx.
Import ListNotations.

Local Open Scope Z_scope.

(** ** Machine integers *)

Definition minInt64 : Z := - 2 ^ 63.
Definition maxInt64 : Z := 2 ^ 63 - 1.

(** Two's-complement wrap-around of a 64-bit signed result. *)
Definition wrap64 (z : Z) : Z := (z + 2 ^ 63) mod 2 ^ 64 - 2 ^ 63.

Definition in_int64 (z : Z) : Prop := minInt64 <= z <= maxInt64.

(** ** float64 *)

Module Float64.

(** [float64(n)] for an integer [n] of type [int] or [int64]: the value is
    rounded to the nearest binary64, ties to even. *)
Definition of_int (z : Z) : float :=
  if z =? minInt64 then (- (of_uint63 (of_Z (2 ^ 62)) * 2))%float
  else if z <? 0 then (- of_uint63 (of_Z (- z)))%float
  else of_uint63 (of_Z z).

(** The integer part of a binary64 value, towards zero; [None] for NaN
    and the infinities. *)
Definition trunc (x : spec_float) : option Z :=
  match x with
  | S754_zero _ => Some 0
  | S754_finite s m e =>
      Some (cond_Zopp s (if 0 <=? e then Zpos m * 2 ^ e else Zpos m / 2 ^ (- e)))
  | _ => None
  end.

(** The largest integer below or equal to a binary64 value. *)
Definition floor (x : spec_float) : option Z :=
  match x with
  | S754_zero _ => Some 0
  | S754_finite s m e =>
      Some (if 0 <=? e then cond_Zopp s (Zpos m * 2 ^ e)
            else cond_Zopp s (Zpos m) / 2 ^ (- e))
  | _ => None
  end.

(** [int(f)] on amd64 (CVTTSD2SQ): truncation towards zero, and the
    "integer indefinite" value [0x8000000000000000] when the operand is
    NaN, infinite or out of the range of [int64]. *)
Definition to_int (f : float) : Z :=
  match trunc (Prim2SF f) with
  | Some z => if (minInt64 <=? z) && (z <=? maxInt64) then z else minInt64
  | None => minInt64
  end.

(** [math.Ceil]: the least integral value above or equal to [x]; zeros,
    infinities and NaN are returned as they are, and a negative value
    above -1 gives -0. *)
Definition Ceil (x : float) : float :=
  match Prim2SF x with
  | S754_finite s m e =>
      if 0 <=? e then x
      else
        let n := - (cond_Zopp (negb s) (Zpos m) / 2 ^ (- e)) in
        if (n =? 0) && s then neg_zero else of_int n
  | _ => x
  end.

(** Classification used by the statements below. *)
Definition is_number (x : float) : bool :=
  match Prim2SF x with
  | S754_nan => false
  | _ => true
  end.

Definition finite (x : float) : bool :=
  match Prim2SF x with
  | S754_zero _ | S754_finite _ _ _ => true
  | _ => false
  end.

End Float64.

(** ** Constants of the downloader *)

Definition MaxFileSize : Z := 2000 * 1024 * 1024.
Definition MaxUploadSize : Z := 1900 * 1024 * 1024.
Definition DownloadDir : string := "/tmp/sushe".

(** [NeedsSplit]: the file is larger than [MaxUploadSize]. *)
Definition NeedsSplit (fileSize : Z) : bool := MaxUploadSize <? fileSize.

(** [CalculateNumParts]:
    [int(math.Ceil(float64(fileSize) / float64(MaxUploadSize)))]. *)
Definition CalculateNumParts (fileSize : Z) : Z :=
  Float64.to_int
    (Float64.Ceil (Float64.of_int fileSize / Float64.of_int MaxUploadSize)%float).

(** The ceiling of the exact quotient [a / b], for [b > 0]. *)
Definition ceil_div (a b : Z) : Z := (a + b - 1) / b.

(** ** Rounding positions

    [loc_rel l a b] reads a rounding location [l] as the position of a
    remainder [a] inside a step of width [b]: zero, below the middle, at
    the middle, or above it. *)
Definition loc_rel (l : location) (a b : Z) : Prop :=
  match l with
  | loc_Exact => a = 0
  | loc_Inexact Lt => 0 < a /\ 2 * a < b
  | loc_Inexact Eq => 0 < a /\ 2 * a = b
  | loc_Inexact Gt => b < 2 * a /\ a < b
  end.

(** [has_sign s x]: [x] is a zero, a finite number or an infinity of sign
    [s] (so it is not NaN). *)
Definition has_sign (s : bool) (x : spec_float) : Prop :=
  match x with
  | S754_zero s' | S754_infinity s' | S754_finite s' _ _ => s' = s
  | S754_nan => False
  end.

(** [SFnonneg x]: [x] compares above or equal to zero (a zero of either
    sign, a positive number or plus infinity). *)
Definition SFnonneg (x : spec_float) : Prop :=
  match x with
  | S754_zero _ | S754_infinity false | S754_finite false _ _ => True
  | _ => False
  end.

Definition SFnumber (x : spec_float) : Prop :=
  match x with
  | S754_nan => False
  | _ => True
  end.

(** ** Strings

    A Go string is a sequence of bytes.  The few functions of the Go
    library that work on bytes are written out; those that depend on
    Unicode tables, on the layout of paths or on number formatting are the
    fields of [GoLib]. *)

Local Open Scope string_scope.

Definition byte_val (c : ascii) : N := N_of_ascii c.

(** [c < utf8.RuneSelf]. *)
Definition is_ascii_byte (c : ascii) : bool := (byte_val c <? 128)%N.

(** ['A' <= c && c <= 'Z']. *)
Definition is_upper_byte (c : ascii) : bool :=
  ((65 <=? byte_val c) && (byte_val c <=? 90))%N.

(** [c += 'a' - 'A'] on an upper-case byte. *)
Definition lower_byte (c : ascii) : ascii :=
  if is_upper_byte c then ascii_of_N (byte_val c + 32) else c.

Fixpoint all_bytes (f : ascii -> bool) (s : string) : bool :=
  match s with
  | EmptyString => true
  | String c s' => f c && all_bytes f s'
  end.

Fixpoint any_byte (f : ascii -> bool) (s : string) : bool :=
  match s with
  | EmptyString => false
  | String c s' => f c || any_byte f s'
  end.

Fixpoint map_bytes (f : ascii -> ascii) (s : string) : string :=
  match s with
  | EmptyString => EmptyString
  | String c s' => String (f c) (map_bytes f s')
  end.

(** [strings.HasPrefix s prefix]. *)
Definition HasPrefix (s pre : string) : bool := String.prefix pre s.

(** [strings.Contains s substr]. *)
Fixpoint Contains (s substr : string) : bool :=
  String.prefix substr s ||
  match s with
  | EmptyString => false
  | String _ s' => Contains s' substr
  end.

(** [strings.HasSuffix] and [strings.TrimSuffix]. *)
Definition HasSuffix (s suffix : string) : bool :=
  (String.length suffix <=? String.length s)%nat &&
  String.eqb (substring (String.length s - String.length suffix) (String.length suffix) s) suffix.

Definition TrimSuffix (s suffix : string) : string :=
  if HasSuffix s suffix then substring 0 (String.length s - String.length suffix) s else s.

(** [fmt.Sprintf("%d", n)]. *)
Definition Sprintf_d (n : Z) : string :=
  DecimalString.NilZero.string_of_int (Z.to_int n).

(** [filepath.Join dir name] for a clean [dir] and a plain file name. *)
Definition filepath_Join (dir name : string) : string := dir ++ "/" ++ name.

(** The cutset of [ExtractURLs]: angle brackets, parentheses, square
    brackets, the double quote and the single quote. *)
Definition url_wrapping : string := "<>()[]" ++ String (ascii_of_nat 34) "'".

(** The parts of the Go library that the embedding takes as given. *)
Record GoLib : Type := {
  (** the runes that [for _, c := range s] yields: the UTF-8 decoding of
      [s], with U+FFFD for every byte that starts no valid encoding *)
  utf8_runes : string -> list Z;
  (** the UTF-8 encoding of a rune ([strings.Builder.WriteRune]) *)
  utf8_encode : Z -> string;
  (** [unicode.ToLower] *)
  unicode_ToLower : Z -> Z;
  (** [strings.TrimSpace] *)
  TrimSpace : string -> string;
  (** [strings.Fields] and [strings.Trim] *)
  Fields : string -> list string;
  Trim : string -> string -> string;
  (** [filepath.Dir], [filepath.Base], [filepath.Ext] *)
  filepath_Dir : string -> string;
  filepath_Base : string -> string;
  filepath_Ext : string -> string;
  (** [fmt.Sprintf("%.2f", x)] *)
  Sprintf_2f : float -> string
}.

Section Strings.

Variable lib : GoLib.

(** [strings.Map(unicode.ToLower, s)]: every rune of [s] is mapped and
    encoded again ([unicode.ToLower] never returns a negative rune, so
    none is dropped). *)
Definition Map_ToLower (s : string) : string :=
  String.concat "" (List.map (fun r => utf8_encode lib (unicode_ToLower lib r))
                             (utf8_runes lib s)).

(** [strings.ToLower]: strings of ASCII bytes are lowered byte by byte (and
    returned as they are when they have no upper-case letter); any other
    string goes through [strings.Map]. *)
Definition ToLower (s : string) : string :=
  if all_bytes is_ascii_byte s then
    if any_byte is_upper_byte s then map_bytes lower_byte s else s
  else Map_ToLower s.

(** [IsH264Compatible] returns true if the codec is H.264/AVC. *)
Definition IsH264Compatible (codec : string) : bool :=
  let codec := ToLower codec in
  String.eqb codec "h264" || String.eqb codec "avc" || String.eqb codec "avc1".

Definition supportedDomains : list string :=
  [ "youtube.com"; "youtu.be";
    "twitter.com"; "x.com";
    "tiktok.com";
    "instagram.com";
    "facebook.com"; "fb.watch";
    "vimeo.com";
    "dailymotion.com";
    "twitch.tv";
    "reddit.com"; "v.redd.it";
    "streamable.com";
    "imgur.com" ].

(** The loop of [IsValidURL] over the domains: it returns [true] at the
    first domain that the string contains, and falls through otherwise. *)
Fixpoint domain_loop (s : string) (domains : list string) (fallthrough : bool) : bool :=
  match domains with
  | [] => fallthrough
  | domain :: rest => if Contains s domain then true else domain_loop s rest fallthrough
  end.

(** [IsValidURL], with the list of domains as a parameter. *)
Definition IsValidURL_with (domains : list string) (s : string) : bool :=
  let s := TrimSpace lib s in
  if negb (HasPrefix s "http://") && negb (HasPrefix s "https://") then false
  else domain_loop s domains true.

Definition IsValidURL (s : string) : bool := IsValidURL_with supportedDomains s.

(** [ExtractURLs] extracts all URLs from a message text. *)
Definition ExtractURLs (text : string) : list string :=
  List.filter IsValidURL
    (List.map (fun word => Trim lib word url_wrapping) (Fields lib text)).

(** [getContentType]. *)
Definition getContentType (filePath : string) : string :=
  let ext := ToLower (filepath_Ext lib filePath) in
  if String.eqb ext ".mp4" then "video/mp4"
  else if String.eqb ext ".webm" then "video/webm"
  else if String.eqb ext ".mkv" then "video/x-matroska"
  else if String.eqb ext ".mov" then "video/quicktime"
  else if String.eqb ext ".avi" then "video/x-msvideo"
  else "video/mp4".

End Strings.

(** The spellings of the three H.264 identifiers in every letter case. *)
Definition h264_spellings : list string :=
  [ "h264"; "H264";
    "avc"; "avC"; "aVc"; "aVC"; "Avc"; "AvC"; "AVc"; "AVC";
    "avc1"; "avC1"; "aVc1"; "aVC1"; "Avc1"; "AvC1"; "AVc1"; "AVC1" ].

(** ** Data model *)

Module Progress.
Record t : Type := mk {
  Phase : string;
  Percent : float;
  Speed : string;
  ETA : string;
  Downloaded : string;
  Total : string;
  PartNum : Z;
  TotalParts : Z;
  Codec : string
}.
End Progress.

Module MediaInfo.
Record t : Type := mk {
  Duration : float;
  Bitrate : Z;
  FileSize : Z;
  Width : Z;
  Height : Z
}.
End MediaInfo.

Module PartInfo.
Record t : Type := mk {
  FilePath : string;
  PartNum : Z;
  FileSize : Z
}.
End PartInfo.

Module DownloadResult.
Record t : Type := mk {
  FilePath : string;
  FileName : string;
  Title : string;
  Duration : float;
  FileSize : Z;
  Width : Z;
  Height : Z;
  ContentType : string;
  IsSplit : bool;
  Parts : list PartInfo.t
}.
End DownloadResult.

Record Downloader : Type := {
  downloadDir : string;
  timeout : Z
}.

(** [DefaultTimeout]: 60 minutes, in nanoseconds. *)
Definition DefaultTimeout : Z := 60 * 60 * 1000000000.

(** A Go pair [(value, error)]. *)
Inductive result (A : Type) : Type :=
| Ok (a : A)
| Err (msg : string).
Arguments Ok {A} a.
Arguments Err {A} msg.

Definition is_Err {A : Type} (r : result A) : Prop :=
  match r with
  | Err _ => True
  | Ok _ => False
  end.

(** ** What the external tools report

    A line of yt-dlp's output as the three regular expressions of
    [runWithProgress] classify it, in the order the code tries them, with
    the fields that [fmt.Sscanf] reads from the match. *)
Inductive YtdlpLine : Type :=
| DownloadLine (percent : float) (total speed eta : string)
| CompleteLine
| MergerLine
| UnrecognizedLine.

Record YtdlpRun : Type := {
  yt_stdout_pipe_err : bool;
  yt_stderr_pipe_err : bool;
  yt_start_err : bool;
  yt_lines : list YtdlpLine;
  yt_wait_err : bool
}.

(** A line of ffmpeg's error stream: a [time=HH:MM:SS.ms] marker with the
    three numbers as [fmt.Sscanf] reads them, or a line without marker. *)
Inductive FfmpegLine : Type :=
| TimeLine (hours mins : Z) (secs : float)
| PlainLine.

Record FfmpegRun : Type := {
  ff_stderr_pipe_err : bool;
  ff_start_err : bool;
  ff_lines : list FfmpegLine;
  ff_wait_err : bool
}.

(** The JSON document of ffprobe after [json.Unmarshal], with the strings
    of the format section as [fmt.Sscanf] reads them (zero when they do not
    parse). *)
Record ProbeStream : Type := {
  codec_type : string;
  stream_width : Z;
  stream_height : Z
}.

Record ProbeJSON : Type := {
  format_duration : float;
  format_size : Z;
  format_bit_rate : Z;
  streams : list ProbeStream
}.

Inductive ProbeRun : Type :=
| ProbeFailed
| ProbeUnparsable
| ProbeParsed (j : ProbeJSON).

(** ** Effects

    Every interaction of a stage with its environment, with what the
    environment answered. *)
Inductive Effect : Type :=
| ENow (unixNano : Z)
| EMkdirAll (path : string) (ok : bool)
| ERemoveAll (path : string)
| ERemove (path : string)
| EGlob (pattern : string) (matches : option (list string))
| EStat (path : string) (size : option Z)
| EExec (name : string) (args : list string)
| ECallback (p : Progress.t).

(** The environment of the pipeline over a world [W]. *)
Record OS (W : Type) : Type := {
  os_Now : W -> Z * W;
  os_MkdirAll : string -> W -> bool * W;
  os_RemoveAll : string -> W -> W;
  os_Remove : string -> W -> W;
  os_Glob : string -> W -> option (list string) * W;
  os_Stat : string -> W -> option Z * W;
  os_ytdlp : list string -> string -> W -> YtdlpRun * W;
  os_ffprobe_json : list string -> W -> ProbeRun * W;
  os_ffprobe_text : list string -> W -> option string * W;
  os_ffmpeg : list string -> W -> FfmpegRun * W
}.
Arguments os_Now {W} _ _.
Arguments os_MkdirAll {W} _ _ _.
Arguments os_RemoveAll {W} _ _ _.
Arguments os_Remove {W} _ _ _.
Arguments os_Glob {W} _ _ _.
Arguments os_Stat {W} _ _ _.
Arguments os_ytdlp {W} _ _ _ _.
Arguments os_ffprobe_json {W} _ _ _.
Arguments os_ffprobe_text {W} _ _ _.
Arguments os_ffmpeg {W} _ _ _.

(** ** Progress arithmetic of the transcode and partition stages *)

(** [float64(hours*3600+mins*60) + secs]. *)
Definition currentTime (hours mins : Z) (secs : float) : float :=
  (Float64.of_int (wrap64 (wrap64 (hours * 3600) + wrap64 (mins * 60))) + secs)%float.

(** [percent := (currentTime / Duration) * 100], cut at 100. *)
Definition progress_percent (current duration : float) : float :=
  let percent := (current / duration * 100)%float in
  if (100 <? percent)%float then 100%float else percent.

(** [segmentDuration := mediaInfo.Duration / float64(numParts)]. *)
Definition segmentDuration (duration : float) (numParts : Z) : float :=
  (duration / Float64.of_int numParts)%float.

(** [partNum := int(currentTime/segmentDuration) + 1], cut at [numParts]. *)
Definition split_partNum (current segDur : float) (numParts : Z) : Z :=
  let partNum := wrap64 (Float64.to_int (current / segDur)%float + 1) in
  if (numParts <? partNum)%Z then numParts else partNum.

(** [clamp x lo hi] of the specification. *)
Definition clamp (x lo hi : Z) : Z := Z.max lo (Z.min x hi).

Definition encoding_event (duration : float) (l : FfmpegLine) : option Progress.t :=
  match l with
  | TimeLine hours mins secs =>
      Some (Progress.mk "encoding"
              (progress_percent (currentTime hours mins secs) duration)
              "" "" "" "" 0 0 "")
  | PlainLine => None
  end.

Definition splitting_event (duration segDur : float) (numParts : Z) (l : FfmpegLine)
  : option Progress.t :=
  match l with
  | TimeLine hours mins secs =>
      let current := currentTime hours mins secs in
      Some (Progress.mk "splitting" (progress_percent current duration)
              "" "" "" "" (split_partNum current segDur numParts) numParts "")
  | PlainLine => None
  end.

Definition download_event (l : YtdlpLine) : option Progress.t :=
  match l with
  | DownloadLine percent total speed eta =>
      Some (Progress.mk "downloading" percent speed eta "" total 0 0 "")
  | CompleteLine => Some (Progress.mk "downloading" 100 "" "" "" "" 0 0 "")
  | MergerLine => Some (Progress.mk "merging" 100 "" "" "" "" 0 0 "")
  | UnrecognizedLine => None
  end.

(** The dimensions of the first video stream. *)
Fixpoint video_dimensions (ss : list ProbeStream) : Z * Z :=
  match ss with
  | [] => (0, 0)
  | s :: rest =>
      if String.eqb (codec_type s) "video" then (stream_width s, stream_height s)
      else video_dimensions rest
  end.

(** ** The stages

    A stage is a function of the world that returns its result, the new
    world and the log of its effects.  A run of an external tool is one
    answer of the environment: whether its pipes and its start succeeded,
    the lines it wrote, and whether [cmd.Wait] reported an error (an exit
    status, a kill by the timeout or by a cancelled context).  The reader
    goroutines are taken to have read every line when [cmd.Wait]
    returns, so the callbacks of a run are logged before its outcome. *)

Fixpoint filter_map {A B : Type} (f : A -> option B) (l : list A) : list B :=
  match l with
  | [] => []
  | a :: rest =>
      match f a with
      | Some b => b :: filter_map f rest
      | None => filter_map f rest
      end
  end.

Section Pipeline.

Context {W : Type}.
Variable lib : GoLib.
Variable os : OS W.

(** A computation reads and changes the world and logs its effects. *)
Definition M (A : Type) : Type := W -> A * W * list Effect.

Definition ret {A : Type} (a : A) : M A := fun w => (a, w, []).

Definition bind {A B : Type} (m : M A) (f : A -> M B) : M B :=
  fun w =>
    let '(a, w1, l1) := m w in
    let '(b, w2, l2) := f a w1 in
    (b, w2, (l1 ++ l2)%list).

Local Notation "x <- m ;; k" := (bind m (fun x => k))
  (at level 61, m at next level, right associativity).
Local Notation "m ;;; k" := (bind m (fun _ => k))
  (at level 61, right associativity).

Definition log (e : Effect) : M unit := fun w => (tt, w, [e]).

(** [progressCb(p)] for each event, in order. *)
Definition report (events : list Progress.t) : M unit :=
  fun w => (tt, w, List.map ECallback events).

Definition Now : M Z :=
  fun w => let '(t, w') := os_Now os w in (t, w', [ENow t]).

Definition MkdirAll (path : string) : M bool :=
  fun w => let '(ok, w') := os_MkdirAll os path w in (ok, w', [EMkdirAll path ok]).

Definition RemoveAll (path : string) : M unit :=
  fun w => (tt, os_RemoveAll os path w, [ERemoveAll path]).

Definition Remove (path : string) : M unit :=
  fun w => (tt, os_Remove os path w, [ERemove path]).

Definition Glob (pattern : string) : M (option (list string)) :=
  fun w => let '(r, w') := os_Glob os pattern w in (r, w', [EGlob pattern r]).

Definition Stat (path : string) : M (option Z) :=
  fun w => let '(r, w') := os_Stat os path w in (r, w', [EStat path r]).

(** [New]: the download directory is created and the defaults are set. *)
Definition New : M Downloader :=
  MkdirAll DownloadDir ;;;
  ret {| downloadDir := DownloadDir; timeout := DefaultTimeout |}.

Definition probe_args (filePath : string) : list string :=
  ["-v"; "quiet"; "-print_format"; "json"; "-show_format"; "-show_streams"; filePath].

(** [GetMediaInfo] uses ffprobe to get video duration, bitrate, and
    dimensions. *)
Definition GetMediaInfo (filePath : string) : M (result MediaInfo.t) :=
  let args := probe_args filePath in
  fun w =>
    let '(r, w') := os_ffprobe_json os args w in
    (match r with
     | ProbeFailed => Err "ffprobe failed"
     | ProbeUnparsable => Err "failed to parse ffprobe output"
     | ProbeParsed j =>
         let '(width, height) := video_dimensions (streams j) in
         Ok (MediaInfo.mk (format_duration j) (format_bit_rate j) (format_size j)
                          width height)
     end, w', [EExec "ffprobe" args]).

(** [GetVideoCodec] returns the video codec name. *)
Definition GetVideoCodec (filePath : string) : M (result string) :=
  let args := ["-v"; "quiet"; "-select_streams"; "v:0"; "-show_entries";
               "stream=codec_name"; "-of"; "csv=p=0"; filePath] in
  fun w =>
    let '(r, w') := os_ffprobe_text os args w in
    (match r with
     | None => Err "ffprobe failed"
     | Some output => Ok (TrimSpace lib output)
     end, w', [EExec "ffprobe" args]).

(** The external encoder: the error pipe is taken, then the process is
    started. *)
Definition start_ffmpeg (args : list string) : M (result FfmpegRun) :=
  fun w =>
    let '(run, w') := os_ffmpeg os args w in
    if ff_stderr_pipe_err run then (Err "failed to get stderr pipe", w', [])
    else if ff_start_err run then (Err "failed to start ffmpeg", w', [EExec "ffmpeg" args])
    else (Ok run, w', [EExec "ffmpeg" args]).

(** [ReencodeToH264] converts a video to H.264/AAC. *)
Definition ReencodeToH264 (filePath : string) (has_cb : bool) : M (result string) :=
  mi <- GetMediaInfo filePath ;;
  match mi with
  | Err _ => ret (Err "failed to get media info")
  | Ok mediaInfo =>
      let dir := filepath_Dir lib filePath in
      let baseName := TrimSuffix (filepath_Base lib filePath) (filepath_Ext lib filePath) in
      let outputPath := filepath_Join dir (baseName ++ "_h264.mp4") in
      let args := ["-i"; filePath; "-c:v"; "libx264"; "-preset"; "fast"; "-crf"; "23";
                   "-c:a"; "aac"; "-movflags"; "+faststart"; "-y"; outputPath] in
      started <- start_ffmpeg args ;;
      match started with
      | Err e => ret (Err e)
      | Ok run =>
          (if has_cb
           then report (filter_map (encoding_event (MediaInfo.Duration mediaInfo))
                                   (ff_lines run))
           else ret tt) ;;;
          if ff_wait_err run then ret (Err "ffmpeg encoding failed")
          else ret (Ok outputPath)
      end
  end.

(** The loop of [SplitVideo] over the files of the glob: a file whose
    [os.Stat] fails is skipped, and the ordinal is the index in the glob's
    list plus one. *)
Fixpoint collect_parts (i : Z) (partFiles : list string) : M (list PartInfo.t) :=
  match partFiles with
  | [] => ret []
  | partFile :: rest =>
      info <- Stat partFile ;;
      match info with
      | None => collect_parts (i + 1) rest
      | Some size =>
          parts <- collect_parts (i + 1) rest ;;
          ret (PartInfo.mk partFile (i + 1) size :: parts)
      end
  end.

(** [SplitVideo] splits a video into parts of approximately
    [MaxUploadSize]. *)
Definition SplitVideo (filePath : string) (has_cb : bool) : M (result (list PartInfo.t)) :=
  mi <- GetMediaInfo filePath ;;
  match mi with
  | Err _ => ret (Err "failed to get media info")
  | Ok mediaInfo =>
      if (MediaInfo.Duration mediaInfo <=? 0)%float
      then ret (Err "invalid video duration")
      else
        let numParts := CalculateNumParts (MediaInfo.FileSize mediaInfo) in
        let segDur := segmentDuration (MediaInfo.Duration mediaInfo) numParts in
        let dir := filepath_Dir lib filePath in
        let baseName := TrimSuffix (filepath_Base lib filePath) (filepath_Ext lib filePath) in
        let outputPattern := filepath_Join dir (baseName ++ "_part%03d.mp4") in
        let args := ["-i"; filePath; "-c:v"; "libx264"; "-preset"; "fast"; "-crf"; "23";
                     "-c:a"; "aac"; "-movflags"; "+faststart"; "-f"; "segment";
                     "-segment_time"; Sprintf_2f lib segDur;
                     "-reset_timestamps"; "1"; "-y"; outputPattern] in
        started <- start_ffmpeg args ;;
        match started with
        | Err e => ret (Err e)
        | Ok run =>
            (if has_cb
             then report (filter_map
                            (splitting_event (MediaInfo.Duration mediaInfo) segDur numParts)
                            (ff_lines run))
             else ret tt) ;;;
            if ff_wait_err run then ret (Err "ffmpeg split failed")
            else
              let pattern := filepath_Join dir (baseName ++ "_part*.mp4") in
              globbed <- Glob pattern ;;
              match globbed with
              | None | Some [] => ret (Err "no split parts found")
              | Some partFiles =>
                  parts <- collect_parts 0 partFiles ;;
                  match parts with
                  | [] => ret (Err "failed to get info for split parts")
                  | _ => ret (Ok parts)
                  end
              end
        end
  end.

(** [runWithProgress] runs yt-dlp and parses progress output. *)
Definition runWithProgress (args : list string) (workDir : string) : M (result unit) :=
  fun w =>
    let '(run, w') := os_ytdlp os args workDir w in
    if yt_stdout_pipe_err run then (Err "failed to get stdout pipe", w', [])
    else if yt_stderr_pipe_err run then (Err "failed to get stderr pipe", w', [])
    else if yt_start_err run then (Err "failed to start yt-dlp", w', [EExec "yt-dlp" args])
    else
      (if yt_wait_err run then Err "yt-dlp exited with an error" else Ok tt,
       w',
       EExec "yt-dlp" args :: List.map ECallback (filter_map download_event (yt_lines run))).

(** [cmd.CombinedOutput()]. *)
Definition CombinedOutput (args : list string) (workDir : string) : M (result unit) :=
  fun w =>
    let '(run, w') := os_ytdlp os args workDir w in
    (if yt_start_err run || yt_wait_err run then Err "yt-dlp failed" else Ok tt,
     w', [EExec "yt-dlp" args]).

(** The scratch directory of the job that reads [unixNano] on the clock. *)
Definition workDir_of (d : Downloader) (unixNano : Z) : string :=
  filepath_Join (downloadDir d) (Sprintf_d unixNano).

Definition ytdlp_args (workDir url : string) : list string :=
  [ "--no-playlist";
    "-f"; "bestvideo[vcodec^=avc1][height<=1080]+bestaudio[acodec^=mp4a]/bestvideo[vcodec^=avc][height<=1080]+bestaudio/bestvideo[height<=1080]+bestaudio/best[height<=1080]/best";
    "--merge-output-format"; "mp4";
    "-o"; filepath_Join workDir "%(title).100s.%(ext)s";
    "--no-warnings";
    "--progress";
    "--newline";
    url ].

(** The second half of [DownloadWithProgress]: the downloaded file is
    stat'ed, probed, re-encoded when its codec is not H.264, and
    described. *)
Definition finish_download (workDir filePath : string) (has_cb : bool)
  : M (result DownloadResult.t) :=
  fileInfo <- Stat filePath ;;
  match fileInfo with
  | None => RemoveAll workDir ;;; ret (Err "failed to stat downloaded file")
  | Some size =>
      let fileName := filepath_Base lib filePath in
      let title := TrimSuffix fileName (filepath_Ext lib fileName) in
      probed <- GetVideoCodec filePath ;;
      let codec := match probed with Ok c => c | Err _ => "unknown" end in
      encoded <-
        (if negb (IsH264Compatible lib codec) then
           (if has_cb
            then report [Progress.mk "encoding" 0 "" "" "" "" 0 0 codec]
            else ret tt) ;;;
           reencoded <- ReencodeToH264 filePath has_cb ;;
           match reencoded with
           | Err _ => RemoveAll workDir ;;; ret (Err "failed to re-encode to H.264")
           | Ok newPath =>
               Remove filePath ;;;
               newInfo <- Stat newPath ;;
               match newInfo with
               | None => RemoveAll workDir ;;; ret (Err "failed to stat re-encoded file")
               | Some newSize => ret (Ok (newPath, filepath_Base lib newPath, newSize))
               end
           end
         else ret (Ok (filePath, fileName, size))) ;;
      match encoded with
      | Err e => ret (Err e)
      | Ok (filePath, fileName, size) =>
          mediaInfo <- GetMediaInfo filePath ;;
          let '(duration, width, height) :=
            match mediaInfo with
            | Ok mi => (MediaInfo.Duration mi, MediaInfo.Width mi, MediaInfo.Height mi)
            | Err _ => (0%float, 0, 0)
            end in
          ret (Ok (DownloadResult.mk filePath fileName title duration size width height
                     (getContentType lib filePath) false []))
      end
  end.

(** [DownloadWithProgress] downloads a video and reports progress via
    callback ([has_cb] tells whether the callback is not nil). *)
Definition DownloadWithProgress (d : Downloader) (url : string) (has_cb : bool)
  : M (result DownloadResult.t) :=
  unixNano <- Now ;;
  let workDir := workDir_of d unixNano in
  created <- MkdirAll workDir ;;
  if negb created then ret (Err "failed to create work directory")
  else
    let args := ytdlp_args workDir url in
    ran <- (if has_cb then runWithProgress args workDir else CombinedOutput args workDir) ;;
    match ran with
    | Err _ => RemoveAll workDir ;;; ret (Err "download failed")
    | Ok _ =>
        files <- Glob (filepath_Join workDir "*") ;;
        match files with
        | None | Some [] => RemoveAll workDir ;;; ret (Err "no file downloaded")
        | Some (filePath :: _) => finish_download workDir filePath has_cb
        end
    end.

(** [Download] downloads a video from the given URL using yt-dlp. *)
Definition Download (d : Downloader) (url : string) : M (result DownloadResult.t) :=
  DownloadWithProgress d url false.

(** [Cleanup] removes the downloaded file and its directory. *)
Definition Cleanup (res : option DownloadResult.t) : M unit :=
  match res with
  | Some r =>
      if negb (String.eqb (DownloadResult.FilePath r) "")
      then RemoveAll (filepath_Dir lib (DownloadResult.FilePath r))
      else ret tt
  | None => ret tt
  end.

End Pipeline.

(** ** The progress callback of the bot ([processURL]) *)

Module Bot.

(** A [time.Time]: the zero value, or a reading of the clock in
    nanoseconds. *)
Inductive Time : Type :=
| ZeroTime
| At (ns : Z).

(** [minUpdateInterval = 2 * time.Second]. *)
Definition minUpdateInterval : Z := 2 * 1000000000.

(** [t.Sub(u)]: the difference in nanoseconds, saturated to the range of
    [time.Duration]; the zero time lies further in the past of every
    reading than a [Duration] can tell. *)
Definition Sub (t u : Time) : Z :=
  match t, u with
  | At a, At b => Z.max minInt64 (Z.min (a - b) maxInt64)
  | At _, ZeroTime => maxInt64
  | ZeroTime, At _ => minInt64
  | ZeroTime, ZeroTime => 0
  end.

(** The text of a status message, by the [fmt.Sprintf] call that builds
    it. *)
Inductive StatusText : Type :=
| DownloadingDetailed (percent : float) (total speed eta : string)
| Downloading (percent : float)
| Merging
| ConvertingFrom (codec : string)
| Converting (percent : float)
| Splitting (partNum totalParts : Z) (percent : float)
| Processing.

Definition statusText (p : Progress.t) : StatusText :=
  if String.eqb (Progress.Phase p) "downloading" then
    if negb (String.eqb (Progress.Speed p) "") && negb (String.eqb (Progress.ETA p) "")
    then DownloadingDetailed (Progress.Percent p) (Progress.Total p)
                             (Progress.Speed p) (Progress.ETA p)
    else Downloading (Progress.Percent p)
  else if String.eqb (Progress.Phase p) "merging" then Merging
  else if String.eqb (Progress.Phase p) "encoding" then
    if negb (String.eqb (Progress.Codec p) "") && (Progress.Percent p =? 0)%float
    then ConvertingFrom (Progress.Codec p)
    else Converting (Progress.Percent p)
  else if String.eqb (Progress.Phase p) "splitting" then
    Splitting (Progress.PartNum p) (Progress.TotalParts p) (Progress.Percent p)
  else Processing.

(** The variables that the closure captures. *)
Record Limiter : Type := {
  lastUpdate : Time;
  lastPercent : float
}.

Definition initial : Limiter := {| lastUpdate := ZeroTime; lastPercent := 0%float |}.

(** The guard of the callback: the update is skipped when the last one is
    recent, the percent is below 100 and it has not changed much. *)
Definition skipped (st : Limiter) (now : Z) (p : Progress.t) : bool :=
  (Sub (At now) (lastUpdate st) <? minUpdateInterval)%Z
  && (Progress.Percent p <? 100)%float
  && (Progress.Percent p - lastPercent st <? 5)%float.

(** [progressCb]: one call at clock reading [now]; [edit_ok] tells whether
    [bs.bot.Edit] returns without error.  The result is the new state and
    the messages handed to [Edit]. *)
Definition progressCb (st : Limiter) (now : Z) (p : Progress.t) (edit_ok : bool)
  : Limiter * list StatusText :=
  if skipped st now p then (st, [])
  else
    let text := statusText p in
    if edit_ok
    then ({| lastUpdate := At now; lastPercent := Progress.Percent p |}, [text])
    else (st, [text]).

(** An incoming event: the clock reading, the progress value and the
    answer of the sink. *)
Definition Incoming : Type := (Z * Progress.t * bool)%type.

(** The messages handed to the sink for each event of a sequence. *)
Fixpoint run (st : Limiter) (evs : list Incoming) : list (list StatusText) :=
  match evs with
  | [] => []
  | (now, p, edit_ok) :: rest =>
      let '(st', texts) := progressCb st now p edit_ok in
      texts :: run st' rest
  end.

(** The policy in the words of the specification: an event is forwarded
    when the interval has elapsed since the reference event, or its percent
    reached 100, or its percent advanced by the delta since the reference
    event; the first event has no reference and is forwarded. *)
Definition spec_forwards (last : option (Z * float)) (now : Z) (percent : float) : bool :=
  match last with
  | None => true
  | Some (t, q) =>
      (minUpdateInterval <=? now - t)%Z
      || (100 <=? percent)%float
      || (5 <=? percent - q)%float
  end.

(** The limiter of the specification over a sequence of events.  A
    forwarded event yields its own message at once and a dropped event
    yields nothing.  The reference event is the last forwarded event
    ([accepted_only = false], the wording of the specification) or the last
    forwarded event that the sink accepted ([accepted_only = true]). *)
Fixpoint spec_run (accepted_only : bool) (last : option (Z * float))
    (evs : list Incoming) : list (list StatusText) :=
  match evs with
  | [] => []
  | (now, p, edit_ok) :: rest =>
      let f := spec_forwards last now (Progress.Percent p) in
      (if f then [statusText p] else [])
      :: spec_run accepted_only
           (if f && (edit_ok || negb accepted_only)
            then Some (now, Progress.Percent p) else last)
           rest
  end.

(** The state of the callback that corresponds to a reference event. *)
Definition state_of (last : option (Z * float)) : Limiter :=
  match last with
  | None => initial
  | Some (t, q) => {| lastUpdate := At t; lastPercent := q |}
  end.

(** A download at 0 %, then two more events a second apart; the sink
    rejects the second one. *)
Definition downloading (percent : float) : Progress.t :=
  Progress.mk "downloading" percent "" "" "" "" 0 0 "".

Definition rejected_update : list Incoming :=
  [ (0, downloading 0, true);
    (3000000000, downloading 1, false);
    (3500000000, downloading 2, true) ]%Z.

End Bot.

(** ** A concrete environment

    An instance of the Go library for strings of ASCII bytes, and an
    operating system whose tools answer from a script and whose file
    system is the list of the directories that exist.  The examples and
    the counterexamples below run the stages in it. *)

Module Scripted.

Definition is_space_byte (c : ascii) : bool :=
  let n := byte_val c in
  ((n =? 32) || ((9 <=? n) && (n <=? 13)))%N.

Fixpoint trim_left (s : string) : string :=
  match s with
  | String c s' => if is_space_byte c then trim_left s' else s
  | EmptyString => EmptyString
  end.

Definition rev_string (s : string) : string :=
  string_of_list_ascii (List.rev (list_ascii_of_string s)).

Definition trim_space (s : string) : string :=
  rev_string (trim_left (rev_string (trim_left s))).

Fixpoint fields_from (word : list ascii) (s : string) : list string :=
  let flush rest :=
    match word with
    | [] => rest
    | _ => string_of_list_ascii (List.rev word) :: rest
    end in
  match s with
  | EmptyString => flush []
  | String c s' =>
      if is_space_byte c then flush (fields_from [] s')
      else fields_from (c :: word) s'
  end.

Fixpoint in_cutset (c : ascii) (cutset : string) : bool :=
  match cutset with
  | EmptyString => false
  | String d rest => Ascii.eqb c d || in_cutset c rest
  end.

Fixpoint trim_left_cutset (s cutset : string) : string :=
  match s with
  | String c s' => if in_cutset c cutset then trim_left_cutset s' cutset else s
  | EmptyString => EmptyString
  end.

Definition trim_cutset (s cutset : string) : string :=
  rev_string (trim_left_cutset (rev_string (trim_left_cutset s cutset)) cutset).

(** The part of a reversed path before its first separator or dot. *)
Fixpoint rev_until (stop : ascii) (r : list ascii) : list ascii * list ascii :=
  match r with
  | [] => ([], [])
  | c :: rest =>
      if Ascii.eqb c stop then ([], r)
      else let '(a, b) := rev_until stop rest in (c :: a, b)
  end.

Definition path_base (p : string) : string :=
  string_of_list_ascii
    (List.rev (fst (rev_until "/"%char (List.rev (list_ascii_of_string p))))).

Definition path_dir (p : string) : string :=
  match snd (rev_until "/"%char (List.rev (list_ascii_of_string p))) with
  | [] => "."
  | _ :: rest => string_of_list_ascii (List.rev rest)
  end.

Definition path_ext (p : string) : string :=
  let r := List.rev (list_ascii_of_string (path_base p)) in
  match snd (rev_until "."%char r) with
  | [] => ""
  | dot :: _ => string_of_list_ascii (dot :: List.rev (fst (rev_until "."%char r)))
  end.

(** [%.2f] of a finite value: the decimal with two places nearest to it,
    ties to even. *)
Definition hundredths (x : spec_float) : option Z :=
  match x with
  | S754_zero _ => Some 0%Z
  | S754_finite s m e =>
      let n := (Zpos m * 100)%Z in
      let '(q, r, d) :=
        if (0 <=? e)%Z then (n * 2 ^ e, 0, 1)%Z
        else (n / 2 ^ (- e), n mod 2 ^ (- e), 2 ^ (- e))%Z in
      let up := (d <? 2 * r)%Z || ((d =? 2 * r)%Z && Z.odd q) in
      Some (cond_Zopp s (if up then q + 1 else q)%Z)
  | _ => None
  end.

Definition two_digits (n : Z) : string :=
  if (n <? 10)%Z then "0" ++ Sprintf_d n else Sprintf_d n.

Definition sprintf_2f (x : float) : string :=
  match hundredths (Prim2SF x) with
  | Some h =>
      (if (h <? 0)%Z then "-" else "")
      ++ Sprintf_d (Z.abs h / 100) ++ "." ++ two_digits (Z.abs h mod 100)
  | None => if is_nan x then "NaN" else if (x <? 0)%float then "-Inf" else "+Inf"
  end.

(** Runes of a string without multi-byte encodings: a byte below 128 is
    its own rune, any other byte starts no valid encoding and reads as
    U+FFFD. *)
Definition runes (s : string) : list Z :=
  List.map (fun c => if is_ascii_byte c then Z.of_N (byte_val c) else 65533%Z)
           (list_ascii_of_string s).

Definition byte_of (n : Z) : ascii := ascii_of_N (Z.to_N n).

(** UTF-8 encoding of a rune (one to four bytes); a value above the
    largest rune is encoded as U+FFFD. *)
Definition encode_rune (r : Z) : string :=
  if (r <? 128)%Z then String (byte_of r) ""
  else if (r <? 2048)%Z then
    String (byte_of (192 + r / 64)) (String (byte_of (128 + r mod 64)) "")
  else if (r <? 65536)%Z then
    String (byte_of (224 + r / 4096))
      (String (byte_of (128 + (r / 64) mod 64)) (String (byte_of (128 + r mod 64)) ""))
  else if (r <? 1114112)%Z then
    String (byte_of (240 + r / 262144))
      (String (byte_of (128 + (r / 4096) mod 64))
         (String (byte_of (128 + (r / 64) mod 64)) (String (byte_of (128 + r mod 64)) "")))
  else String (byte_of 239) (String (byte_of 191) (String (byte_of 189) "")).

(** [unicode.ToLower] on ASCII, on the two runes outside ASCII whose
    lower case is an ASCII letter (U+0130 and the Kelvin sign U+212A), and
    the identity elsewhere. *)
Definition to_lower_rune (r : Z) : Z :=
  if ((65 <=? r) && (r <=? 90))%Z then (r + 32)%Z
  else if (r =? 304)%Z then 105%Z
  else if (r =? 8490)%Z then 107%Z
  else r.

Definition lib : GoLib := {|
  utf8_runes := runes;
  utf8_encode := encode_rune;
  unicode_ToLower := to_lower_rune;
  TrimSpace := trim_space;
  Fields := fields_from [];
  Trim := trim_cutset;
  filepath_Dir := path_dir;
  filepath_Base := path_base;
  filepath_Ext := path_ext;
  Sprintf_2f := sprintf_2f
|}.

(** The script: what the clock and the tools answer. *)
Record Script : Type := {
  clock : Z;
  ytdlp : YtdlpRun;
  glob : string -> option (list string);
  stat : string -> option Z;
  probe : string -> ProbeRun;
  codec : option string;
  ffmpeg : FfmpegRun
}.

(** The world: the directories that exist. *)
Definition World : Type := list string.

Definition mkdir_all (path : string) (w : World) : World :=
  if List.existsb (String.eqb path) w then w else path :: w.

Definition remove_all (path : string) (w : World) : World :=
  List.filter (fun d => negb (String.eqb d path)) w.

Definition last_arg (args : list string) : string := List.last args "".

Definition os (s : Script) : OS World := {|
  os_Now := fun w => (clock s, w);
  os_MkdirAll := fun path w => (true, mkdir_all path w);
  os_RemoveAll := fun path w => remove_all path w;
  os_Remove := fun _ w => w;
  os_Glob := fun pattern w => (glob s pattern, w);
  os_Stat := fun path w => (stat s path, w);
  os_ytdlp := fun _ _ w => (ytdlp s, w);
  os_ffprobe_json := fun args w => (probe s (last_arg args), w);
  os_ffprobe_text := fun _ w => (codec s, w);
  os_ffmpeg := fun _ w => (ffmpeg s, w)
|}.

Definition ytdlp_ok (lines : list YtdlpLine) : YtdlpRun :=
  {| yt_stdout_pipe_err := false; yt_stderr_pipe_err := false; yt_start_err := false;
     yt_lines := lines; yt_wait_err := false |}.

Definition ytdlp_exit_1 : YtdlpRun :=
  {| yt_stdout_pipe_err := false; yt_stderr_pipe_err := false; yt_start_err := false;
     yt_lines := []; yt_wait_err := true |}.

Definition ffmpeg_ok (lines : list FfmpegLine) : FfmpegRun :=
  {| ff_stderr_pipe_err := false; ff_start_err := false; ff_lines := lines;
     ff_wait_err := false |}.

Definition probed (duration : float) (size : Z) : ProbeRun :=
  ProbeParsed {| format_duration := duration; format_size := size;
                 format_bit_rate := 0;
                 streams := [ {| codec_type := "video"; stream_width := 1280;
                                 stream_height := 720 |} ] |}.

End Scripted.

(** ** Scenarios

    Scripts of the concrete environment that the examples run. *)

(** ffprobe reports no duration for a file that needs transcoding. *)
Definition zero_duration_script : Scripted.Script := {|
  Scripted.clock := 0;
  Scripted.ytdlp := Scripted.ytdlp_ok [];
  Scripted.glob := fun _ => None;
  Scripted.stat := fun _ => None;
  Scripted.probe := fun _ => Scripted.probed 0 3000000000;
  Scripted.codec := Some "vp9";
  Scripted.ffmpeg := Scripted.ffmpeg_ok [TimeLine 0 0 0]
|}.


(** A file of 5 GB and 30 seconds is split; ffmpeg writes three parts. *)
Definition three_parts : list string :=
  [ "/tmp/sushe/1/v_part000.mp4"; "/tmp/sushe/1/v_part001.mp4";
    "/tmp/sushe/1/v_part002.mp4" ].

Definition split_script (stat : string -> option Z) : Scripted.Script := {|
  Scripted.clock := 1;
  Scripted.ytdlp := Scripted.ytdlp_ok [];
  Scripted.glob := fun _ => Some three_parts;
  Scripted.stat := stat;
  Scripted.probe := fun _ => Scripted.probed 30 5368709120;
  Scripted.codec := Some "h264";
  Scripted.ffmpeg := Scripted.ffmpeg_ok [TimeLine 0 0 5; PlainLine; TimeLine 0 0 25]
|}.

(** Every part can be stat'ed. *)
Definition stat_all (path : string) : option Z := Some 1789569706.

(** The second part has vanished between the glob and the stat. *)
Definition stat_but_second (path : string) : option Z :=
  if String.eqb path "/tmp/sushe/1/v_part001.mp4" then None else Some 1789569706.

Definition lex_lt (a b : string) : Prop := String.ltb a b = true.

(** Two parts in manifest order: the file names and the ordinals grow. *)
Definition part_lt (p q : PartInfo.t) : Prop :=
  lex_lt (PartInfo.FilePath p) (PartInfo.FilePath q)
  /\ (PartInfo.PartNum p < PartInfo.PartNum q)%Z.

(** The log ends with the effect [e]. *)
Definition ends_with (e : Effect) (log : list Effect) : Prop :=
  exists pre : list Effect, log = (pre ++ [e])%list.

(** A run that fails has removed [workDir] as its last effect. *)
Definition cleaned {W A : Type} (os : OS W) (workDir : string)
    (run : result A * W * list Effect) : Prop :=
  match run with
  | (Err _, w', log) =>
      ends_with (ERemoveAll workDir) log
      /\ exists w0 : W, w' = os_RemoveAll os workDir w0
  | (Ok _, _, _) => True
  end.

(** yt-dlp exits with an error after the scratch directory was created. *)
Definition failing_download_script : Scripted.Script := {|
  Scripted.clock := 1700000000000000000;
  Scripted.ytdlp := Scripted.ytdlp_exit_1;
  Scripted.glob := fun _ => None;
  Scripted.stat := fun _ => None;
  Scripted.probe := fun _ => ProbeFailed;
  Scripted.codec := None;
  Scripted.ffmpeg := Scripted.ffmpeg_ok []
|}.

(** A download of an H.264 file that needs no transcoding; the clock
    reads the same value each time it is asked. *)
Definition download_script : Scripted.Script := {|
  Scripted.clock := 1700000000000000000;
  Scripted.ytdlp := Scripted.ytdlp_ok [DownloadLine 50 "10.00MiB" "2.50MiB/s" "00:02";
                                       CompleteLine];
  Scripted.glob := fun _ => Some ["/tmp/sushe/1700000000000000000/clip.mp4"];
  Scripted.stat := fun _ => Some 10485760;
  Scripted.probe := fun _ => Scripted.probed 10 10485760;
  Scripted.codec := Some "h264";
  Scripted.ffmpeg := Scripted.ffmpeg_ok []
|}.

Definition sushe : Downloader :=
  {| downloadDir := DownloadDir; timeout := DefaultTimeout |}.

(** ** What the embedding takes from Go's Unicode tables and UTF-8 codec

    A string with a byte of 128 or more has a rune of 128 or more (such a
    byte belongs to a multi-byte encoding or reads as U+FFFD); a rune below
    128 is encoded as itself, any other rune as bytes of 128 or more; and
    the lower case of a rune of 128 or more is again such a rune, except
    for U+0130 and U+212A (the Kelvin sign), whose lower cases are the
    letters i and k. *)
Record unicode_facts (lib : GoLib) : Prop := {
  runes_non_ascii :
    forall s : string,
      all_bytes is_ascii_byte s = false ->
      exists r : Z, In r (utf8_runes lib s) /\ (128 <= r)%Z;
  encode_ascii :
    forall r : Z,
      (0 <= r < 128)%Z -> utf8_encode lib r = String (ascii_of_N (Z.to_N r)) "";
  encode_non_ascii :
    forall r : Z,
      (128 <= r)%Z ->
      exists (c : ascii) (rest : string),
        utf8_encode lib r = String c rest /\ is_ascii_byte c = false;
  lower_non_ascii :
    forall r : Z,
      (128 <= r)%Z ->
      (128 <= unicode_ToLower lib r)%Z
      \/ unicode_ToLower lib r = 105%Z \/ unicode_ToLower lib r = 107%Z
}.

(** A byte that no spelling of "h264", "avc" or "avc1" has after lowering:
    a byte of 128 or more, or one of the letters i and k. *)
Definition foreign_byte (c : ascii) : bool :=
  negb (is_ascii_byte c) || Ascii.eqb c "i"%char || Ascii.eqb c "k"%char.

(** [0 <= x <= 100] on [float64]. *)
Definition in_percent_range (x : float) : bool := ((0 <=? x) && (x <=? 100))%float.

(** ** Footprints of the stages

    What the log of a stage may hold is stated with a predicate on its
    effects. *)

(** Every effect of every run of [m] satisfies [P]. *)
Definition emits {W A : Type} (P : Effect -> Prop) (m : W -> A * W * list Effect) : Prop :=
  forall w : W, Forall P (snd (m w)).

(** A progress event handed to the callback. *)
Definition is_callback (e : Effect) : bool :=
  match e with
  | ECallback _ => true
  | _ => false
  end.

(** An effect that deletes a file or a directory. *)
Definition is_removal (e : Effect) : bool :=
  match e with
  | ERemoveAll _ | ERemove _ => true
  | _ => false
  end.

Definition is_RemoveAll (e : Effect) : bool :=
  match e with
  | ERemoveAll _ => true
  | _ => false
  end.

(** A successful [os.Stat], with the path and the size it reported. *)
Definition stat_answer (e : Effect) : option (string * Z) :=
  match e with
  | EStat path (Some size) => Some (path, size)
  | _ => None
  end.

(** The path of an [os.Stat], whatever it reported. *)
Definition stat_path (e : Effect) : option string :=
  match e with
  | EStat path _ => Some path
  | _ => None
  end.

(** The arguments of ffprobe in [GetVideoCodec]. *)
Definition codec_args (filePath : string) : list string :=
  ["-v"; "quiet"; "-select_streams"; "v:0"; "-show_entries";
   "stream=codec_name"; "-of"; "csv=p=0"; filePath].

(** The codec that [DownloadWithProgress] goes by: the trimmed output of
    ffprobe, or "unknown" when ffprobe failed. *)
Definition probed_codec (lib : GoLib) (output : option string) : string :=
  match output with
  | Some out => TrimSpace lib out
  | None => "unknown"
  end.

(** The output path of [ReencodeToH264]. *)
Definition h264_path (lib : GoLib) (filePath : string) : string :=
  filepath_Join (filepath_Dir lib filePath)
    (TrimSuffix (filepath_Base lib filePath) (filepath_Ext lib filePath) ++ "_h264.mp4").

(** A successful run has kept every directory and returns a result that
    satisfies [Q]. *)
Definition kept {W A : Type} (Q : A -> Prop) (run : result A * W * list Effect) : Prop :=
  match run with
  | (Ok a, _, log) => Forall (fun e => is_RemoveAll e = false) log /\ Q a
  | (Err _, _, _) => True
  end.

(** What every result of [DownloadWithProgress] has: it is not split, its
    file name is the base name of its path, and its content type is the one
    of its path. *)
Definition described (lib : GoLib) (res : DownloadResult.t) : Prop :=
  DownloadResult.IsSplit res = false
  /\ DownloadResult.Parts res = []
  /\ DownloadResult.FileName res = filepath_Base lib (DownloadResult.FilePath res)
  /\ DownloadResult.ContentType res = getContentType lib (DownloadResult.FilePath res).

(** A download of a VP9 file, which is transcoded; ffmpeg reports two
    time markers. *)
Definition transcode_script : Scripted.Script := {|
  Scripted.clock := 1700000000000000001;
  Scripted.ytdlp := Scripted.ytdlp_ok [CompleteLine];
  Scripted.glob := fun _ => Some ["/tmp/sushe/1700000000000000001/clip.webm"];
  Scripted.stat := fun _ => Some 10485760;
  Scripted.probe := fun _ => Scripted.probed 10 10485760;
  Scripted.codec := Some "vp9";
  Scripted.ffmpeg := Scripted.ffmpeg_ok [TimeLine 0 0 5; TimeLine 0 0 10]
|}.

(** The same download when ffprobe cannot tell the codec. *)
Definition unprobed_script : Scripted.Script := {|
  Scripted.clock := 1700000000000000001;
  Scripted.ytdlp := Scripted.ytdlp_ok [CompleteLine];
  Scripted.glob := fun _ => Some ["/tmp/sushe/1700000000000000001/clip.webm"];
  Scripted.stat := fun _ => Some 10485760;
  Scripted.probe := fun _ => Scripted.probed 10 10485760;
  Scripted.codec := None;
  Scripted.ffmpeg := Scripted.ffmpeg_ok [TimeLine 0 0 5; TimeLine 0 0 10]
|}.

(** What ffprobe reports for a file with an audio stream, two video
    streams and a subtitle stream. *)
Definition mixed_streams : ProbeJSON := {|
  format_duration := 10;
  format_size := 10485760;
  format_bit_rate := 8388608;
  streams :=
    [ {| codec_type := "audio"; stream_width := 0; stream_height := 0 |};
      {| codec_type := "video"; stream_width := 1920; stream_height := 1080 |};
      {| codec_type := "video"; stream_width := 640; stream_height := 360 |};
      {| codec_type := "subtitle"; stream_width := 0; stream_height := 0 |} ]
|}.

Definition mixed_streams_script : Scripted.Script := {|
  Scripted.clock := 1;
  Scripted.ytdlp := Scripted.ytdlp_ok [];
  Scripted.glob := fun _ => None;
  Scripted.stat := fun _ => None;
  Scripted.probe := fun _ => ProbeParsed mixed_streams;
  Scripted.codec := Some "h264";
  Scripted.ffmpeg := Scripted.ffmpeg_ok []
|}.

(** [SFfinite x]: [x] is a zero or a finite number. *)
Definition SFfinite (x : spec_float) : Prop :=
  match x with
  | S754_zero _ | S754_finite _ _ _ => True
  | _ => False
  end.

(** The concrete environment on a file system where no directory can be
    created. *)
Definition read_only (s : Scripted.Script) : OS Scripted.World := {|
  os_Now := os_Now (Scripted.os s);
  os_MkdirAll := fun _ w => (false, w);
  os_RemoveAll := os_RemoveAll (Scripted.os s);
  os_Remove := os_Remove (Scripted.os s);
  os_Glob := os_Glob (Scripted.os s);
  os_Stat := os_Stat (Scripted.os s);
  os_ytdlp := os_ytdlp (Scripted.os s);
  os_ffprobe_json := os_ffprobe_json (Scripted.os s);
  os_ffprobe_text := os_ffprobe_text (Scripted.os s);
  os_ffmpeg := os_ffmpeg (Scripted.os s)
|}.

(** ** Sizes in status messages ([formatSize]) *)

(** A formatted size: [fmt.Sprintf("%d B", bytes)], or
    [fmt.Sprintf("%.1f %cB", value, "KMGTPE"[exp])] with the index [exp]
    of the unit letter. *)
Inductive SizeText : Type :=
| PlainBytes (bytes : Z)
| Scaled (value : float) (exp : Z).

(** The loop of [formatSize]:
    [for n := bytes / unit; n >= unit; n /= unit { div *= unit; exp++ }],
    on [int64] and [int].  The loop ends because [n] loses ten binary
    digits in each round. *)
Function formatSize_loop (n div exp : Z)
    {measure (fun n => Z.to_nat (Z.log2 n)) n} : Z * Z :=
  if (1024 <=? n)%Z
  then formatSize_loop (Z.quot n 1024) (wrap64 (div * 1024)) (wrap64 (exp + 1))
  else (div, exp).
Proof.
  intros n _ _ H. apply Z.leb_le in H.
  rewrite Z.quot_div_nonneg by lia.
  change 1024%Z with (2 ^ 10)%Z at 1. rewrite <- Z.shiftr_div_pow2 by lia.
  rewrite Z.log2_shiftr by lia.
  pose proof (Z.log2_le_mono 1024 n H) as Hlog.
  change (Z.log2 1024) with 10%Z in Hlog.
  lia.
Defined.

(** [formatSize] formats bytes into human readable format. *)
Definition formatSize (bytes : Z) : SizeText :=
  if (bytes <? 1024)%Z then PlainBytes bytes
  else
    let '(div, exp) := formatSize_loop (Z.quot bytes 1024) 1024 0 in
    Scaled (Float64.of_int bytes / Float64.of_int div)%float exp.

(** The letter that the index selects in "KMGTPE"; indexing outside the
    string is a run-time panic ([None]). *)
Definition unit_letter (exp : Z) : option ascii :=
  if (exp <? 0)%Z then None else String.get (Z.to_nat exp) "KMGTPE".

(** ** The upload progress ([ProgressReader] and its callback) *)

Module Upload.

(** [ProgressReader]: the size of the file and the bytes read so far;
    [onProgress] tells whether the callback is not nil. *)
Record ProgressReader : Type := {
  total : Z;
  read : Z;
  onProgress : bool
}.

(** [Read]: the wrapped reader returned [n] bytes and the error [err]; the
    count is added, the callback (if any) is called with the running count
    and the total, and [n] and [err] are returned as they are. *)
Definition Read {E : Type} (pr : ProgressReader) (n : Z) (err : E)
  : ProgressReader * option (Z * Z) * (Z * E) :=
  let pr' := {| total := total pr; read := wrap64 (read pr + n);
                onProgress := onProgress pr |} in
  (pr', if onProgress pr then Some (read pr', total pr') else None, (n, err)).

(** [percent := float64(read) / float64(total) * 100]. *)
Definition percent (read total : Z) : float :=
  (Float64.of_int read / Float64.of_int total * 100)%float.

(** The text of the status message: with the part when [handleLargeVideo]
    uploads, without when [uploadSingleVideo] does. *)
Inductive UploadText : Type :=
| UploadingPart (partNum totalParts : Z) (percent : float) (title : string)
                (read total : SizeText)
| Uploading (percent : float) (title : string) (read total : SizeText).

(** What the two closures differ in. *)
Definition text_of (part : option (Z * Z)) (title : string) (percent : float)
    (read total : Z) : UploadText :=
  match part with
  | Some (partNum, totalParts) =>
      UploadingPart partNum totalParts percent title (formatSize read) (formatSize total)
  | None => Uploading percent title (formatSize read) (formatSize total)
  end.

(** The guard of the closure: the update is skipped when the last accepted
    one is less than two seconds old and the percent has gained less
    than 10. *)
Definition skipped (st : Bot.Limiter) (now : Z) (percent : float) : bool :=
  (Bot.Sub (Bot.At now) (Bot.lastUpdate st) <? 2 * 1000000000)%Z
  && (percent - Bot.lastPercent st <? 10)%float.

(** The closure [onProgress] of [uploadSingleVideo] and [handleLargeVideo]:
    one call at clock reading [now]; [edit_ok] tells whether [bs.bot.Edit]
    returned without error. *)
Definition callback (part : option (Z * Z)) (title : string)
    (st : Bot.Limiter) (now : Z) (read total : Z) (edit_ok : bool)
  : Bot.Limiter * list UploadText :=
  let percent := percent read total in
  if skipped st now percent then (st, [])
  else
    let text := text_of part title percent read total in
    if edit_ok
    then ({| Bot.lastUpdate := Bot.At now; Bot.lastPercent := percent |}, [text])
    else (st, [text]).

(** One [Read] of the client: the bytes it got, the clock reading of the
    callback and the answer of [Edit]. *)
Definition Chunk : Type := (Z * Z * bool)%type.

(** The texts handed to [Edit] for each [Read] of an upload. *)
Fixpoint run (part : option (Z * Z)) (title : string)
    (pr : ProgressReader) (st : Bot.Limiter) (chunks : list Chunk)
  : list (list UploadText) :=
  match chunks with
  | [] => []
  | (n, now, edit_ok) :: rest =>
      let '(pr', called, _) := Read pr n tt in
      match called with
      | Some (r, t) =>
          let '(st', texts) := callback part title st now r t edit_ok in
          texts :: run part title pr' st' rest
      | None => [] :: run part title pr' st rest
      end
  end.

(** The policy of the comment in the code ("every 2 seconds or every
    10%"): an update is shown when two seconds have passed since the last
    update that was accepted, or the percent has gained 10 since then; the
    first one is shown. *)
Definition spec_shows (last : option (Z * float)) (now : Z) (percent : float) : bool :=
  match last with
  | None => true
  | Some (t, q) => (2 * 1000000000 <=? now - t)%Z || (10 <=? percent - q)%float
  end.

(** The policy over the reads of an upload of [total] bytes of which
    [sofar] have been read. *)
Fixpoint spec_run (part : option (Z * Z)) (title : string) (total sofar : Z)
    (last : option (Z * float)) (chunks : list Chunk) : list (list UploadText) :=
  match chunks with
  | [] => []
  | (n, now, edit_ok) :: rest =>
      let sofar' := sofar + n in
      let shown := spec_shows last now (percent sofar' total) in
      (if shown then [text_of part title (percent sofar' total) sofar' total] else [])
      :: spec_run part title total sofar'
           (if shown && edit_ok then Some (now, percent sofar' total) else last) rest
  end.

(** The bytes read after each chunk. *)
Fixpoint running_totals (sofar : Z) (chunks : list Chunk) : list Z :=
  match chunks with
  | [] => []
  | (n, _, _) :: rest => (sofar + n) :: running_totals (sofar + n) rest
  end.

End Upload.

(** ** The whitelist ([auth.go]) *)

Module ZSet := MSetAVL.Make Z_as_OT.

Module Auth.

(** [strings.Split(s, sep)] for a separator of one byte. *)
Fixpoint Split (s : string) (sep : ascii) : list string :=
  match s with
  | EmptyString => [EmptyString]
  | String c rest =>
      if Ascii.eqb c sep then EmptyString :: Split rest sep
      else
        match Split rest sep with
        | piece :: pieces => String c piece :: pieces
        | [] => [String c EmptyString]
        end
  end.

Definition digit (c : ascii) : option Z :=
  let n := Z.of_N (byte_val c) in
  if ((48 <=? n) && (n <=? 57))%Z then Some (n - 48)%Z else None.

Fixpoint digits_value (acc : Z) (s : string) : option Z :=
  match s with
  | EmptyString => Some acc
  | String c rest =>
      match digit c with
      | Some d => digits_value (acc * 10 + d)%Z rest
      | None => None
      end
  end.

(** [strconv.ParseInt(s, 10, 64)]: an optional sign and at least one
    decimal digit, with a value in the range of [int64]; [None] stands for
    a syntax or a range error. *)
Definition ParseInt (s : string) : option Z :=
  match s with
  | EmptyString => None
  | String c rest =>
      let '(neg, body) :=
        if Ascii.eqb c "+" then (false, rest)
        else if Ascii.eqb c "-" then (true, rest)
        else (false, s) in
      match body with
      | EmptyString => None
      | _ =>
          match digits_value 0 body with
          | Some v =>
              let n := if neg then (- v)%Z else v in
              if ((minInt64 <=? n) && (n <=? maxInt64))%Z then Some n else None
          | None => None
          end
      end
  end.

(** [AllowedUsers] holds the set of authorized Telegram user IDs: a map
    from [int64] to the empty struct, or nil. *)
Definition AllowedUsers : Type := option ZSet.t.

(** [len(allowedUsers) == 0]. *)
Definition is_empty (allowed : AllowedUsers) : bool :=
  match allowed with
  | None => true
  | Some ids => ZSet.is_empty ids
  end.

(** [_, ok := allowedUsers[id]]. *)
Definition lookup (allowed : AllowedUsers) (id : Z) : bool :=
  match allowed with
  | None => false
  | Some ids => ZSet.mem id ids
  end.

(** The body of the loop of [LoadAllowedUsers] for one piece. *)
Definition add_piece (lib : GoLib) (allowed : ZSet.t) (s : string) : ZSet.t :=
  let s := TrimSpace lib s in
  if String.eqb s "" then allowed
  else
    match ParseInt s with
    | None => allowed
    | Some id => ZSet.add id allowed
    end.

(** [LoadAllowedUsers] parses the SUSHE_ALLOWED_USERS env variable, whose
    value is [raw] (empty when the variable is not set). *)
Definition LoadAllowedUsers (lib : GoLib) (raw : string) : AllowedUsers :=
  if String.eqb raw "" then None
  else
    let allowed := List.fold_left (add_piece lib) (Split raw ",") ZSet.empty in
    if ZSet.is_empty allowed then None else Some allowed.

(** The sender of an update. *)
Record User : Type := {
  ID : Z;
  Username : string;
  FirstName : string;
  LastName : string
}.

(** What the middleware does with an update: it calls the next handler
    and returns its result, returns nil silently, or logs the unauthorized
    access attempt with the name of the sender and returns nil. *)
Inductive Verdict : Type :=
| Next
| Silent
| Unauthorized (user_id : Z) (username : string).

(** [AuthMiddleware] restricts access to whitelisted users. *)
Definition AuthMiddleware (lib : GoLib) (allowedUsers : AllowedUsers)
    (sender : option User) : Verdict :=
  if is_empty allowedUsers then Next
  else
    match sender with
    | None => Silent
    | Some user =>
        if lookup allowedUsers (ID user) then Next
        else
          let username :=
            if String.eqb (Username user) ""
            then TrimSpace lib (FirstName user ++ " " ++ LastName user)
            else Username user in
          Unauthorized (ID user) username
    end.

(** An id is listed in [raw] when one of the pieces between the commas,
    trimmed, is a decimal [int64] with that value. *)
Definition listed (lib : GoLib) (raw : string) (id : Z) : Prop :=
  raw <> "" /\
  exists piece : string,
    In piece (Split raw ",") /\ TrimSpace lib piece <> ""
    /\ ParseInt (TrimSpace lib piece) = Some id.

End Auth.

(** ** The bot service ([bot.go])

    The handlers talk to the Telegram API, read the clock in their
    callbacks and open the files they upload: this environment is the
    interface [API] over a world of its own, next to the world of the
    downloader.  A stage of the downloader that is given [progressCb] runs
    in the world of the downloader, and the callback runs in the world of
    the API for each progress event of the stage, in the order of the
    events.  A call of [bs.bot.Send] with a video reads the file through the
    [ProgressReader]; the reads that the client makes are an answer of the
    environment, and they are logged before the answer of [Send]. *)

Module Service.

(** A [*tele.Message], by its ID. *)
Definition Message : Type := Z.

(** What is sent: a text, a [tele.Video] (read from the file at [path]
    through a [ProgressReader], with [Streaming: true]), or a
    [tele.Document] (read from the file at [path]). *)
Inductive Payload : Type :=
| PText (text : string)
| PVideo (path fileName caption : string) (width height : Z)
| PDocument (path fileName caption : string).

(** The texts that the status message is edited to, by the [fmt.Sprintf]
    call that builds them. *)
Inductive Status : Type :=
| SProgress (text : Bot.StatusText)
| SDownloadFailed (err : string)
| SSplitting (size : SizeText) (numParts : Z)
| SSplitFailed (err : string)
| SUploadingPart0 (partNum totalParts : Z) (title : string) (size : SizeText)
| SOpenPartFailed (partNum : Z) (err : string)
| SSendPartFailed (partNum : Z) (err : string)
| SUploadPartFailed (partNum : Z) (err : string)
| SUploading0 (title : string) (size : SizeText)
| SOpenFailed (err : string)
| SSendFailed (err : string)
| SUploadFailed (err : string)
| SUpload (text : Upload.UploadText).

(** What a handler does, with what the environment answered. *)
Inductive Action : Type :=
| APipeline (e : Effect)
| AClock (now : Z)
| ASend (what : Payload) (replyTo : option Message) (answer : result Message)
| ARead (n : Z)
| AEdit (msg : Message) (text : Status) (ok : bool)
| ADelete (msg : Message)
| AOpen (path : string) (answer : result unit)
| AClose (path : string).

Record API (S : Type) : Type := {
  api_Now : S -> Z * S;
  api_Send : Payload -> option Message -> S -> result Message * S;
  api_reads : Payload -> S -> list Z * S;
  api_Edit : Message -> Status -> S -> bool * S;
  api_Delete : Message -> S -> S;
  api_Open : string -> S -> result unit * S;
  api_Close : string -> S -> S
}.
Arguments api_Now {S} _ _.
Arguments api_Send {S} _ _ _ _.
Arguments api_reads {S} _ _ _.
Arguments api_Edit {S} _ _ _ _.
Arguments api_Delete {S} _ _ _.
Arguments api_Open {S} _ _ _.
Arguments api_Close {S} _ _ _.

(** A [tele.Context]: the text of the message and its sender (nil for an
    update without sender). *)
Record Context : Type := {
  Text : string;
  Sender : option Auth.User
}.

(** What a handler ends with: it returns nil, it returns an error, or it
    panics. *)
Inductive Outcome : Type :=
| Done
| Failed (err : string)
| Panicked.

Definition starting_text : string := "Starting download...".
Definition no_url_text : string :=
  "No video URL detected. Send me a link to download a video!".

(** The line feed of the captions. *)
Definition nl : string := String (ascii_of_nat 10) "".

(** [fmt.Sprintf("%s\n\nPart %d/%d", title, partNum, totalParts)]. *)
Definition part_caption (title : string) (partNum totalParts : Z) : string :=
  title ++ nl ++ nl ++ "Part " ++ Sprintf_d partNum ++ "/" ++ Sprintf_d totalParts.

(** [fmt.Sprintf("%s_part%d.mp4", strings.TrimSuffix(fileName, ".mp4"),
    partNum)]. *)
Definition part_file_name (fileName : string) (partNum : Z) : string :=
  TrimSuffix fileName ".mp4" ++ "_part" ++ Sprintf_d partNum ++ ".mp4".

(** The video that [handleLargeVideo] sends for the part at index [i] of
    [totalParts] parts. *)
Definition part_video (res : DownloadResult.t) (totalParts i : Z) (part : PartInfo.t)
  : Payload :=
  PVideo (PartInfo.FilePath part)
    (part_file_name (DownloadResult.FileName res) (i + 1))
    (part_caption (DownloadResult.Title res) (i + 1) totalParts)
    (DownloadResult.Width res) (DownloadResult.Height res).

(** The document that it sends when the video is refused. *)
Definition part_document (res : DownloadResult.t) (totalParts i : Z) (part : PartInfo.t)
  : Payload :=
  PDocument (PartInfo.FilePath part)
    (part_file_name (DownloadResult.FileName res) (i + 1))
    (part_caption (DownloadResult.Title res) (i + 1) totalParts).

Section Handlers.

Context {W S : Type}.
Variable lib : GoLib.
Variable os : OS W.
Variable api : API S.
Variable downloader : Downloader.

(** A handler reads and changes the two worlds and logs its actions. *)
Definition SM (A : Type) : Type := W * S -> A * (W * S) * list Action.

Definition ret {A : Type} (a : A) : SM A := fun ws => (a, ws, []).

Definition bind {A B : Type} (m : SM A) (f : A -> SM B) : SM B :=
  fun ws =>
    let '(a, ws1, l1) := m ws in
    let '(b, ws2, l2) := f a ws1 in
    (b, ws2, (l1 ++ l2)%list).

Local Notation "x <- m ;; k" := (bind m (fun x => k))
  (at level 61, m at next level, right associativity).
Local Notation "m ;;; k" := (bind m (fun _ => k))
  (at level 61, right associativity).

Definition act (a : Action) : SM unit := fun ws => (tt, ws, [a]).

Definition Now : SM Z :=
  fun ws => let '(t, s') := api_Now api (snd ws) in (t, (fst ws, s'), [AClock t]).

Definition Send (what : Payload) (replyTo : option Message) : SM (result Message) :=
  fun ws =>
    let '(answer, s') := api_Send api what replyTo (snd ws) in
    (answer, (fst ws, s'), [ASend what replyTo answer]).

Definition Edit (msg : Message) (text : Status) : SM bool :=
  fun ws =>
    let '(ok, s') := api_Edit api msg text (snd ws) in
    (ok, (fst ws, s'), [AEdit msg text ok]).

Definition Delete (msg : Message) : SM unit :=
  fun ws => (tt, (fst ws, api_Delete api msg (snd ws)), [ADelete msg]).

Definition Open (path : string) : SM (result unit) :=
  fun ws =>
    let '(answer, s') := api_Open api path (snd ws) in
    (answer, (fst ws, s'), [AOpen path answer]).

Definition Close (path : string) : SM unit :=
  fun ws => (tt, (fst ws, api_Close api path (snd ws)), [AClose path]).

(** The reads that the client will make on the reader of [video]. *)
Definition Reads (video : Payload) : SM (list Z) :=
  fun ws => let '(reads, s') := api_reads api video (snd ws) in (reads, (fst ws, s'), []).

(** A stage of the downloader that is run without callback. *)
Definition lift {A : Type} (m : @M W A) : SM A :=
  fun ws =>
    let '(a, w', log) := m (fst ws) in
    (a, (w', snd ws), List.map APipeline log).

(** [progressCb] of [processURL], called with [p]: the clock is read, and
    unless the update is skipped the status message is edited; the time
    and the percent are kept when [Edit] returns no error. *)
Definition progressCb (statusMsg : Message) (st : Bot.Limiter) (p : Progress.t)
  : SM Bot.Limiter :=
  now <- Now ;;
  if Bot.skipped st now p then ret st
  else
    ok <- Edit statusMsg (SProgress (Bot.statusText p)) ;;
    ret (fst (Bot.progressCb st now p ok)).

(** The effects of a stage that is run with [progressCb] as its callback:
    each progress event calls it. *)
Fixpoint relay (statusMsg : Message) (st : Bot.Limiter) (log : list Effect)
  : SM Bot.Limiter :=
  match log with
  | [] => ret st
  | e :: rest =>
      act (APipeline e) ;;;
      match e with
      | ECallback p =>
          st' <- progressCb statusMsg st p ;;
          relay statusMsg st' rest
      | _ => relay statusMsg st rest
      end
  end.

Definition with_progress {A : Type} (statusMsg : Message) (st : Bot.Limiter)
    (m : @M W A) : SM (A * Bot.Limiter) :=
  fun ws =>
    let '(a, w', log) := m (fst ws) in
    let '(st', ws', actions) := relay statusMsg st log (w', snd ws) in
    ((a, st'), ws', actions).

(** The reads of the [ProgressReader] during a [Send]: each read calls
    [onProgress], which reads the clock and, unless the update is skipped,
    edits the status message. *)
Fixpoint upload_reads (statusMsg : Message) (part : option (Z * Z)) (title : string)
    (pr : Upload.ProgressReader) (st : Bot.Limiter) (reads : list Z) : SM unit :=
  match reads with
  | [] => ret tt
  | n :: rest =>
      act (ARead n) ;;;
      let '(pr', called, _) := Upload.Read pr n tt in
      match called with
      | None => upload_reads statusMsg part title pr' st rest
      | Some (r, t) =>
          now <- Now ;;
          if Upload.skipped st now (Upload.percent r t)
          then upload_reads statusMsg part title pr' st rest
          else
            ok <- Edit statusMsg
                    (SUpload (Upload.text_of part title (Upload.percent r t) r t)) ;;
            upload_reads statusMsg part title pr'
              (fst (Upload.callback part title st now r t ok)) rest
      end
  end.

(** [bs.bot.Send] of a video whose file is a [ProgressReader] over a file
    of [total] bytes, with the closure [onProgress] and its two
    variables. *)
Definition send_video (statusMsg : Message) (part : option (Z * Z)) (title : string)
    (total : Z) (video : Payload) (replyTo : option Message) : SM (result Message) :=
  reads <- Reads video ;;
  upload_reads statusMsg part title
    {| Upload.total := total; Upload.read := 0; Upload.onProgress := true |}
    Bot.initial reads ;;;
  Send video replyTo.

(** The end of a successful upload: the status message is deleted and
    the success is logged with [c.Sender().Username], which panics when
    the update has no sender. *)
Definition finish (c : Context) (statusMsg : Message) : SM Outcome :=
  Delete statusMsg ;;;
  match Sender c with
  | Some _ => ret Done
  | None => ret Panicked
  end.

(** [uploadSingleVideo] uploads a video that doesn't need splitting; the
    two files are closed when it returns. *)
Definition uploadSingleVideo (c : Context) (statusMsg : Message)
    (res : DownloadResult.t) : SM Outcome :=
  let path := DownloadResult.FilePath res in
  let title := DownloadResult.Title res in
  Edit statusMsg (SUploading0 title (formatSize (DownloadResult.FileSize res))) ;;;
  opened <- Open path ;;
  match opened with
  | Err e => Edit statusMsg (SOpenFailed e) ;;; ret (Failed e)
  | Ok _ =>
      sent <- send_video statusMsg None title (DownloadResult.FileSize res)
                (PVideo path (DownloadResult.FileName res) title
                        (DownloadResult.Width res) (DownloadResult.Height res))
                None ;;
      match sent with
      | Ok _ =>
          out <- finish c statusMsg ;;
          Close path ;;; ret out
      | Err e =>
          opened2 <- Open path ;;
          match opened2 with
          | Err _ => Edit statusMsg (SSendFailed e) ;;; Close path ;;; ret (Failed e)
          | Ok _ =>
              sent2 <- Send (PDocument path (DownloadResult.FileName res) title) None ;;
              match sent2 with
              | Err e2 =>
                  Edit statusMsg (SUploadFailed e2) ;;;
                  Close path ;;; Close path ;;; ret (Failed e2)
              | Ok _ =>
                  out <- finish c statusMsg ;;
                  Close path ;;; Close path ;;; ret out
              end
          end
      end
  end.

(** The loop of [handleLargeVideo] over the parts, from index [i] on, with
    the message [prevMsg] of the part before; it returns the error that
    ends it, if any. *)
Fixpoint upload_parts (statusMsg : Message) (res : DownloadResult.t) (totalParts : Z)
    (i : Z) (prevMsg : option Message) (parts : list PartInfo.t) : SM (option string) :=
  match parts with
  | [] => ret None
  | part :: rest =>
      let partNum := (i + 1)%Z in
      let title := DownloadResult.Title res in
      Edit statusMsg
        (SUploadingPart0 partNum totalParts title (formatSize (PartInfo.FileSize part))) ;;;
      opened <- Open (PartInfo.FilePath part) ;;
      match opened with
      | Err e => Edit statusMsg (SOpenPartFailed partNum e) ;;; ret (Some e)
      | Ok _ =>
          sent <- send_video statusMsg (Some (partNum, totalParts)) title
                    (PartInfo.FileSize part) (part_video res totalParts i part) prevMsg ;;
          Close (PartInfo.FilePath part) ;;;
          match sent with
          | Ok sentMsg => upload_parts statusMsg res totalParts (i + 1) (Some sentMsg) rest
          | Err e =>
              opened2 <- Open (PartInfo.FilePath part) ;;
              match opened2 with
              | Err _ => Edit statusMsg (SSendPartFailed partNum e) ;;; ret (Some e)
              | Ok _ =>
                  sent2 <- Send (part_document res totalParts i part) prevMsg ;;
                  Close (PartInfo.FilePath part) ;;;
                  match sent2 with
                  | Err e2 =>
                      Edit statusMsg (SUploadPartFailed partNum e2) ;;; ret (Some e2)
                  | Ok sentMsg =>
                      upload_parts statusMsg res totalParts (i + 1) (Some sentMsg) rest
                  end
              end
          end
      end
  end.

(** [handleLargeVideo] splits and uploads a video that exceeds the size
    limit; [st] holds the variables of [progressCb]. *)
Definition handleLargeVideo (c : Context) (statusMsg : Message)
    (res : DownloadResult.t) (st : Bot.Limiter) : SM Outcome :=
  let numParts := CalculateNumParts (DownloadResult.FileSize res) in
  Edit statusMsg (SSplitting (formatSize (DownloadResult.FileSize res)) numParts) ;;;
  split <- with_progress statusMsg st
             (SplitVideo lib os (DownloadResult.FilePath res) true) ;;
  match fst split with
  | Err e => Edit statusMsg (SSplitFailed e) ;;; ret (Failed e)
  | Ok parts =>
      let totalParts := Z.of_nat (List.length parts) in
      failed <- upload_parts statusMsg res totalParts 0 None parts ;;
      match failed with
      | Some e => ret (Failed e)
      | None => finish c statusMsg
      end
  end.

(** The upload of a downloaded file, in parts when it needs a split. *)
Definition upload (c : Context) (statusMsg : Message) (res : DownloadResult.t)
    (st : Bot.Limiter) : SM Outcome :=
  if NeedsSplit (DownloadResult.FileSize res)
  then handleLargeVideo c statusMsg res st
  else uploadSingleVideo c statusMsg res.

(** [processURL]: the status message is sent, the video is downloaded
    with [progressCb], and it is uploaded whole or in parts; [Cleanup] is
    deferred once the download has succeeded, so it runs when the upload
    returns or panics. *)
Definition processURL (c : Context) (url : string) : SM Outcome :=
  status <- Send (PText starting_text) None ;;
  match status with
  | Err e => ret (Failed e)
  | Ok statusMsg =>
      downloaded <- with_progress statusMsg Bot.initial
                      (DownloadWithProgress lib os downloader url true) ;;
      match fst downloaded with
      | Err e => Edit statusMsg (SDownloadFailed e) ;;; ret (Failed e)
      | Ok res =>
          out <- upload c statusMsg res (snd downloaded) ;;
          lift (Cleanup lib os (Some res)) ;;;
          ret out
      end
  end.

(** The loop of [handleText] over the URLs: an error of [processURL] is
    logged and the next URL is processed; a panic ends the handler. *)
Fixpoint process_all (c : Context) (urls : list string) : SM Outcome :=
  match urls with
  | [] => ret Done
  | url :: rest =>
      out <- processURL c url ;;
      match out with
      | Panicked => ret Panicked
      | _ => process_all c rest
      end
  end.

(** [handleText]: the URLs of the message are processed; a message
    without URL is answered with a hint unless it begins with "/". *)
Definition handleText (c : Context) : SM Outcome :=
  match ExtractURLs lib (Text c) with
  | [] =>
      if negb (HasPrefix (Text c) "/")
      then
        sent <- Send (PText no_url_text) None ;;
        match sent with
        | Ok _ => ret Done
        | Err e => ret (Failed e)
        end
      else ret Done
  | urls => process_all c urls
  end.

End Handlers.

(** The calls of [Send] in a log: what was sent, the message it replied
    to, and the answer. *)
Definition sends (log : list Action) : list (Payload * option Message * result Message) :=
  filter_map (fun a => match a with
                       | ASend what replyTo answer => Some (what, replyTo, answer)
                       | _ => None
                       end) log.

(** A video or a document. *)
Definition is_upload (what : Payload) : bool :=
  match what with
  | PText _ => false
  | _ => true
  end.

(** Every [Send] replies to the message of the last [Send] that succeeded
    before it ([prev] at the start). *)
Fixpoint threaded (prev : option Message)
    (l : list (Payload * option Message * result Message)) : Prop :=
  match l with
  | [] => True
  | (_, replyTo, answer) :: rest =>
      replyTo = prev
      /\ threaded (match answer with Ok m => Some m | Err _ => prev end) rest
  end.

(** The effects of the downloader in a log. *)
Definition pipeline (log : list Action) : list Effect :=
  filter_map (fun a => match a with APipeline e => Some e | _ => None end) log.

(** The status messages that were deleted. *)
Definition deletes (log : list Action) : list Message :=
  filter_map (fun a => match a with ADelete msg => Some msg | _ => None end) log.

(** An action of progress reporting: an effect of the downloader, a
    reading of the clock, a read of the uploaded file, an edit of the
    status message. *)
Definition is_report (a : Action) : bool :=
  match a with
  | APipeline _ | AClock _ | ARead _ | AEdit _ _ _ => true
  | _ => false
  end.

(** What is left of a log without the progress reporting. *)
Definition skeleton (log : list Action) : list Action :=
  List.filter (fun a => negb (is_report a)) log.

(** The elements of a list with their indices, from [i] on. *)
Fixpoint indexed {A : Type} (i : Z) (l : list A) : list (Z * A) :=
  match l with
  | [] => []
  | a :: rest => (i, a) :: indexed (i + 1) rest
  end.

(** The sends that succeeded. *)
Definition delivered (log : list Action) : list Payload :=
  filter_map (fun a => match a with
                       | ASend what _ (Ok _) => Some what
                       | _ => None
                       end) log.

(** The part at index [i] of [totalParts] parts was sent as [what]: as
    its video, or as its document. *)
Definition sent_as (res : DownloadResult.t) (totalParts : Z) (what : Payload)
    (part : Z * PartInfo.t) : Prop :=
  what = part_video res totalParts (fst part) (snd part)
  \/ what = part_document res totalParts (fst part) (snd part).

(** The texts that were sent, whatever the answer. *)
Definition texts (log : list Action) : list string :=
  filter_map (fun a => match a with
                       | ASend (PText text) _ _ => Some text
                       | _ => None
                       end) log.

(** What [finish] ends with for the update [c]. *)
Definition ended (c : Context) : Outcome :=
  match Sender c with
  | Some _ => Done
  | None => Panicked
  end.

End Service.

(** ** A concrete Telegram API

    The world is the ID of the next message.  The script tells the reading
    of the clock, which payloads the API accepts, the reads that the client
    makes on an uploaded file, whether edits are accepted and which files
    can be opened. *)

Module ScriptedAPI.

Record Script : Type := {
  now : Z;
  accepts : Service.Payload -> bool;
  reads : Service.Payload -> list Z;
  edits : bool;
  opens : string -> bool
}.

Definition api (s : Script) : Service.API Z := {|
  Service.api_Now := fun next => (now s, next);
  Service.api_Send := fun what _ next =>
    if accepts s what then (Ok next, (next + 1)%Z)
    else (Err "telegram: Bad Request", next);
  Service.api_reads := fun what next => (reads s what, next);
  Service.api_Edit := fun _ _ next => (edits s, next);
  Service.api_Delete := fun _ next => next;
  Service.api_Open := fun path next =>
    (if opens s path then Ok tt else Err "open: no such file", next);
  Service.api_Close := fun _ next => next
|}.

(** An API that accepts everything; an uploaded file is read in one
    piece of 1000 bytes. *)
Definition friendly : Script := {|
  now := 5000000000;
  accepts := fun _ => true;
  reads := fun _ => [1000%Z];
  edits := true;
  opens := fun _ => true
|}.

(** An API that refuses videos, so that the files go as documents. *)
Definition documents_only : Script := {|
  now := 5000000000;
  accepts := fun what => match what with Service.PVideo _ _ _ _ _ => false | _ => true end;
  reads := fun _ => [1000%Z];
  edits := true;
  opens := fun _ => true
|}.

End ScriptedAPI.

(** A message from a user. *)
Definition ann : Auth.User :=
  {| Auth.ID := 306600687; Auth.Username := "ann"; Auth.FirstName := "Ann";
     Auth.LastName := "" |}.

(** The result of a download of 5 GB, which is split. *)
Definition large_result : DownloadResult.t :=
  DownloadResult.mk "/tmp/sushe/1/v.mp4" "v.mp4" "v" 30 5368709120 1280 720
    "video/mp4" false [].

(** The result of a download of 10 MB, which is uploaded whole. *)
Definition small_result : DownloadResult.t :=
  DownloadResult.mk "/tmp/sushe/1700000000000000000/clip.mp4" "clip.mp4" "clip"
    10 10485760 1280 720 "video/mp4" false [].

Definition from_ann (text : string) : Service.Context :=
  {| Service.Text := text; Service.Sender := Some ann |}.

(** * Properties *)

Local Open Scope Z_scope.

(** ** binary64 arithmetic *)

Section Binary64.

Local Abbreviation fexp64 := (SpecFloat.fexp prec emax).
Local Abbreviation bra := (binary_round_aux prec emax).

Lemma digits2_pos_size (p : positive) : digits2_pos p = Pos.size p.
Proof. induction p; simpl; congruence. Qed.

Lemma Zdigits2_bounds (p : positive) :
  2 ^ (Zpos (digits2_pos p) - 1) <= Zpos p < 2 ^ Zpos (digits2_pos p).
Proof.
  rewrite digits2_pos_size.
  pose proof (Pos.size_gt p) as Hgt.
  pose proof (Pos.size_le p) as Hle.
  apply Pos2Z.pos_lt_pos in Hgt. apply Pos2Z.pos_le_pos in Hle.
  rewrite Pos2Z.inj_pow in Hgt, Hle.
  change (Zpos p~0) with (2 * Zpos p) in Hle.
  replace (Zpos (Pos.size p)) with (Zpos (Pos.size p) - 1 + 1) in Hle at 1 by lia.
  rewrite Z.pow_add_r in Hle by lia.
  change (2 ^ 1) with 2 in Hle. lia.
Qed.

Lemma Zdigits2_unique (p : positive) (d : Z) :
  2 ^ (d - 1) <= Zpos p < 2 ^ d -> Zpos (digits2_pos p) = d.
Proof.
  intros [Hlo Hhi].
  pose proof (Zdigits2_bounds p) as [Blo Bhi].
  set (k := Zpos (digits2_pos p)) in *.
  assert (0 < k) by (subst k; lia).
  destruct (Z.lt_trichotomy k d) as [Hlt | [Heq | Hgt]]; [ | assumption | ].
  - exfalso.
    assert (2 ^ k <= 2 ^ (d - 1)) by (apply Z.pow_le_mono_r; lia). lia.
  - exfalso.
    assert (d <= 0 \/ 0 < d) as [Hd | Hd] by lia.
    + assert (2 ^ d <= 2 ^ 0) by (apply Z.pow_le_mono_r_iff; lia).
      change (2 ^ 0) with 1 in *. lia.
    + assert (2 ^ d <= 2 ^ (k - 1)) by (apply Z.pow_le_mono_r; lia). lia.
Qed.

Lemma fexp64_normal (e : Z) : -1021 <= e -> fexp64 e = e - 53.
Proof. intros H. unfold SpecFloat.fexp, SpecFloat.emin, prec, emax. lia. Qed.

Lemma loc_of_shr_record_of_loc (m : Z) (l : location) :
  loc_of_shr_record (shr_record_of_loc m l) = l.
Proof. destruct l as [ | [ | | ] ]; reflexivity. Qed.

Lemma shr_m_record_of_loc (m : Z) (l : location) :
  shr_m (shr_record_of_loc m l) = m.
Proof. destruct l as [ | [ | | ] ]; reflexivity. Qed.

(** No shift is needed for a mantissa of 53 digits. *)
Lemma shr_fexp_53 (p : positive) (e : Z) (l : location) :
  2 ^ 52 <= Zpos p < 2 ^ 53 -> -1074 <= e ->
  shr_fexp prec emax (Zpos p) e l = (shr_record_of_loc (Zpos p) l, e).
Proof.
  intros Hp He. unfold shr_fexp.
  change (Zdigits2 (Zpos p)) with (Zpos (digits2_pos p)).
  rewrite (Zdigits2_unique p 53) by (simpl; lia).
  rewrite fexp64_normal by lia.
  replace (53 + e - 53 - e) with 0 by lia. reflexivity.
Qed.

(** One shift is needed for a mantissa of 54 digits. *)
Lemma shr_fexp_54 (p : positive) (e : Z) (l : location) :
  2 ^ 53 <= Zpos p < 2 ^ 54 -> -1074 <= e ->
  shr_fexp prec emax (Zpos p) e l = (shr_1 (shr_record_of_loc (Zpos p) l), e + 1).
Proof.
  intros Hp He. unfold shr_fexp.
  change (Zdigits2 (Zpos p)) with (Zpos (digits2_pos p)).
  rewrite (Zdigits2_unique p 54) by (simpl; lia).
  rewrite fexp64_normal by lia.
  replace (54 + e - 53 - e) with 1 by lia. reflexivity.
Qed.

End Binary64.

Section Rounding.

Local Abbreviation bra := (binary_round_aux prec emax).

Lemma new_location_rel (D r : Z) :
  0 <= r < D -> loc_rel (new_location D r) r D.
Proof.
  intros Hr. unfold new_location.
  destruct (Z.even D) eqn:Hev.
  - unfold new_location_even.
    destruct (Z.eqb_spec r 0) as [-> | Hnz]; [reflexivity | ].
    destruct (Z.compare_spec (2 * r) D); unfold loc_rel; lia.
  - unfold new_location_odd.
    destruct (Z.eqb_spec r 0) as [-> | Hnz]; [reflexivity | ].
    assert (Hodd : Z.odd D = true) by (rewrite <- Z.negb_even, Hev; reflexivity).
    apply Z.odd_spec in Hodd. destruct Hodd as [k Hk].
    destruct (Z.compare_spec (2 * r + 1) D); unfold loc_rel; lia.
Qed.

Lemma round_nearest_even_rel (q N U : Z) (l : location) :
  0 < U -> loc_rel l (N - q * U) U ->
  q <= round_nearest_even q l <= q + 1 /\
  - U <= 2 * (round_nearest_even q l * U - N) <= U.
Proof.
  intros HU Hl.
  destruct l as [ | [ | | ] ]; unfold loc_rel, round_nearest_even in *.
  - split; [lia | nia].
  - destruct (Z.even q); split; try lia; nia.
  - split; [lia | nia].
  - split; [lia | nia].
Qed.

Lemma shr_1_rel (p : positive) (N U : Z) (l : location) :
  0 < U -> loc_rel l (N - Zpos p * U) U ->
  exists q1 : Z,
    shr_m (shr_1 (shr_record_of_loc (Zpos p) l)) = q1 /\
    (Zpos p = 2 * q1 \/ Zpos p = 2 * q1 + 1) /\
    loc_rel (loc_of_shr_record (shr_1 (shr_record_of_loc (Zpos p) l)))
            (N - q1 * (2 * U)) (2 * U).
Proof.
  intros HU Hl.
  destruct p as [p | p | ].
  - exists (Zpos p).
    replace (N - Zpos p * (2 * U)) with (N - Zpos p~1 * U + U)
      by (rewrite Pos2Z.inj_xI; ring).
    set (A := N - Zpos p~1 * U) in *.
    destruct l as [ | [ | | ] ]; unfold loc_rel in Hl;
      cbn [shr_record_of_loc shr_1 orb shr_m loc_of_shr_record loc_rel];
      (split; [reflexivity | split; [lia | lia]]).
  - exists (Zpos p).
    replace (N - Zpos p * (2 * U)) with (N - Zpos p~0 * U)
      by (rewrite Pos2Z.inj_xO; ring).
    set (A := N - Zpos p~0 * U) in *.
    destruct l as [ | [ | | ] ]; unfold loc_rel in Hl;
      cbn [shr_record_of_loc shr_1 orb shr_m loc_of_shr_record loc_rel];
      (split; [reflexivity | split; [lia | lia]]).
  - exists 0.
    replace (N - 0 * (2 * U)) with (N - 1 * U + U) by ring.
    set (A := N - 1 * U) in *.
    destruct l as [ | [ | | ] ]; unfold loc_rel in Hl;
      cbn [shr_record_of_loc shr_1 orb shr_m loc_of_shr_record loc_rel];
      (split; [reflexivity | split; [lia | lia]]).
Qed.

(** The second normalisation step of [binary_round_aux]: a rounded
    mantissa of 53 digits stays, and [2^53] (a carry) becomes [2^52] with
    the exponent raised by one. *)
Lemma shr_fexp_after_round (R e : Z) :
  2 ^ 52 <= R <= 2 ^ 53 -> -1074 <= e ->
  exists (m : positive) (j : Z),
    shr_fexp prec emax R e loc_Exact =
      ({| shr_m := Zpos m; shr_r := false; shr_s := false |}, e + j) /\
    0 <= j <= 1 /\ 2 ^ 52 <= Zpos m < 2 ^ 53 /\ Zpos m * 2 ^ j = R.
Proof.
  intros HR He.
  destruct R as [ | p | p ]; try (exfalso; lia).
  destruct (Z.eq_dec (Zpos p) (2 ^ 53)) as [Heq | Hne].
  - exists (4503599627370496%positive), 1.
    rewrite shr_fexp_54 by lia. rewrite Heq.
    repeat split; reflexivity || lia.
  - exists p, 0.
    rewrite shr_fexp_53 by lia.
    rewrite Z.add_0_r. simpl. repeat split; lia.
Qed.

(** Rounding a quotient whose integer part has 53 or 54 digits: the
    result is a normal number whose value, on the scale of the input
    exponent, is within half a unit in the last place of the exact
    value [N / U]. *)
Lemma binary_round_aux_quotient (s : bool) (q e N U : Z) (l : location) :
  2 ^ 52 <= q < 2 ^ 54 -> 0 < U -> loc_rel l (N - q * U) U ->
  -1074 <= e <= 968 ->
  exists (m : positive) (j : Z),
    bra s q e l = S754_finite s m (e + j) /\ 0 <= j <= 2 /\
    2 ^ 52 <= Zpos m < 2 ^ 53 /\
    - (2 ^ j * U) <= 2 * (Zpos m * 2 ^ j * U - N) <= 2 ^ j * U.
Proof.
  intros Hq HU Hl He.
  destruct q as [ | p | p ]; try (exfalso; lia).
  unfold binary_round_aux.
  destruct (Z_lt_le_dec (Zpos p) (2 ^ 53)) as [Hsmall | Hbig].
  - rewrite shr_fexp_53 by lia.
    rewrite shr_m_record_of_loc, loc_of_shr_record_of_loc.
    destruct (round_nearest_even_rel (Zpos p) N U l HU Hl) as [HR Hnear].
    destruct (shr_fexp_after_round (round_nearest_even (Zpos p) l) e)
      as (m & j & Heq & Hj & Hm & Hval); [lia | lia | ].
    rewrite Heq. cbn [shr_m].
    exists m, j. 
    replace (e + j <=? emax - prec) with true
      by (symmetry; apply Z.leb_le; unfold emax, prec; lia).
    assert (0 < 2 ^ j) by (apply Z.pow_pos_nonneg; lia).
    rewrite Hval.
    repeat split; try lia; nia.
  - rewrite shr_fexp_54 by lia.
    destruct (shr_1_rel p N U l HU Hl) as (q1 & Hq1 & Hpar & Hl1).
    rewrite Hq1.
    assert (HU2 : 0 < 2 * U) by lia.
    destruct (round_nearest_even_rel q1 N (2 * U) _ HU2 Hl1) as [HR Hnear].
    destruct (shr_fexp_after_round
                (round_nearest_even q1
                   (loc_of_shr_record (shr_1 (shr_record_of_loc (Zpos p) l))))
                (e + 1))
      as (m & j & Heq & Hj & Hm & Hval); [lia | lia | ].
    rewrite Heq. cbn [shr_m].
    exists m, (1 + j).
    replace (e + 1 + j <=? emax - prec) with true
      by (symmetry; apply Z.leb_le; unfold emax, prec; lia).
    replace (e + (1 + j)) with (e + 1 + j) by lia.
    rewrite Z.pow_add_r by lia. change (2 ^ 1) with 2.
    assert (0 < 2 ^ j) by (apply Z.pow_pos_nonneg; lia).
    set (R := round_nearest_even q1 _) in *.
    replace (Zpos m * (2 * 2 ^ j) * U) with (R * (2 * U)) by (rewrite <- Hval; ring).
    repeat split; try lia; nia.
Qed.

End Rounding.

Section Conversions.

Local Abbreviation bra := (binary_round_aux prec emax).

Lemma binary_round_aux_exact (s : bool) (m : positive) (e : Z) :
  2 ^ 52 <= Zpos m < 2 ^ 53 -> -1074 <= e <= 971 ->
  bra s (Zpos m) e loc_Exact = S754_finite s m e.
Proof.
  intros Hm He. unfold binary_round_aux.
  rewrite shr_fexp_53 by lia.
  cbn [shr_record_of_loc shr_m loc_of_shr_record round_nearest_even].
  rewrite shr_fexp_53 by lia.
  cbn [shr_record_of_loc shr_m].
  replace (e <=? emax - prec) with true
    by (symmetry; apply Z.leb_le; unfold emax, prec; lia).
  reflexivity.
Qed.

Lemma iter_xO_pow2 (p k : positive) :
  Zpos (Pos.iter xO p k) = Zpos p * 2 ^ Zpos k.
Proof.
  induction k using Pos.peano_ind.
  - cbn [Pos.iter]. rewrite Pos2Z.inj_xO. change (2 ^ 1) with 2. lia.
  - rewrite Pos.iter_succ, Pos2Z.inj_xO, IHk, Pos2Z.inj_succ, Z.pow_succ_r by lia.
    ring.
Qed.

(** [float64(n)] is exact for [0 < n < 2^53]: the mantissa is [n] shifted
    to 53 digits. *)
Lemma binary_normalize_small (n : Z) :
  0 < n < 2 ^ 53 ->
  exists (m : positive) (e : Z),
    binary_normalize prec emax n 0 false = S754_finite false m e /\
    -52 <= e <= 0 /\ 2 ^ 52 <= Zpos m < 2 ^ 53 /\ Zpos m = n * 2 ^ (- e).
Proof.
  intros Hn. destruct n as [ | p | p ]; try (exfalso; lia).
  unfold binary_normalize, binary_round.
  pose proof (Zdigits2_bounds p) as Hd.
  set (d := Zpos (digits2_pos p)) in *.
  assert (Hd53 : 1 <= d <= 53).
  { split; [subst d; lia | ].
    destruct (Z_le_gt_dec d 53); [assumption | exfalso].
    assert (2 ^ 53 <= 2 ^ (d - 1)) by (apply Z.pow_le_mono_r; lia). lia. }
  rewrite fexp64_normal by lia.
  unfold shl_align.
  replace (d + 0 - 53 - 0) with (d - 53) by lia.
  destruct (d - 53) as [ | k | k ] eqn:Hk; try (exfalso; lia).
  - exists p, 0. rewrite binary_round_aux_exact; [ | | lia ].
    + repeat split; try lia. replace d with 53 in Hd by lia. lia.
    + replace d with 53 in Hd by lia. simpl in Hd. lia.
  - assert (Hmz : Zpos (Pos.iter xO p k) = Zpos p * 2 ^ (53 - d)).
    { rewrite iter_xO_pow2. f_equal. f_equal. lia. }
    assert (Hpow : 2 ^ (d - 1) * 2 ^ (53 - d) = 2 ^ 52 /\ 2 ^ d * 2 ^ (53 - d) = 2 ^ 53).
    { rewrite <- !Z.pow_add_r by lia. split; f_equal; lia. }
    assert (0 < 2 ^ (53 - d)) by (apply Z.pow_pos_nonneg; lia).
    exists (Pos.iter xO p k), (d + 0 - 53).
    rewrite binary_round_aux_exact by (rewrite ?Hmz; nia || lia).
    repeat split; try lia; try nia.
    rewrite Hmz. f_equal. f_equal. lia.
Qed.

Lemma of_int_small (n : Z) :
  0 < n < 2 ^ 53 ->
  exists (m : positive) (e : Z),
    Prim2SF (Float64.of_int n) = S754_finite false m e /\
    -52 <= e <= 0 /\ 2 ^ 52 <= Zpos m < 2 ^ 53 /\ Zpos m = n * 2 ^ (- e).
Proof.
  intros Hn. unfold Float64.of_int.
  destruct (Z.eqb_spec n minInt64) as [Heq | _]; [unfold minInt64 in Heq; lia | ].
  destruct (Z.ltb_spec n 0) as [Hneg | _]; [lia | ].
  rewrite of_uint63_spec, of_Z_spec.
  rewrite Z.mod_small by (unfold wB, size; simpl; lia).
  apply binary_normalize_small; assumption.
Qed.

End Conversions.

Section Division.

Lemma SFdiv_core_binary_53 (mx my : positive) (ex ey : Z) :
  2 ^ 52 <= Zpos mx < 2 ^ 53 -> 2 ^ 52 <= Zpos my < 2 ^ 53 ->
  -1021 <= ex - ey ->
  SFdiv_core_binary prec emax (Zpos mx) ex (Zpos my) ey =
    ((Zpos mx * 2 ^ 53) / Zpos my, ex - ey - 53,
     new_location (Zpos my) ((Zpos mx * 2 ^ 53) mod Zpos my)).
Proof.
  intros Hx Hy He. unfold SFdiv_core_binary.
  change (Zdigits2 (Zpos mx)) with (Zpos (digits2_pos mx)).
  change (Zdigits2 (Zpos my)) with (Zpos (digits2_pos my)).
  rewrite (Zdigits2_unique mx 53), (Zdigits2_unique my 53) by (simpl; lia).
  replace (53 + ex - (53 + ey)) with (ex - ey) by lia.
  rewrite fexp64_normal by lia.
  rewrite Z.min_l by lia.
  replace (ex - ey - (ex - ey - 53)) with 53 by lia.
  cbv zeta iota.
  rewrite Z.shiftl_mul_pow2 by lia.
  unfold Z.div, Z.modulo.
  destruct (Z.div_eucl (Zpos mx * 2 ^ 53) (Zpos my)); reflexivity.
Qed.

(** Division of two positive normal numbers: the result is the normal
    number nearest to the exact quotient of the mantissas. *)
Lemma SF64div_normal (mx my : positive) (ex ey : Z) :
  2 ^ 52 <= Zpos mx < 2 ^ 53 -> 2 ^ 52 <= Zpos my < 2 ^ 53 ->
  -1021 <= ex - ey <= 1021 ->
  exists (m : positive) (j : Z),
    SF64div (S754_finite false mx ex) (S754_finite false my ey)
      = S754_finite false m (ex - ey - 53 + j) /\
    0 <= j <= 2 /\ 2 ^ 52 <= Zpos m < 2 ^ 53 /\
    - (2 ^ j * Zpos my)
      <= 2 * (Zpos m * 2 ^ j * Zpos my - Zpos mx * 2 ^ 53)
      <= 2 ^ j * Zpos my.
Proof.
  intros Hx Hy He. unfold SF64div, SFdiv.
  rewrite SFdiv_core_binary_53 by lia.
  set (N := Zpos mx * 2 ^ 53).
  pose proof (Z.div_mod N (Zpos my) ltac:(lia)) as Hdm.
  pose proof (Z.mod_pos_bound N (Zpos my) ltac:(lia)) as Hr.
  set (q := N / Zpos my) in *. set (r := N mod Zpos my) in *.
  assert (Hq : 2 ^ 52 <= q < 2 ^ 54).
  { assert (HN : 2 ^ 52 * 2 ^ 53 <= N < 2 ^ 53 * 2 ^ 53) by (subst N; lia).
    split.
    - destruct (Z_le_gt_dec (2 ^ 52) q); [assumption | exfalso].
      assert (q + 1 <= 2 ^ 52) by lia.
      assert ((q + 1) * Zpos my <= 2 ^ 52 * Zpos my) by (apply Z.mul_le_mono_nonneg_r; lia).
      nia.
    - destruct (Z_lt_le_dec q (2 ^ 54)); [assumption | exfalso].
      assert (2 ^ 54 * Zpos my <= q * Zpos my) by (apply Z.mul_le_mono_nonneg_r; lia).
      nia. }
  assert (Hl : loc_rel (new_location (Zpos my) r) (N - q * Zpos my) (Zpos my)).
  { replace (N - q * Zpos my) with r by lia. apply new_location_rel. assumption. }
  cbv iota beta. cbn [xorb].
  destruct (binary_round_aux_quotient false q (ex - ey - 53) N (Zpos my) _ Hq
              ltac:(lia) Hl ltac:(lia))
    as (m & j & Heq & Hj & Hm & Hb).
  exists m, j. rewrite Heq. repeat split; lia.
Qed.

(** The ceiling of a rounded quotient [m / P] of [S / M] is the ceiling
    of [S / M] as long as [S] is below [2^53]. *)
Lemma ceil_of_rounded_quotient (m P S M : Z) :
  0 < M -> 0 < P -> 2 ^ 52 <= m -> 0 < S < 2 ^ 53 ->
  - M <= 2 * (m * M - S * P) <= M ->
  - ((- m) / P) = ceil_div S M.
Proof.
  intros HM HP Hm HS Hb. unfold ceil_div.
  set (c := (S + M - 1) / M).
  pose proof (Z.div_mod (S + M - 1) M ltac:(lia)) as Hdm.
  pose proof (Z.mod_pos_bound (S + M - 1) M HM) as Hr.
  fold c in Hdm.
  assert (Hc : (c - 1) * M < S <= c * M) by nia.
  assert (Hc1 : 1 <= c) by nia.
  assert (Hup : m <= c * P).
  { destruct (Z_le_gt_dec m (c * P)); [assumption | exfalso].
    assert (c * P + 1 <= m) by lia.
    assert ((c * P + 1) * M <= m * M) by (apply Z.mul_le_mono_nonneg_r; lia).
    assert (S * P <= c * M * P) by (apply Z.mul_le_mono_nonneg_r; lia).
    nia. }
  assert (Hlo : (c - 1) * P < m).
  { destruct (Z_lt_le_dec ((c - 1) * P) m); [assumption | exfalso].
    set (k := c - 1) in *.
    assert (Hk : 1 <= k) by nia.
    assert (H1 : m * M <= k * P * M) by (apply Z.mul_le_mono_nonneg_r; lia).
    assert (H2 : (k * M + 1) * P <= S * P) by (apply Z.mul_le_mono_nonneg_r; lia).
    assert (H3 : M >= 2 * P) by nia.
    assert (H4 : k * M < 2 ^ 53) by lia.
    assert (H5 : 2 ^ 52 <= k * P) by lia.
    assert (H6 : k * (2 * P) <= k * M) by (apply Z.mul_le_mono_nonneg_l; lia).
    lia. }
  assert (Hdiv : (- m) / P = - c).
  { symmetry. apply (Z.div_unique (- m) P (- c) (c * P - m)); [left; lia | ring]. }
  rewrite Hdiv. lia.
Qed.

End Division.

(** ** Signs and comparisons of binary64 values *)

Section Signs.

Local Abbreviation bra := (binary_round_aux prec emax).

Lemma iter_pos_invariant {A : Type} (P : A -> Prop) (f : A -> A) :
  (forall x, P x -> P (f x)) ->
  forall (n : positive) (x : A), P x -> P (iter_pos f n x).
Proof.
  intros Hf. induction n as [n IH | n IH | ]; intros x Hx; simpl; auto.
Qed.

Lemma shr_1_nonneg (mrs : shr_record) : 0 <= shr_m mrs -> 0 <= shr_m (shr_1 mrs).
Proof.
  destruct mrs as [m r s]. simpl.
  destruct m as [ | [p | p | ] | p ]; simpl; lia.
Qed.

Lemma shr_fexp_nonneg (m e : Z) (l : location) :
  0 <= m -> 0 <= shr_m (fst (shr_fexp prec emax m e l)).
Proof.
  intros Hm. unfold shr_fexp, shr.
  destruct (SpecFloat.fexp prec emax (Zdigits2 m + e) - e) as [ | n | n ];
    cbn [fst]; rewrite ?shr_m_record_of_loc; try assumption.
  apply (iter_pos_invariant (fun mrs => 0 <= shr_m mrs)).
  - exact shr_1_nonneg.
  - rewrite shr_m_record_of_loc. assumption.
Qed.

Lemma round_nearest_even_nonneg (m : Z) (l : location) :
  0 <= m -> 0 <= round_nearest_even m l.
Proof.
  intros Hm. destruct l as [ | [ | | ] ]; simpl; try lia.
  destruct (Z.even m); lia.
Qed.

(** Rounding a non-negative mantissa never gives NaN and keeps the sign
    it is given. *)
Lemma binary_round_aux_sign (s : bool) (m e : Z) (l : location) :
  0 <= m -> has_sign s (bra s m e l).
Proof.
  intros Hm. unfold binary_round_aux.
  pose proof (shr_fexp_nonneg m e l Hm) as H1.
  destruct (shr_fexp prec emax m e l) as [mrs1 e1]. cbn [fst] in H1.
  pose proof (shr_fexp_nonneg _ e1 loc_Exact
                (round_nearest_even_nonneg _ (loc_of_shr_record mrs1) H1)) as H2.
  destruct (shr_fexp prec emax _ e1 loc_Exact) as [mrs2 e2]. cbn [fst] in H2.
  destruct (shr_m mrs2) as [ | p | p ]; [reflexivity | | lia].
  destruct (e2 <=? emax - prec); reflexivity.
Qed.

Lemma binary_normalize_number (m e : Z) :
  SFnumber (binary_normalize prec emax m e false).
Proof.
  unfold binary_normalize, binary_round.
  destruct m as [ | p | p ]; [exact I | | ].
  - destruct (shl_align p e _) as [mz ez].
    pose proof (binary_round_aux_sign false (Zpos mz) ez loc_Exact ltac:(lia)) as H.
    destruct (bra false (Zpos mz) ez loc_Exact); simpl in *; auto.
  - destruct (shl_align p e _) as [mz ez].
    pose proof (binary_round_aux_sign true (Zpos mz) ez loc_Exact ltac:(lia)) as H.
    destruct (bra true (Zpos mz) ez loc_Exact); simpl in *; auto.
Qed.

Lemma has_sign_false_nonneg (x : spec_float) : has_sign false x -> SFnonneg x.
Proof. destruct x as [s | s | | s m e]; simpl; intros H; subst; auto. Qed.

Lemma SFdiv_core_binary_nonneg (m1 : positive) (e1 : Z) (m2 : positive) (e2 : Z) :
  0 <= fst (fst (SFdiv_core_binary prec emax (Zpos m1) e1 (Zpos m2) e2)).
Proof.
  unfold SFdiv_core_binary.
  set (s := e1 - e2 - _).
  set (m' := match s with Z0 => Zpos m1 | Zpos _ => Z.shiftl (Zpos m1) s | Zneg _ => 0 end).
  assert (Hm' : 0 <= m').
  { subst m'. destruct s; try lia. apply Z.shiftl_nonneg. lia. }
  pose proof (Z.div_pos m' (Zpos m2) Hm' ltac:(lia)) as Hq.
  unfold Z.div in Hq.
  destruct (Z.div_eucl m' (Zpos m2)) as [q r]. exact Hq.
Qed.

(** A positive finite number divided by a positive finite number. *)
Lemma SF64div_pos_pos (mx : positive) (ex : Z) (my : positive) (ey : Z) :
  has_sign false (SF64div (S754_finite false mx ex) (S754_finite false my ey)).
Proof.
  unfold SF64div, SFdiv.
  pose proof (SFdiv_core_binary_nonneg mx ex my ey) as Hq.
  destruct (SFdiv_core_binary prec emax (Zpos mx) ex (Zpos my) ey) as [[q e] l].
  cbn [fst] in Hq. apply binary_round_aux_sign. assumption.
Qed.

(** A non-negative number divided by a positive finite number. *)
Lemma SF64div_nonneg_pos (x : spec_float) (my : positive) (ey : Z) :
  SFnonneg x -> SFnonneg (SF64div x (S754_finite false my ey)).
Proof.
  destruct x as [s | [ | ] | | [ | ] mx ex]; simpl; intros H; try contradiction; auto.
  apply has_sign_false_nonneg. apply SF64div_pos_pos.
Qed.

(** A non-negative number divided by a zero, a number or an infinity of
    positive sign is non-negative or NaN. *)
Lemma SF64div_nonneg_nonneg (x y : spec_float) :
  SFnonneg x -> has_sign false y ->
  SFnonneg (SF64div x y) \/ SF64div x y = S754_nan.
Proof.
  destruct x as [s | [ | ] | | [ | ] mx ex]; simpl; intros Hx; try contradiction;
    destruct y as [sy | sy | | sy my ey]; simpl; intros Hy; try contradiction;
    subst; auto.
  left. apply has_sign_false_nonneg. apply (SF64div_pos_pos mx ex my ey).
Qed.

Lemma SF64mul_nonneg_pos (x : spec_float) (my : positive) (ey : Z) :
  SFnonneg x -> SFnonneg (SF64mul x (S754_finite false my ey)).
Proof.
  destruct x as [s | [ | ] | | [ | ] mx ex]; simpl; intros H; try contradiction; auto.
  apply has_sign_false_nonneg. apply binary_round_aux_sign. lia.
Qed.

Lemma SFcompare_antisym (x y : spec_float) :
  SFcompare y x = option_map CompOpp (SFcompare x y).
Proof.
  destruct x as [sx | sx | | sx mx ex], y as [sy | sy | | sy my ey]; simpl;
    try reflexivity;
    try (destruct sx; reflexivity); try (destruct sy; reflexivity);
    try (destruct sx, sy; reflexivity).
  pose proof (Pos.compare_cont_antisym mx my Eq) as Hc. simpl in Hc.
  destruct sx, sy; try reflexivity; f_equal;
    rewrite (Z.compare_antisym ex ey);
    destruct (ex ?= ey); simpl; try reflexivity;
    rewrite <- Hc; destruct (Pos.compare_cont Eq mx my); reflexivity.
Qed.

Lemma SFcompare_number (x y : spec_float) :
  SFnumber x -> SFnumber y -> SFcompare x y <> None.
Proof.
  destruct x as [sx | sx | | sx mx ex], y as [sy | sy | | sy my ey]; simpl;
    intros Hx Hy; try contradiction; discriminate.
Qed.

Lemma SFltb_false_SFleb (x y : spec_float) :
  SFnumber x -> SFnumber y -> SFltb x y = negb (SFleb y x).
Proof.
  intros Hx Hy. unfold SFltb, SFleb. rewrite (SFcompare_antisym x y).
  pose proof (SFcompare_number x y Hx Hy) as Hn.
  destruct (SFcompare x y) as [[ | | ] | ]; simpl; try reflexivity.
  contradiction.
Qed.

End Signs.

(** ** Part count *)

Lemma NeedsSplit_iff (fileSize : Z) :
  NeedsSplit fileSize = true <-> MaxUploadSize < fileSize.
Proof. unfold NeedsSplit. apply Z.ltb_lt. Qed.

Example NeedsSplit_boundary :
  NeedsSplit MaxUploadSize = false /\ NeedsSplit (MaxUploadSize + 1) = true.
Proof. split; reflexivity. Qed.

Lemma Prim2SF_MaxUploadSize :
  Prim2SF (Float64.of_int MaxUploadSize) = S754_finite false 8356288371097600 (-22).
Proof. vm_compute. reflexivity. Qed.

Lemma to_int_of_int_small (n : Z) :
  0 < n < 2 ^ 53 -> Float64.to_int (Float64.of_int n) = n.
Proof.
  intros Hn. unfold Float64.to_int.
  destruct (of_int_small n Hn) as (m & e & Heq & He & Hm & Hval).
  rewrite Heq. unfold Float64.trunc, cond_Zopp.
  assert (Hv : (if 0 <=? e then Zpos m * 2 ^ e else Zpos m / 2 ^ (- e)) = n).
  { destruct (Z.leb_spec 0 e).
    - replace e with 0 in * by lia. simpl in Hval. lia.
    - rewrite Hval. apply Z.div_mul. apply Z.pow_nonzero; lia. }
  rewrite Hv.
  replace ((minInt64 <=? n) && (n <=? maxInt64)) with true; [reflexivity | ].
  symmetry. apply andb_true_iff. unfold minInt64, maxInt64.
  split; [apply Z.leb_le | apply Z.leb_le]; lia.
Qed.

(** C5 (amended). For every file size [0 < S < 2^53], [CalculateNumParts S]
    is the ceiling of [S / MaxUploadSize]; the conversion of [S] to
    [float64] is exact on that range and the rounded quotient has the same
    ceiling as the exact one. *)
Theorem CalculateNumParts_ceil (S : Z) :
  0 < S < 2 ^ 53 -> CalculateNumParts S = ceil_div S MaxUploadSize.
Proof.
  intros HS. unfold CalculateNumParts.
  destruct (of_int_small S HS) as (mx & ex & Hx & Hex & Hmx & Hvx).
  destruct (SF64div_normal mx 8356288371097600 ex (-22))
    as (m & j & Hdiv & Hj & Hm & Hb); [lia | lia | lia | ].
  assert (Hq : Prim2SF (Float64.of_int S / Float64.of_int MaxUploadSize)%float
               = S754_finite false m (ex - -22 - 53 + j)).
  { rewrite FloatAxioms.div_spec, Hx, Prim2SF_MaxUploadSize. exact Hdiv. }
  set (e := ex - -22 - 53 + j) in *.
  assert (He : e < 0) by (subst e; lia).
  assert (Hceil : - ((- Zpos m) / 2 ^ (- e)) = ceil_div S MaxUploadSize).
  { apply ceil_of_rounded_quotient;
      [ reflexivity | apply Z.pow_pos_nonneg; lia | lia | lia | ].
    (* the bound of [SF64div_normal], divided by [2^(j+22)] *)
    set (K := 2 ^ (j + 22)).
      assert (HK : 0 < K) by (apply Z.pow_pos_nonneg; lia).
      assert (H1 : 2 ^ j * 8356288371097600 = K * MaxUploadSize).
      { subst K. rewrite Z.pow_add_r by lia. unfold MaxUploadSize. lia. }
      assert (H2 : Zpos mx * 2 ^ 53 = K * (S * 2 ^ (- e))).
      { assert (Hp : 2 ^ (- ex) * 2 ^ 53 = K * 2 ^ (- e)).
        { subst K e. rewrite <- !Z.pow_add_r by lia. f_equal. lia. }
        rewrite Hvx.
        replace (S * 2 ^ (- ex) * 2 ^ 53) with (S * (2 ^ (- ex) * 2 ^ 53)) by ring.
        rewrite Hp. ring. }
      assert (H3 : Zpos m * 2 ^ j * 8356288371097600 = K * (Zpos m * MaxUploadSize)).
      { replace (Zpos m * 2 ^ j * 8356288371097600)
          with (Zpos m * (2 ^ j * 8356288371097600)) by ring.
        rewrite H1. ring. }
      change (Zpos 8356288371097600) with 8356288371097600 in Hb.
      rewrite H3, H2, H1 in Hb. nia. }
  assert (Hc : 0 < ceil_div S MaxUploadSize < 2 ^ 53).
  { unfold ceil_div, MaxUploadSize. split.
    - apply Z.div_str_pos. lia.
    - apply Z.div_lt_upper_bound; lia. }
  unfold Float64.Ceil. rewrite Hq.
  replace (0 <=? e) with false by (symmetry; apply Z.leb_gt; lia).
  cbn [negb cond_Zopp andb]. rewrite andb_false_r.
  rewrite Hceil. apply to_int_of_int_small. exact Hc.
Qed.

(** The two boundary values of the specification, from the theorem. *)
Lemma CalculateNumParts_ceil_witness :
  CalculateNumParts MaxUploadSize = 1 /\ CalculateNumParts (MaxUploadSize + 1) = 2.
Proof.
  split.
  - rewrite (CalculateNumParts_ceil MaxUploadSize); [reflexivity | ].
    unfold MaxUploadSize; lia.
  - rewrite (CalculateNumParts_ceil (MaxUploadSize + 1)); [reflexivity | ].
    unfold MaxUploadSize; lia.
Defined.

(** C5 (as stated) fails above [2^53]: the file size
    [4521019 * MaxUploadSize + 1] is not a [float64]; the conversion rounds
    it to [4521019 * MaxUploadSize], the quotient is exactly [4521019], and
    one part too few is computed. *)
Lemma CalculateNumParts_above_2_53 :
  0 < 9007200835993601
  /\ 9007200835993601 = 4521019 * MaxUploadSize + 1
  /\ CalculateNumParts 9007200835993601 = 4521019
  /\ ceil_div 9007200835993601 MaxUploadSize = 4521020.
Proof. vm_compute. repeat split. Qed.

(** ** URL validation *)

Lemma domain_loop_true (s : string) (domains : list string) :
  domain_loop s domains true = true.
Proof.
  induction domains as [ | domain rest IH]; simpl; [reflexivity | ].
  destruct (Contains s domain); [reflexivity | exact IH].
Qed.

(** C10. [IsValidURL] is true exactly for the strings that begin with
    "http://" or "https://" once trimmed; whatever the list of domains is,
    the result is the same, so the list of supported domains never makes
    it reject an http(s) URL. *)
Theorem IsValidURL_domains_irrelevant (lib : GoLib) (s : string) :
  IsValidURL lib s
    = HasPrefix (TrimSpace lib s) "http://" || HasPrefix (TrimSpace lib s) "https://"
  /\ forall domains : list string, IsValidURL_with lib domains s = IsValidURL lib s.
Proof.
  assert (H : forall domains,
             IsValidURL_with lib domains s
             = HasPrefix (TrimSpace lib s) "http://"
               || HasPrefix (TrimSpace lib s) "https://").
  { intros domains. unfold IsValidURL_with.
    rewrite domain_loop_true.
    destruct (HasPrefix (TrimSpace lib s) "http://"),
             (HasPrefix (TrimSpace lib s) "https://"); reflexivity. }
  split.
  - apply H.
  - intros domains. unfold IsValidURL. rewrite !H. reflexivity.
Qed.

Example IsValidURL_unlisted_domain :
  IsValidURL Scripted.lib "  https://example.org/clip.mp4 " = true
  /\ IsValidURL Scripted.lib "ftp://youtube.com/watch" = false
  /\ IsValidURL Scripted.lib "see https://youtu.be/x" = false.
Proof. vm_compute. repeat split. Qed.

(** ** The partition stage: the duration guard *)

Section Stages.

Context {W : Type}.
Variable lib : GoLib.
Variable os : OS W.

(** C7. When ffprobe reports a duration that is zero or negative,
    [SplitVideo] returns the error "invalid video duration"; its only
    effect is the ffprobe call: ffmpeg is not started, and no progress
    event (whose percent is a quotient by the duration) is computed. *)
Theorem SplitVideo_nonpositive_duration
    (filePath : string) (has_cb : bool) (w w1 : W) (j : ProbeJSON) :
  os_ffprobe_json os (probe_args filePath) w = (ProbeParsed j, w1) ->
  (format_duration j <=? 0)%float = true ->
  SplitVideo lib os filePath has_cb w
    = (Err "invalid video duration", w1, [EExec "ffprobe" (probe_args filePath)])
  /\ (forall args, ~ In (EExec "ffmpeg" args)
                       (snd (SplitVideo lib os filePath has_cb w)))
  /\ (forall p, ~ In (ECallback p) (snd (SplitVideo lib os filePath has_cb w))).
Proof.
  intros Hprobe Hdur.
  assert (Hrun : SplitVideo lib os filePath has_cb w
                 = (Err "invalid video duration", w1,
                    [EExec "ffprobe" (probe_args filePath)])).
  { unfold SplitVideo, bind, GetMediaInfo.
    rewrite Hprobe.
    destruct (video_dimensions (streams j)) as [width height].
    cbn [MediaInfo.Duration]. rewrite Hdur. reflexivity. }
  split; [exact Hrun | ]. rewrite Hrun. cbn [snd].
  split; [intros args | intros p]; intros [Hin | []]; discriminate Hin.
Qed.

End Stages.

Lemma SplitVideo_nonpositive_duration_witness :
  SplitVideo Scripted.lib (Scripted.os zero_duration_script) "/tmp/sushe/1/v.mp4" true []
    = (Err "invalid video duration", [],
       [EExec "ffprobe" (probe_args "/tmp/sushe/1/v.mp4")])
  /\ (forall args, ~ In (EExec "ffmpeg" args)
        (snd (SplitVideo Scripted.lib (Scripted.os zero_duration_script)
                "/tmp/sushe/1/v.mp4" true [])))
  /\ (forall p, ~ In (ECallback p)
        (snd (SplitVideo Scripted.lib (Scripted.os zero_duration_script)
                "/tmp/sushe/1/v.mp4" true []))).
Proof.
  apply (SplitVideo_nonpositive_duration Scripted.lib
           (Scripted.os zero_duration_script) "/tmp/sushe/1/v.mp4" true [] []
           {| format_duration := 0; format_size := 3000000000; format_bit_rate := 0;
              streams := [ {| codec_type := "video"; stream_width := 1280;
                              stream_height := 720 |} ] |}).
  - reflexivity.
  - reflexivity.
Defined.

(** ** The partition stage: the manifest *)

Section Manifest.

Context {W : Type}.
Variable lib : GoLib.
Variable os : OS W.

Lemma collect_parts_length (files : list string) :
  forall (i : Z) (w : W),
    (List.length (fst (fst (collect_parts os i files w))) <= List.length files)%nat.
Proof.
  induction files as [ | f rest IH]; intros i w; simpl; [lia | ].
  unfold bind, Stat. destruct (os_Stat os f w) as [[size | ] w1].
  - specialize (IH (i + 1) w1).
    destruct (collect_parts os (i + 1) rest w1) as [[parts w2] l2].
    simpl in *. lia.
  - specialize (IH (i + 1) w1).
    destruct (collect_parts os (i + 1) rest w1) as [[parts w2] l2].
    simpl in *. lia.
Qed.

(** The ordinal of a part is its position in the list of the glob plus
    one, counted from [i]. *)
Lemma collect_parts_index (files : list string) :
  forall (i : Z) (w : W) (k : nat) (p : PartInfo.t),
    nth_error (fst (fst (collect_parts os i files w))) k = Some p ->
    exists j : nat,
      (k <= j)%nat /\ nth_error files j = Some (PartInfo.FilePath p)
      /\ PartInfo.PartNum p = i + Z.of_nat j + 1.
Proof.
  induction files as [ | f rest IH]; intros i w k p; simpl.
  - destruct k; discriminate.
  - unfold bind, Stat. destruct (os_Stat os f w) as [[size | ] w1].
    + specialize (IH (i + 1) w1).
      destruct (collect_parts os (i + 1) rest w1) as [[parts w2] l2].
      simpl in *. destruct k as [ | k]; simpl.
      * intros [= <-]. exists 0%nat. simpl. repeat split; lia.
      * intros Hk. destruct (IH k p Hk) as (j & Hj & Hf & Hn).
        exists (S j). simpl. repeat split; try lia; assumption.
    + specialize (IH (i + 1) w1).
      destruct (collect_parts os (i + 1) rest w1) as [[parts w2] l2].
      simpl in *. intros Hk. destruct (IH k p Hk) as (j & Hj & Hf & Hn).
      exists (S j). simpl. repeat split; try lia; assumption.
Qed.

(** When no file was skipped, the ordinal is the position in the result
    plus one. *)
Lemma collect_parts_full (files : list string) :
  forall (i : Z) (w : W) (k : nat) (p : PartInfo.t),
    List.length (fst (fst (collect_parts os i files w))) = List.length files ->
    nth_error (fst (fst (collect_parts os i files w))) k = Some p ->
    PartInfo.PartNum p = i + Z.of_nat k + 1.
Proof.
  induction files as [ | f rest IH]; intros i w k p; simpl.
  - destruct k; discriminate.
  - unfold bind, Stat. destruct (os_Stat os f w) as [[size | ] w1].
    + specialize (IH (i + 1) w1).
      destruct (collect_parts os (i + 1) rest w1) as [[parts w2] l2].
      simpl in *. intros Hlen. destruct k as [ | k]; simpl.
      * intros [= <-]. simpl. lia.
      * intros Hk. rewrite (IH k p) by (assumption || lia). lia.
    + pose proof (collect_parts_length rest (i + 1) w1) as Hle.
      destruct (collect_parts os (i + 1) rest w1) as [[parts w2] l2].
      simpl in *. intros Hlen. lia.
Qed.

(** The parts keep the order of the list of the glob. *)
Lemma collect_parts_sorted (files : list string) :
  StronglySorted lex_lt files ->
  forall (i : Z) (w : W),
    StronglySorted part_lt (fst (fst (collect_parts os i files w))).
Proof.
  induction 1 as [ | f rest Hsorted IH Hall]; intros i w; simpl.
  - constructor.
  - unfold bind, Stat. destruct (os_Stat os f w) as [[size | ] w1].
    + specialize (IH (i + 1) w1).
      pose proof (collect_parts_index rest (i + 1) w1) as Hidx.
      destruct (collect_parts os (i + 1) rest w1) as [[parts w2] l2].
      simpl in *. constructor; [exact IH | ].
      apply Forall_forall. intros q Hq.
      apply In_nth_error in Hq. destruct Hq as [k Hk].
      destruct (Hidx k q Hk) as (j & _ & Hf & Hn).
      split; simpl.
      * rewrite Forall_forall in Hall. apply Hall.
        apply nth_error_In with (n := j). exact Hf.
      * lia.
    + specialize (IH (i + 1) w1).
      destruct (collect_parts os (i + 1) rest w1) as [[parts w2] l2].
      exact IH.
Qed.

(** What a successful [SplitVideo] returns is what the loop collects from
    a list that the glob returned. *)
Lemma SplitVideo_Ok_inv (filePath : string) (has_cb : bool) (w w' : W)
    (parts : list PartInfo.t) (log : list Effect) :
  SplitVideo lib os filePath has_cb w = (Ok parts, w', log) ->
  exists (pattern : string) (files : list string) (w1 : W),
    In (EGlob pattern (Some files)) log
    /\ parts <> []
    /\ parts = fst (fst (collect_parts os 0 files w1)).
Proof.
  unfold SplitVideo, bind.
  destruct (GetMediaInfo os filePath w) as [[[mi | e] w1] l1];
    [ | unfold ret; intros [= ]; discriminate ].
  destruct (MediaInfo.Duration mi <=? 0)%float;
    [ unfold ret; intros [= ]; discriminate | ].
  destruct (start_ffmpeg os _ w1) as [[[run | e] w2] l2];
    [ | unfold ret; intros [= ]; discriminate ].
  match goal with
  | |- context [(if has_cb then ?a else ?b) w2] =>
      destruct ((if has_cb then a else b) w2) as [[u w3] l3]
  end.
  destruct (ff_wait_err run); [ unfold ret; intros [= ]; discriminate | ].
  unfold Glob.
  match goal with
  | |- context [os_Glob os ?pat w3] =>
      set (pattern := pat); destruct (os_Glob os pattern w3) as [[files | ] w4]
  end; [ | unfold ret; intros [= ]; discriminate ].
  destruct files as [ | f rest]; [ unfold ret; intros [= ]; discriminate | ].
  destruct (collect_parts os 0 (f :: rest) w4) as [[ps w5] l5] eqn:Hcollect.
  destruct ps as [ | p ps]; unfold ret; intros [= <- <- <-].
  exists pattern, (f :: rest), w4. split; [ | split].
  - do 3 (apply in_or_app; right). left. reflexivity.
  - discriminate.
  - rewrite Hcollect. reflexivity.
Qed.

(** C9 (amended). In the manifest of a successful [SplitVideo] every part
    carries the position of its file in the list of the glob, counted from
    one; the parts are in the order of that list, so the file names and
    the ordinals grow along the manifest when the glob lists the files in
    lexical order, and the ordinal of the part at position [k] is at least
    [k], and exactly [k] when no file of the glob was skipped. *)
Theorem SplitVideo_manifest (filePath : string) (has_cb : bool) (w w' : W)
    (parts : list PartInfo.t) (log : list Effect) :
  SplitVideo lib os filePath has_cb w = (Ok parts, w', log) ->
  exists (pattern : string) (files : list string),
    In (EGlob pattern (Some files)) log
    /\ parts <> []
    /\ (forall (k : nat) (p : PartInfo.t),
          nth_error parts k = Some p ->
          exists j : nat,
            (k <= j)%nat /\ nth_error files j = Some (PartInfo.FilePath p)
            /\ PartInfo.PartNum p = Z.of_nat j + 1)
    /\ (StronglySorted lex_lt files -> StronglySorted part_lt parts)
    /\ (List.length parts = List.length files ->
        forall (k : nat) (p : PartInfo.t),
          nth_error parts k = Some p -> PartInfo.PartNum p = Z.of_nat k + 1).
Proof.
  intros Hrun.
  destruct (SplitVideo_Ok_inv _ _ _ _ _ _ Hrun)
    as (pattern & files & w1 & Hin & Hne & ->).
  exists pattern, files. split; [exact Hin | ]. split; [exact Hne | ].
  split; [ | split].
  - intros k p Hk.
    destruct (collect_parts_index files 0 w1 k p Hk) as (j & Hj & Hf & Hn).
    exists j. repeat split; assumption || lia.
  - intros Hsorted. apply collect_parts_sorted. exact Hsorted.
  - intros Hlen k p Hk.
    rewrite (collect_parts_full files 0 w1 k p Hlen Hk). lia.
Qed.

End Manifest.

Lemma three_parts_sorted : StronglySorted lex_lt three_parts.
Proof.
  unfold three_parts. repeat constructor.
Qed.

Lemma SplitVideo_manifest_witness :
  exists parts : list PartInfo.t,
    fst (fst (SplitVideo Scripted.lib (Scripted.os (split_script stat_all))
                "/tmp/sushe/1/v.mp4" true [])) = Ok parts
    /\ StronglySorted part_lt parts
    /\ List.map PartInfo.PartNum parts = [1; 2; 3].
Proof.
  set (parts := [ PartInfo.mk "/tmp/sushe/1/v_part000.mp4" 1 1789569706;
                  PartInfo.mk "/tmp/sushe/1/v_part001.mp4" 2 1789569706;
                  PartInfo.mk "/tmp/sushe/1/v_part002.mp4" 3 1789569706 ]).
  destruct (SplitVideo_manifest Scripted.lib (Scripted.os (split_script stat_all))
              "/tmp/sushe/1/v.mp4" true [] [] parts
              (snd (SplitVideo Scripted.lib (Scripted.os (split_script stat_all))
                      "/tmp/sushe/1/v.mp4" true [])))
    as (pattern & files & Hin & _ & _ & Hsorted & _).
  - vm_compute. reflexivity.
  - assert (Hfiles : files = three_parts).
    { vm_compute in Hin.
      repeat (destruct Hin as [Hin | Hin]; [try discriminate Hin | ]);
        [ injection Hin as _ <-; reflexivity | contradiction ]. }
    exists parts. split; [vm_compute; reflexivity | ]. split.
    + apply Hsorted. rewrite Hfiles. exact three_parts_sorted.
    + reflexivity.
Defined.

(** C9 (as stated) fails when a file of the glob cannot be stat'ed: the
    file is skipped and the next part keeps its ordinal, so the second
    element of the manifest has ordinal 3. *)
Lemma SplitVideo_manifest_gap :
  StronglySorted lex_lt three_parts
  /\ fst (fst (SplitVideo Scripted.lib (Scripted.os (split_script stat_but_second))
                 "/tmp/sushe/1/v.mp4" true []))
     = Ok [ PartInfo.mk "/tmp/sushe/1/v_part000.mp4" 1 1789569706;
            PartInfo.mk "/tmp/sushe/1/v_part002.mp4" 3 1789569706 ]
  /\ option_map PartInfo.PartNum
       (nth_error [ PartInfo.mk "/tmp/sushe/1/v_part000.mp4" 1 1789569706;
                    PartInfo.mk "/tmp/sushe/1/v_part002.mp4" 3 1789569706 ] 1)
     <> Some 2.
Proof.
  split; [exact three_parts_sorted | ]. split.
  - vm_compute. reflexivity.
  - simpl. discriminate.
Qed.

(** ** The acquisition stage: cleanup on failure *)

Section Cleanup.

Context {W : Type}.
Variable lib : GoLib.
Variable os : OS W.
Variable workDir : string.

Lemma ends_with_app (e : Effect) (l1 l2 : list Effect) :
  ends_with e l2 -> ends_with e (l1 ++ l2).
Proof.
  intros [pre ->]. exists (l1 ++ pre)%list. rewrite app_assoc. reflexivity.
Qed.

Lemma cleaned_bind {A B : Type} (m : M A) (k : A -> M (result B)) (w : W) :
  (forall a w1, cleaned os workDir (k a w1)) ->
  cleaned os workDir (bind m k w).
Proof.
  intros Hk. unfold bind.
  destruct (m w) as [[a w1] l1]. specialize (Hk a w1).
  destruct (k a w1) as [[[b | e] w2] l2]; simpl in *; [exact I | ].
  destruct Hk as [Hend Hw]. split; [apply ends_with_app; exact Hend | exact Hw].
Qed.

Lemma cleaned_bind_value {A B : Type} (m : M A) (k : A -> M (result B))
    (w w1 : W) (a : A) (l1 : list Effect) :
  m w = (a, w1, l1) -> cleaned os workDir (k a w1) ->
  cleaned os workDir (bind m k w).
Proof.
  intros Hm Hk. unfold bind. rewrite Hm.
  destruct (k a w1) as [[[b | e] w2] l2]; simpl in *; [exact I | ].
  destruct Hk as [Hend Hw]. split; [apply ends_with_app; exact Hend | exact Hw].
Qed.

(** A failure of the first computation is passed on unchanged. *)
Lemma cleaned_bind_result {A B : Type} (m : M (result A))
    (k : result A -> M (result B)) (w : W) :
  cleaned os workDir (m w) ->
  (forall a w1, cleaned os workDir (k (Ok a) w1)) ->
  (forall e w1, k (Err e) w1 = (Err e, w1, [])) ->
  cleaned os workDir (bind m k w).
Proof.
  intros Hm Hok Herr. unfold bind.
  destruct (m w) as [[[a | e] w1] l1].
  - specialize (Hok a w1).
    destruct (k (Ok a) w1) as [[[b | e] w2] l2]; simpl in *; [exact I | ].
    destruct Hok as [Hend Hw]. split; [apply ends_with_app; exact Hend | exact Hw].
  - rewrite Herr. simpl in *. rewrite app_nil_r. exact Hm.
Qed.

Lemma cleaned_RemoveAll {A : Type} (msg : string) (w : W) :
  cleaned (A := A) os workDir (bind (RemoveAll os workDir) (fun _ => ret (Err msg)) w).
Proof.
  unfold bind, RemoveAll, ret. simpl. split.
  - exists []. reflexivity.
  - exists w. reflexivity.
Qed.

Lemma cleaned_finish_download (filePath : string) (has_cb : bool) (w : W) :
  cleaned os workDir (finish_download lib os workDir filePath has_cb w).
Proof.
  unfold finish_download.
  apply cleaned_bind. intros [size | ] w1; [ | apply cleaned_RemoveAll].
  apply cleaned_bind. intros probed w2.
  apply cleaned_bind_result.
  - destruct (negb (IsH264Compatible lib _)); [ | exact I].
    apply cleaned_bind. intros _ w3.
    apply cleaned_bind. intros [newPath | e] w4; [ | apply cleaned_RemoveAll].
    apply cleaned_bind. intros _ w5.
    apply cleaned_bind. intros [newSize | ] w6; [exact I | apply cleaned_RemoveAll].
  - intros [[path name] size'] w3.
    apply cleaned_bind. intros mediaInfo w4.
    destruct mediaInfo as [mi | e]; exact I.
  - intros e w3. reflexivity.
Qed.

(** C8. Whenever [DownloadWithProgress] fails after [os.MkdirAll] has
    created the scratch directory of the job, the last effect before the
    error is returned is [os.RemoveAll] of that directory: this holds for a
    failure of yt-dlp (start, exit status, timeout), for an empty or failed
    glob, for a failed stat, and for a failed re-encoding. *)
Theorem DownloadWithProgress_cleanup
    (d : Downloader) (url : string) (has_cb : bool)
    (w w1 w' : W) (unixNano : Z) (e : string) (log : list Effect) :
  os_Now os w = (unixNano, w1) ->
  workDir = workDir_of d unixNano ->
  fst (os_MkdirAll os workDir w1) = true ->
  DownloadWithProgress lib os d url has_cb w = (Err e, w', log) ->
  ends_with (ERemoveAll workDir) log
  /\ exists w0 : W, w' = os_RemoveAll os workDir w0.
Proof.
  intros Hnow HworkDir Hmkdir Hrun.
  assert (Hcleaned : cleaned os workDir (DownloadWithProgress lib os d url has_cb w)).
  { unfold DownloadWithProgress.
    apply (cleaned_bind_value _ _ w w1 unixNano [ENow unixNano]);
      [unfold Now; rewrite Hnow; reflexivity | ].
    rewrite <- HworkDir.
    destruct (os_MkdirAll os workDir w1) as [created w2] eqn:Hmk.
    simpl in Hmkdir. subst created.
    apply (cleaned_bind_value _ _ w1 w2 true [EMkdirAll workDir true]);
      [unfold MkdirAll; rewrite Hmk; reflexivity | ].
    cbn [negb].
    apply cleaned_bind. intros [u | err] w3; [ | apply cleaned_RemoveAll].
    apply cleaned_bind. intros [[ | filePath rest] | ] w4;
      try apply cleaned_RemoveAll.
    apply cleaned_finish_download. }
  rewrite Hrun in Hcleaned. exact Hcleaned.
Qed.

End Cleanup.

Lemma DownloadWithProgress_cleanup_witness :
  ends_with (ERemoveAll "/tmp/sushe/1700000000000000000")
    [ ENow 1700000000000000000;
      EMkdirAll "/tmp/sushe/1700000000000000000" true;
      EExec "yt-dlp" (ytdlp_args "/tmp/sushe/1700000000000000000" "https://youtu.be/x");
      ERemoveAll "/tmp/sushe/1700000000000000000" ]
  /\ exists w0 : Scripted.World,
       [] = os_RemoveAll (Scripted.os failing_download_script)
              "/tmp/sushe/1700000000000000000" w0.
Proof.
  apply (DownloadWithProgress_cleanup Scripted.lib (Scripted.os failing_download_script)
           "/tmp/sushe/1700000000000000000" sushe "https://youtu.be/x" true
           [] [] [] 1700000000000000000 "download failed").
  - reflexivity.
  - vm_compute. reflexivity.
  - reflexivity.
  - vm_compute. reflexivity.
Defined.

(** ** The scratch directory of a job *)

Lemma Z_to_int_nonnil (z : Z) : Z.to_int z <> Decimal.Pos Decimal.Nil /\ Z.to_int z <> Decimal.Neg Decimal.Nil.
Proof.
  destruct z as [ | p | p ]; simpl; split; try discriminate;
    intros [= H]; exact (DecimalPos.Unsigned.to_uint_nonnil p H).
Qed.

Lemma Sprintf_d_injective (a b : Z) : Sprintf_d a = Sprintf_d b -> a = b.
Proof.
  unfold Sprintf_d. intros H.
  destruct (Z_to_int_nonnil a) as [Ha1 Ha2], (Z_to_int_nonnil b) as [Hb1 Hb2].
  pose proof (NilZero.isi (Z.to_int a) Ha1 Ha2) as Ia.
  pose proof (NilZero.isi (Z.to_int b) Hb1 Hb2) as Ib.
  rewrite H in Ia. rewrite Ia in Ib. injection Ib as Hab.
  rewrite <- (DecimalZ.of_to a), <- (DecimalZ.of_to b), Hab. reflexivity.
Qed.

Lemma append_injective_r (s a b : string) : (s ++ a = s ++ b)%string -> a = b.
Proof.
  induction s as [ | c s IH]; simpl; intros H; [exact H | ].
  injection H as H. apply IH. exact H.
Qed.

(** Two jobs that read different values on the clock get different
    scratch directories. *)
Lemma workDir_of_injective (d : Downloader) (t1 t2 : Z) :
  workDir_of d t1 = workDir_of d t2 -> t1 = t2.
Proof.
  unfold workDir_of, filepath_Join. intros H.
  apply append_injective_r in H. apply append_injective_r in H.
  apply Sprintf_d_injective. exact H.
Qed.

(** C2 at the failing input: two jobs that read the same value of
    [time.Now().UnixNano()], the second starting while the result of the
    first is still in use.  [os.MkdirAll] accepts the directory that
    exists already, both acquisitions succeed, and both results lie in
    the same scratch directory. *)
Theorem two_jobs_share_scratch_directory :
  let os := Scripted.os download_script in
  let '(r1, w1, log1) :=
    DownloadWithProgress Scripted.lib os sushe "https://youtu.be/a" true [] in
  let '(r2, w2, log2) :=
    DownloadWithProgress Scripted.lib os sushe "https://youtu.be/b" true w1 in
  exists res1 res2 : DownloadResult.t,
    r1 = Ok res1 /\ r2 = Ok res2
    /\ In (EMkdirAll "/tmp/sushe/1700000000000000000" true) log1
    /\ In (EMkdirAll "/tmp/sushe/1700000000000000000" true) log2
    /\ filepath_Dir Scripted.lib (DownloadResult.FilePath res1)
       = "/tmp/sushe/1700000000000000000"
    /\ filepath_Dir Scripted.lib (DownloadResult.FilePath res2)
       = "/tmp/sushe/1700000000000000000"
    /\ w1 = ["/tmp/sushe/1700000000000000000"]
    /\ w2 = ["/tmp/sushe/1700000000000000000"].
Proof.
  vm_compute.
  eexists. eexists.
  split; [reflexivity | ]. split; [reflexivity | ].
  split; [right; left; reflexivity | ]. split; [right; left; reflexivity | ].
  repeat split; reflexivity.
Qed.

(** ** Codec compatibility *)

Section Codec.

Variable lib : GoLib.
Hypothesis facts : unicode_facts lib.

Lemma any_byte_append (f : ascii -> bool) (a b : string) :
  any_byte f (a ++ b)%string = any_byte f a || any_byte f b.
Proof.
  induction a as [ | c a IH]; simpl; [reflexivity | ].
  rewrite IH. apply orb_assoc.
Qed.

Lemma any_byte_concat (f : ascii -> bool) (x : string) (l : list string) :
  In x l -> any_byte f x = true -> any_byte f (String.concat "" l) = true.
Proof.
  intros Hin Hx. induction l as [ | y l IH]; [contradiction | ].
  destruct l as [ | z l].
  - destruct Hin as [-> | []]. exact Hx.
  - change (String.concat "" (y :: z :: l))
      with (y ++ "" ++ String.concat "" (z :: l))%string.
    rewrite !any_byte_append. destruct Hin as [-> | Hin].
    + rewrite Hx. reflexivity.
    + rewrite (IH Hin). apply orb_true_r.
Qed.

(** The lower case of a string with a byte of 128 or more has a byte that
    none of the three identifiers has. *)
Lemma Map_ToLower_foreign (s : string) :
  all_bytes is_ascii_byte s = false ->
  any_byte foreign_byte (Map_ToLower lib s) = true.
Proof.
  intros Hs. destruct (runes_non_ascii lib facts s Hs) as (r & Hin & Hr).
  unfold Map_ToLower.
  apply (any_byte_concat _ (utf8_encode lib (unicode_ToLower lib r))).
  - apply (in_map (fun r => utf8_encode lib (unicode_ToLower lib r))). exact Hin.
  - destruct (lower_non_ascii lib facts r Hr) as [Hhigh | [Hi | Hk]].
    + destruct (encode_non_ascii lib facts _ Hhigh) as (c & rest & -> & Hc).
      simpl. unfold foreign_byte. rewrite Hc. reflexivity.
    + rewrite Hi, (encode_ascii lib facts 105) by lia. reflexivity.
    + rewrite Hk, (encode_ascii lib facts 107) by lia. reflexivity.
Qed.

Lemma map_lower_no_upper (s : string) :
  any_byte is_upper_byte s = false -> map_bytes lower_byte s = s.
Proof.
  induction s as [ | c s IH]; cbn [map_bytes any_byte]; [reflexivity | ].
  intros H. apply orb_false_iff in H. destruct H as [Hc Hs].
  rewrite (IH Hs). unfold lower_byte. rewrite Hc. reflexivity.
Qed.

Lemma ToLower_ascii (s : string) :
  all_bytes is_ascii_byte s = true -> ToLower lib s = map_bytes lower_byte s.
Proof.
  intros Hs. unfold ToLower. rewrite Hs.
  destruct (any_byte is_upper_byte s) eqn:Hup; [reflexivity | ].
  symmetry. apply map_lower_no_upper. exact Hup.
Qed.

Lemma map_bytes_cons (f : ascii -> ascii) (s : string) (c : ascii) (t : string) :
  map_bytes f s = String c t ->
  exists (a : ascii) (s' : string), s = String a s' /\ f a = c /\ map_bytes f s' = t.
Proof.
  destruct s as [ | a s']; simpl; [discriminate | ].
  intros [= Hc Ht]. exists a, s'. repeat split; assumption.
Qed.

Lemma map_bytes_nil (f : ascii -> ascii) (s : string) :
  map_bytes f s = ""%string -> s = ""%string.
Proof. destruct s; simpl; [reflexivity | discriminate]. Qed.

Lemma lower_byte_letter (a : ascii) :
  (lower_byte a = "h"%char -> a = "h"%char \/ a = "H"%char)
  /\ (lower_byte a = "a"%char -> a = "a"%char \/ a = "A"%char)
  /\ (lower_byte a = "v"%char -> a = "v"%char \/ a = "V"%char)
  /\ (lower_byte a = "c"%char -> a = "c"%char \/ a = "C"%char).
Proof.
  destruct a as [[ | ] [ | ] [ | ] [ | ] [ | ] [ | ] [ | ] [ | ]];
    vm_compute; repeat split; intros H; try discriminate H; auto.
Qed.

Lemma lower_byte_digit (a : ascii) :
  (lower_byte a = "2"%char -> a = "2"%char)
  /\ (lower_byte a = "6"%char -> a = "6"%char)
  /\ (lower_byte a = "4"%char -> a = "4"%char)
  /\ (lower_byte a = "1"%char -> a = "1"%char).
Proof.
  destruct a as [[ | ] [ | ] [ | ] [ | ] [ | ] [ | ] [ | ] [ | ]];
    vm_compute; repeat split; intros H; try discriminate H; auto.
Qed.

Ltac invert_lower H :=
  let a := fresh "a" in
  let s' := fresh "s" in
  let Ha := fresh "Ha" in
  apply map_bytes_cons in H; destruct H as (a & s' & -> & Ha & H);
  first
    [ apply (proj1 (lower_byte_letter a)) in Ha
    | apply (proj1 (proj2 (lower_byte_letter a))) in Ha
    | apply (proj1 (proj2 (proj2 (lower_byte_letter a)))) in Ha
    | apply (proj2 (proj2 (proj2 (lower_byte_letter a)))) in Ha
    | apply (proj1 (lower_byte_digit a)) in Ha
    | apply (proj1 (proj2 (lower_byte_digit a))) in Ha
    | apply (proj1 (proj2 (proj2 (lower_byte_digit a)))) in Ha
    | apply (proj2 (proj2 (proj2 (lower_byte_digit a)))) in Ha ].

Lemma lowered_spellings (s : string) :
  map_bytes lower_byte s = "h264"%string
  \/ map_bytes lower_byte s = "avc"%string
  \/ map_bytes lower_byte s = "avc1"%string ->
  In s h264_spellings.
Proof.
  intros [H | [H | H]];
    repeat invert_lower H;
    apply map_bytes_nil in H; subst;
    repeat match goal with
           | Ha : _ \/ _ |- _ => destruct Ha as [-> | ->]
           | Ha : _ = _ |- _ => rewrite Ha
           end;
    unfold h264_spellings; simpl; auto 20.
Qed.

(** C6. [IsH264Compatible] is true for "h264", "avc" and "avc1" in every
    letter case, and false for every other string, the empty string
    included. *)
Theorem IsH264Compatible_spellings (codec : string) :
  IsH264Compatible lib codec = true <-> In codec h264_spellings.
Proof.
  split.
  - unfold IsH264Compatible. intros H.
    destruct (all_bytes is_ascii_byte codec) eqn:Hascii.
    + rewrite (ToLower_ascii codec Hascii) in H.
      apply lowered_spellings.
      apply orb_true_iff in H. destruct H as [H | H];
        [apply orb_true_iff in H; destruct H as [H | H] | ];
        apply String.eqb_eq in H; auto.
    + exfalso. pose proof (Map_ToLower_foreign codec Hascii) as Hforeign.
      unfold ToLower in H. rewrite Hascii in H.
      apply orb_true_iff in H. destruct H as [H | H];
        [apply orb_true_iff in H; destruct H as [H | H] | ];
        apply String.eqb_eq in H; rewrite H in Hforeign; discriminate Hforeign.
  - unfold h264_spellings. intros H.
    repeat (destruct H as [<- | H]; [reflexivity | ]). contradiction.
Qed.

End Codec.

(** The library of the concrete environment has the assumed properties. *)
Lemma byte_of_high (n : Z) :
  128 <= n < 256 -> is_ascii_byte (Scripted.byte_of n) = false.
Proof.
  intros Hn. unfold is_ascii_byte, byte_val, Scripted.byte_of.
  rewrite N_ascii_embedding by lia. apply N.ltb_ge. lia.
Qed.

Lemma scripted_unicode_facts : unicode_facts Scripted.lib.
Proof.
  constructor.
  - intros s. simpl. unfold Scripted.runes.
    induction s as [ | c s IH]; simpl; [discriminate | ].
    destruct (is_ascii_byte c); simpl.
    + intros H. destruct (IH H) as (r & Hin & Hr). exists r. auto.
    + intros _. exists 65533. split; [left; reflexivity | lia].
  - intros r Hr. simpl. unfold Scripted.encode_rune, Scripted.byte_of.
    replace (r <? 128) with true by (symmetry; apply Z.ltb_lt; lia). reflexivity.
  - intros r Hr. simpl. unfold Scripted.encode_rune.
    replace (r <? 128) with false by (symmetry; apply Z.ltb_ge; lia).
    destruct (Z.ltb_spec r 2048); [ | destruct (Z.ltb_spec r 65536);
      [ | destruct (Z.ltb_spec r 1114112) ] ];
      eexists; eexists; (split; [reflexivity | ]).
    + apply byte_of_high. Z.div_mod_to_equations. lia.
    + apply byte_of_high. Z.div_mod_to_equations. lia.
    + apply byte_of_high. Z.div_mod_to_equations. lia.
    + reflexivity.
  - intros r Hr. simpl. unfold Scripted.to_lower_rune.
    replace ((65 <=? r) && (r <=? 90)) with false
      by (symmetry; apply andb_false_iff; right; apply Z.leb_gt; lia).
    destruct (Z.eqb_spec r 304); [auto | ].
    destruct (Z.eqb_spec r 8490); [auto | ]. left. exact Hr.
Qed.

Lemma IsH264Compatible_spellings_witness :
  (IsH264Compatible Scripted.lib "AvC1" = true <-> In "AvC1"%string h264_spellings)
  /\ (IsH264Compatible Scripted.lib "vp9" = true <-> In "vp9"%string h264_spellings)
  /\ (IsH264Compatible Scripted.lib "" = true <-> In ""%string h264_spellings).
Proof.
  repeat split;
    apply (IsH264Compatible_spellings Scripted.lib scripted_unicode_facts).
Defined.

Example IsH264Compatible_examples :
  IsH264Compatible Scripted.lib "H264" = true
  /\ IsH264Compatible Scripted.lib "vp9" = false
  /\ IsH264Compatible Scripted.lib "" = false
  /\ IsH264Compatible Scripted.lib "unknown" = false
  /\ IsH264Compatible Scripted.lib "h264 " = false.
Proof. vm_compute. repeat split. Qed.

(** ** Comparisons on [float64] *)

Lemma Prim2SF_0 : Prim2SF 0 = S754_zero false.
Proof. reflexivity. Qed.

Lemma Prim2SF_100 : Prim2SF 100 = S754_finite false 7036874417766400 (-46).
Proof. vm_compute. reflexivity. Qed.

Lemma Prim2SF_5 : Prim2SF 5 = S754_finite false 5629499534213120 (-50).
Proof. vm_compute. reflexivity. Qed.

Lemma finite_is_number (x : float) :
  Float64.finite x = true -> SFnumber (Prim2SF x).
Proof.
  unfold Float64.finite. destruct (Prim2SF x); simpl; intros H; auto; discriminate.
Qed.

Lemma leb_0_nonneg (x : float) : (0 <=? x)%float = true <-> SFnonneg (Prim2SF x).
Proof.
  rewrite FloatAxioms.leb_spec, Prim2SF_0. unfold SFleb.
  destruct (Prim2SF x) as [s | [ | ] | | [ | ] m e]; simpl;
    split; intros H; try discriminate; try contradiction; auto.
Qed.

Lemma ltb_0_finite (x : float) :
  Float64.finite x = true -> (0 <? x)%float = true ->
  exists (m : positive) (e : Z), Prim2SF x = S754_finite false m e.
Proof.
  unfold Float64.finite. rewrite FloatAxioms.ltb_spec, Prim2SF_0. unfold SFltb.
  destruct (Prim2SF x) as [s | s | | [ | ] m e]; simpl; intros Hf H;
    try discriminate.
  exists m, e. reflexivity.
Qed.

Lemma ltb_negb_leb (x y : float) :
  SFnumber (Prim2SF x) -> SFnumber (Prim2SF y) ->
  (x <? y)%float = negb (y <=? x)%float.
Proof.
  intros Hx Hy. rewrite FloatAxioms.ltb_spec, FloatAxioms.leb_spec. apply SFltb_false_SFleb; assumption.
Qed.

Lemma SF64sub_finite_number (x y : spec_float) :
  match x with S754_zero _ | S754_finite _ _ _ => True | _ => False end ->
  match y with S754_zero _ | S754_finite _ _ _ => True | _ => False end ->
  SFnumber (SF64sub x y).
Proof.
  destruct x as [sx | sx | | sx mx ex], y as [sy | sy | | sy my ey];
    simpl; intros Hx Hy; try contradiction; auto.
  - destruct sx, sy; exact I.
  - apply binary_normalize_number.
Qed.

Lemma sub_finite_number (x y : float) :
  Float64.finite x = true -> Float64.finite y = true ->
  SFnumber (Prim2SF (x - y)).
Proof.
  unfold Float64.finite. intros Hx Hy. rewrite FloatAxioms.sub_spec.
  apply SF64sub_finite_number.
  - destruct (Prim2SF x); auto; discriminate.
  - destruct (Prim2SF y); auto; discriminate.
Qed.

(** ** Progress of the transcode and partition stages *)

Lemma wrap64_small (z : Z) : minInt64 <= z <= maxInt64 -> wrap64 z = z.
Proof.
  unfold wrap64, minInt64, maxInt64. intros H.
  rewrite Z.mod_small by lia. lia.
Qed.

(** For a finite positive duration and an elapsed time that is not
    negative, the percent lies between 0 and 100. *)
Lemma progress_percent_in_range (current duration : float) :
  Float64.finite duration = true -> (0 <? duration)%float = true ->
  (0 <=? current)%float = true ->
  in_percent_range (progress_percent current duration) = true.
Proof.
  intros Hfin Hpos Hcur.
  destruct (ltb_0_finite duration Hfin Hpos) as (md & ed & Hd).
  apply leb_0_nonneg in Hcur.
  assert (Hq : SFnonneg (Prim2SF (current / duration * 100))).
  { rewrite FloatAxioms.mul_spec, FloatAxioms.div_spec, Hd, Prim2SF_100.
    apply SF64mul_nonneg_pos. apply SF64div_nonneg_pos. exact Hcur. }
  unfold progress_percent, in_percent_range.
  set (percent := (current / duration * 100)%float) in *.
  assert (Hnum : SFnumber (Prim2SF percent)).
  { destruct (Prim2SF percent) as [s | [ | ] | | [ | ] m e]; simpl in *; auto. }
  destruct (100 <? percent)%float eqn:Hcmp.
  - reflexivity.
  - rewrite ltb_negb_leb in Hcmp by (rewrite ?Prim2SF_100; simpl; auto).
    apply negb_false_iff in Hcmp. rewrite Hcmp.
    rewrite (proj2 (leb_0_nonneg percent) Hq). reflexivity.
Qed.

(** The ordinal never exceeds the number of parts. *)
Lemma split_partNum_le (current segDur : float) (numParts : Z) :
  split_partNum current segDur numParts <= numParts.
Proof.
  unfold split_partNum. cbv zeta.
  destruct (Z.ltb_spec numParts (wrap64 (Float64.to_int (current / segDur) + 1))); lia.
Qed.

Lemma floor_nonneg (x : spec_float) (k : Z) :
  SFnonneg x -> Float64.floor x = Some k ->
  0 <= k /\ Float64.trunc x = Some k.
Proof.
  destruct x as [s | [ | ] | | [ | ] m e];
    cbn [SFnonneg Float64.floor Float64.trunc cond_Zopp]; intros Hx H;
    try contradiction; try discriminate.
  - assert (Hk : k = 0) by congruence. split; [lia | congruence].
  - destruct (Z.leb_spec 0 e) as [He | He].
    + assert (Hk : k = Zpos m * 2 ^ e) by congruence.
      split; [ | congruence].
      assert (0 < 2 ^ e) by (apply Z.pow_pos_nonneg; lia).
      rewrite Hk. apply Z.mul_nonneg_nonneg; lia.
    + assert (Hk : k = Zpos m / 2 ^ (- e)) by congruence.
      split; [ | congruence].
      rewrite Hk. apply Z.div_pos; [lia | apply Z.pow_pos_nonneg; lia].
Qed.

(** C4 (amended). For a finite duration [D > 0] split into [N >= 1] parts the
    segment duration is [D / N], and for an elapsed time [T >= 0] whose
    quotient by the segment duration has an integer part [k] that fits a
    64-bit integer together with its successor, the ordinal is
    [clamp (k + 1) 1 N]; it lies between 1 and [N]. *)
Theorem split_partNum_clamp (D T : float) (N k : Z) :
  Float64.finite D = true -> (0 <? D)%float = true -> (0 <=? T)%float = true ->
  1 <= N < 2 ^ 53 ->
  Float64.floor (Prim2SF (T / segmentDuration D N)) = Some k -> k < maxInt64 ->
  segmentDuration D N = (D / Float64.of_int N)%float
  /\ split_partNum T (segmentDuration D N) N = clamp (k + 1) 1 N
  /\ 1 <= split_partNum T (segmentDuration D N) N <= N.
Proof.
  intros Hfin Hpos HT HN Hfloor Hk.
  destruct (ltb_0_finite D Hfin Hpos) as (md & ed & HD).
  destruct (of_int_small N ltac:(lia)) as (mn & en & HNf & _).
  assert (Hseg : has_sign false (Prim2SF (segmentDuration D N))).
  { unfold segmentDuration. rewrite FloatAxioms.div_spec, HD, HNf.
    apply SF64div_pos_pos. }
  apply leb_0_nonneg in HT.
  assert (Hq : SFnonneg (Prim2SF (T / segmentDuration D N))).
  { rewrite FloatAxioms.div_spec in *.
    destruct (SF64div_nonneg_nonneg _ _ HT Hseg) as [Hq | Hq]; [exact Hq | ].
    rewrite Hq in Hfloor. discriminate Hfloor. }
  destruct (floor_nonneg _ k Hq Hfloor) as [Hk0 Htrunc].
  assert (Hint : Float64.to_int (T / segmentDuration D N) = k).
  { unfold Float64.to_int. rewrite Htrunc.
    replace ((minInt64 <=? k) && (k <=? maxInt64)) with true; [reflexivity | ].
    symmetry. apply andb_true_iff. unfold minInt64, maxInt64 in *.
    split; apply Z.leb_le; lia. }
  assert (Hnum : split_partNum T (segmentDuration D N) N = clamp (k + 1) 1 N).
  { unfold split_partNum. cbv zeta. rewrite Hint.
    rewrite wrap64_small by (unfold minInt64, maxInt64 in *; lia).
    unfold clamp. destruct (Z.ltb_spec N (k + 1)); lia. }
  split; [reflexivity | ]. split; [exact Hnum | ].
  rewrite Hnum. unfold clamp. lia.
Qed.

Lemma split_partNum_clamp_witness :
  segmentDuration 30 3 = (30 / Float64.of_int 3)%float
  /\ split_partNum 31 (segmentDuration 30 3) 3 = clamp (3 + 1) 1 3
  /\ 1 <= split_partNum 31 (segmentDuration 30 3) 3 <= 3.
Proof.
  apply (split_partNum_clamp 30 31 3 3).
  - reflexivity.
  - reflexivity.
  - reflexivity.
  - lia.
  - vm_compute. reflexivity.
  - unfold maxInt64. lia.
Defined.

(** C4 (as stated) fails for an elapsed time whose quotient leaves the
    range of [int]: the conversion of [1e19] gives the smallest integer,
    and the ordinal that is emitted for a single part is
    [-9223372036854775807]. *)
Lemma split_partNum_out_of_range :
  (0 <? 1)%float = true
  /\ (0 <=? currentTime 0 0 1e19)%float = true
  /\ Float64.floor (Prim2SF (currentTime 0 0 1e19 / segmentDuration 1 1))
     = Some (10 ^ 19)
  /\ clamp (10 ^ 19 + 1) 1 1 = 1
  /\ split_partNum (currentTime 0 0 1e19) (segmentDuration 1 1) 1
     = -9223372036854775807.
Proof. vm_compute. repeat split. Qed.

(** C3 at the failing input: ffprobe reports no duration (zero) for a file
    that is transcoded, and the first marker of ffmpeg is
    [time=00:00:00.00].  The percent is [0 / 0 * 100], which is NaN; the
    test [percent > 100] is false for NaN, and NaN is handed to the
    callback. *)
Theorem ReencodeToH264_zero_duration :
  exists p : Progress.t,
    In (ECallback p)
       (snd (ReencodeToH264 Scripted.lib (Scripted.os zero_duration_script)
               "/tmp/sushe/1/v.webm" true []))
    /\ Progress.Phase p = "encoding"%string
    /\ Progress.Percent p = progress_percent (currentTime 0 0 0) 0
    /\ is_nan (Progress.Percent p) = true
    /\ in_percent_range (Progress.Percent p) = false.
Proof.
  exists (Progress.mk "encoding" (progress_percent (currentTime 0 0 0) 0)
            "" "" "" "" 0 0 "").
  split.
  - vm_compute. right. right. left. reflexivity.
  - vm_compute. repeat split.
Qed.

(** With a negative duration the percent is negative: only the upper bound
    is cut. *)
Example progress_percent_negative_duration :
  progress_percent (currentTime 0 0 5) (-10) = (-50)%float
  /\ in_percent_range (progress_percent (currentTime 0 0 5) (-10)) = false.
Proof. vm_compute. repeat split. Qed.

Example progress_percent_overshoot :
  progress_percent (currentTime 0 1 0.5) 60 = 100%float
  /\ progress_percent (currentTime 0 0 30) 60 = 50%float
  /\ progress_percent (currentTime 0 0 7) 0 = 100%float.
Proof. vm_compute. repeat split. Qed.

(** ** The rate limiter of the progress callback *)

Section RateLimiter.

Import Bot.

Lemma Sub_At (now t : Z) :
  (Sub (At now) (At t) <? minUpdateInterval) = negb (minUpdateInterval <=? now - t).
Proof.
  unfold Sub, minUpdateInterval, minInt64, maxInt64.
  destruct (Z.ltb_spec (Z.max (- 2 ^ 63) (Z.min (now - t) (2 ^ 63 - 1))) (2 * 1000000000));
    destruct (Z.leb_spec (2 * 1000000000) (now - t)); simpl; lia.
Qed.

(** The guard of the callback is the negation of the policy, for percents
    that are finite numbers. *)
Lemma skipped_spec (last : option (Z * float)) (now : Z) (p : Progress.t) :
  Float64.finite (lastPercent (state_of last)) = true ->
  Float64.finite (Progress.Percent p) = true ->
  skipped (state_of last) now p = negb (spec_forwards last now (Progress.Percent p)).
Proof.
  intros Hlast Hp. unfold skipped.
  destruct last as [[t q] | ]; cbn [state_of lastUpdate lastPercent spec_forwards] in *.
  - rewrite Sub_At.
    rewrite (ltb_negb_leb (Progress.Percent p) 100)
      by (rewrite ?Prim2SF_100; simpl; auto using finite_is_number).
    rewrite (ltb_negb_leb (Progress.Percent p - q) 5)
      by (rewrite ?Prim2SF_5; simpl; auto using sub_finite_number).
    rewrite !negb_orb. reflexivity.
  - reflexivity.
Qed.

(** C1 (amended). The callback hands an event to the sink if and only if
    the minimum interval has elapsed since the last forwarded event that
    the sink accepted, or the percent reached 100, or the percent advanced
    by the minimum delta since that event (or no event was accepted yet);
    a forwarded event yields its own message at once and every other event
    yields nothing, for percents that are finite numbers. *)
Theorem progressCb_policy (evs : list Incoming) (last : option (Z * float)) :
  Float64.finite (lastPercent (state_of last)) = true ->
  Forall (fun ev : Incoming => Float64.finite (Progress.Percent (snd (fst ev))) = true) evs ->
  run (state_of last) evs = spec_run true last evs.
Proof.
  intros Hlast Hevs. revert last Hlast.
  induction Hevs as [ | [[now p] edit_ok] rest Hp _ IH]; intros last Hlast;
    [reflexivity | ].
  cbn [run spec_run fst snd] in *.
  unfold progressCb. rewrite (skipped_spec last now p Hlast Hp).
  destruct (spec_forwards last now (Progress.Percent p)); cbn [negb andb].
  - destruct edit_ok; cbn [orb negb].
    + f_equal. apply (IH (Some (now, Progress.Percent p))). exact Hp.
    + f_equal. apply IH. exact Hlast.
  - f_equal. apply IH. exact Hlast.
Qed.

End RateLimiter.

Lemma progressCb_policy_witness :
  Bot.run Bot.initial Bot.rejected_update
  = [ [Bot.Downloading 0]; [Bot.Downloading 1]; [Bot.Downloading 2] ]
  /\ Bot.run Bot.initial Bot.rejected_update
     = Bot.spec_run true None Bot.rejected_update.
Proof.
  split; [vm_compute; reflexivity | ].
  apply (progressCb_policy Bot.rejected_update None).
  - reflexivity.
  - repeat constructor.
Defined.

(** C1 (as stated) fails when the sink rejects an update: the rejected
    event was forwarded, but the callback keeps the time and the percent of
    the update before it, so the third event is forwarded although half a
    second and one percent separate it from the last forwarded event. *)
Lemma progressCb_after_rejected_update :
  Bot.run Bot.initial Bot.rejected_update
  = [ [Bot.Downloading 0]; [Bot.Downloading 1]; [Bot.Downloading 2] ]
  /\ Bot.spec_run false None Bot.rejected_update
     = [ [Bot.Downloading 0]; [Bot.Downloading 1]; [] ]
  /\ Bot.spec_forwards (Some (3000000000, 1%float)) 3500000000 2 = false.
Proof. vm_compute. repeat split. Qed.

(** When the sink accepts every update, the callback is the limiter of the
    specification as it is worded. *)
Lemma progressCb_policy_all_accepted (evs : list Bot.Incoming) (last : option (Z * float)) :
  Forall (fun ev : Bot.Incoming => snd ev = true) evs ->
  Bot.spec_run true last evs = Bot.spec_run false last evs.
Proof.
  intros Hall. revert last.
  induction Hall as [ | [[now p] edit_ok] rest Hok _ IH]; intros last; [reflexivity | ].
  simpl in Hok. subst edit_ok. cbn [Bot.spec_run]. rewrite !IH. reflexivity.
Qed.

(** ** The number of parts and the upload limit *)

(** Below [2^53] the conversion of the file size is exact and the rounded
    quotient has the ceiling of the exact one. *)
Lemma numParts_ceil_div (S : Z) :
  0 < S < 2 ^ 53 -> CalculateNumParts S = ceil_div S MaxUploadSize.
Proof.
  intros HS. unfold CalculateNumParts.
  destruct (of_int_small S HS) as (mx & ex & Hx & Hex & Hmx & Hvx).
  destruct (SF64div_normal mx 8356288371097600 ex (-22))
    as (m & j & Hdiv & Hj & Hm & Hb); [lia | lia | lia | ].
  set (e := ex - -22 - 53 + j) in *.
  assert (He : e < 0) by (subst e; lia).
  assert (Hq : Prim2SF (Float64.of_int S / Float64.of_int MaxUploadSize)%float
               = S754_finite false m e).
  { rewrite FloatAxioms.div_spec, Hx, Prim2SF_MaxUploadSize. exact Hdiv. }
  set (K := 2 ^ (j + 22)).
  assert (HK : 0 < K) by (apply Z.pow_pos_nonneg; lia).
  assert (Hscale : 2 ^ (- ex) * 2 ^ 53 = K * 2 ^ (- e)).
  { subst K e. rewrite <- !Z.pow_add_r by lia. f_equal. lia. }
  assert (Hden : 2 ^ j * 8356288371097600 = K * MaxUploadSize).
  { subst K. rewrite Z.pow_add_r by lia. unfold MaxUploadSize. lia. }
  assert (Hnum : Zpos mx * 2 ^ 53 = K * (S * 2 ^ (- e))).
  { rewrite Hvx, <- Z.mul_assoc, Hscale. ring. }
  assert (Hceil : - ((- Zpos m) / 2 ^ (- e)) = ceil_div S MaxUploadSize).
  { apply ceil_of_rounded_quotient;
      [ reflexivity | apply Z.pow_pos_nonneg; lia | lia | lia | ].
    change (Zpos 8356288371097600) with 8356288371097600 in Hb.
    rewrite <- (Z.mul_assoc (Zpos m)), Hden, Hnum in Hb. nia. }
  assert (Hc : 0 < ceil_div S MaxUploadSize < 2 ^ 53).
  { unfold ceil_div, MaxUploadSize. split.
    - apply Z.div_str_pos. lia.
    - apply Z.div_lt_upper_bound; lia. }
  unfold Float64.Ceil. rewrite Hq.
  replace (0 <=? e) with false by (symmetry; apply Z.leb_gt; lia).
  cbn [negb cond_Zopp andb]. rewrite andb_false_r.
  rewrite Hceil. apply to_int_of_int_small. exact Hc.
Qed.

(** X1. For a file of [S] bytes, [0 < S < 2^53], the parts that
    [CalculateNumParts] counts are enough to hold the file at
    [MaxUploadSize] bytes each, and one part fewer would not be enough;
    the file needs a split ([NeedsSplit]) exactly when at least two parts
    are counted. *)
Theorem CalculateNumParts_covers (S : Z) :
  0 < S < 2 ^ 53 ->
  (CalculateNumParts S - 1) * MaxUploadSize < S <= CalculateNumParts S * MaxUploadSize
  /\ (NeedsSplit S = true <-> 2 <= CalculateNumParts S).
Proof.
  intros HS. rewrite (numParts_ceil_div S HS).
  unfold NeedsSplit. rewrite Z.ltb_lt.
  unfold ceil_div, MaxUploadSize.
  Z.div_mod_to_equations. lia.
Qed.

Lemma CalculateNumParts_covers_witness :
  (CalculateNumParts 5368709120 - 1) * MaxUploadSize < 5368709120
    <= CalculateNumParts 5368709120 * MaxUploadSize
  /\ (NeedsSplit 5368709120 = true <-> 2 <= CalculateNumParts 5368709120).
Proof.
  apply (CalculateNumParts_covers 5368709120). lia.
Defined.

(** ** The percent of a file of unknown duration *)

Lemma Prim2SF_inj (x y : float) : Prim2SF x = Prim2SF y -> x = y.
Proof.
  intros H. rewrite <- (SF2Prim_Prim2SF x), <- (SF2Prim_Prim2SF y), H. reflexivity.
Qed.

(** Anything above zero divided by zero is plus infinity. *)
Lemma div_pos_zero (T : float) :
  (0 <? T)%float = true -> (T / 0)%float = infinity.
Proof.
  intros HT. apply Prim2SF_inj.
  rewrite FloatAxioms.ltb_spec, Prim2SF_0 in HT.
  rewrite FloatAxioms.div_spec, Prim2SF_0.
  destruct (Prim2SF T) as [s | [ | ] | | [ | ] m e]; try discriminate HT; reflexivity.
Qed.

(** X3. When ffprobe reports no duration (zero), every time marker of
    ffmpeg above zero makes [ReencodeToH264] report 100 percent: the
    quotient is plus infinity, which the test [percent > 100] cuts. *)
Theorem encoding_event_zero_duration (hours mins : Z) (secs : float) :
  (0 <? currentTime hours mins secs)%float = true ->
  encoding_event 0 (TimeLine hours mins secs)
  = Some (Progress.mk "encoding" 100 "" "" "" "" 0 0 "").
Proof.
  intros HT. unfold encoding_event, progress_percent.
  rewrite (div_pos_zero _ HT). reflexivity.
Qed.

Lemma encoding_event_zero_duration_witness :
  encoding_event 0 (TimeLine 0 0 7)
  = Some (Progress.mk "encoding" 100 "" "" "" "" 0 0 "").
Proof.
  apply (encoding_event_zero_duration 0 0 7). reflexivity.
Defined.

(** ** Footprints of the stages *)

Section Footprint.

Context {W : Type}.
Variable lib : GoLib.
Variable os : OS W.
Variable P : Effect -> Prop.

Lemma emits_ret {A : Type} (a : A) : emits P (ret (W := W) a).
Proof. intros w. constructor. Qed.

Lemma emits_bind {A B : Type} (m : @M W A) (k : A -> @M W B) :
  emits P m -> (forall a : A, emits P (k a)) -> emits P (bind m k).
Proof.
  intros Hm Hk w. specialize (Hm w). unfold bind.
  destruct (m w) as [[a w1] l1]. specialize (Hk a w1).
  destruct (k a w1) as [[b w2] l2]. simpl in *.
  apply Forall_app. split; assumption.
Qed.

Lemma emits_report (events : list Progress.t) :
  (forall p : Progress.t, P (ECallback p)) -> emits P (report (W := W) events).
Proof.
  intros HP w. unfold report. simpl.
  apply Forall_forall. intros e He. apply in_map_iff in He.
  destruct He as (p & <- & _). apply HP.
Qed.

Lemma emits_Now : (forall t : Z, P (ENow t)) -> emits P (Now os).
Proof.
  intros HP w. unfold Now. destruct (os_Now os w) as [t w1]. simpl.
  constructor; [apply HP | constructor].
Qed.

Lemma emits_MkdirAll (path : string) :
  (forall ok : bool, P (EMkdirAll path ok)) -> emits P (MkdirAll os path).
Proof.
  intros HP w. unfold MkdirAll. destruct (os_MkdirAll os path w) as [ok w1]. simpl.
  constructor; [apply HP | constructor].
Qed.

Lemma emits_RemoveAll (path : string) :
  P (ERemoveAll path) -> emits P (RemoveAll os path).
Proof.
  intros HP w. unfold RemoveAll. simpl. constructor; [exact HP | constructor].
Qed.

Lemma emits_Remove (path : string) :
  P (ERemove path) -> emits P (Remove os path).
Proof.
  intros HP w. unfold Remove. simpl. constructor; [exact HP | constructor].
Qed.

Lemma emits_Glob (pattern : string) :
  (forall r : option (list string), P (EGlob pattern r)) -> emits P (Glob os pattern).
Proof.
  intros HP w. unfold Glob. destruct (os_Glob os pattern w) as [r w1]. simpl.
  constructor; [apply HP | constructor].
Qed.

Lemma emits_Stat (path : string) :
  (forall r : option Z, P (EStat path r)) -> emits P (Stat os path).
Proof.
  intros HP w. unfold Stat. destruct (os_Stat os path w) as [r w1]. simpl.
  constructor; [apply HP | constructor].
Qed.

Lemma emits_GetMediaInfo (filePath : string) :
  (forall args : list string, P (EExec "ffprobe" args)) ->
  emits P (GetMediaInfo os filePath).
Proof.
  intros HP w. unfold GetMediaInfo.
  destruct (os_ffprobe_json os (probe_args filePath) w) as [r w1]. simpl.
  constructor; [apply HP | constructor].
Qed.

Lemma emits_GetVideoCodec (filePath : string) :
  (forall args : list string, P (EExec "ffprobe" args)) ->
  emits P (GetVideoCodec lib os filePath).
Proof.
  intros HP w. unfold GetVideoCodec.
  destruct (os_ffprobe_text os _ w) as [r w1]. simpl.
  constructor; [apply HP | constructor].
Qed.

Lemma emits_start_ffmpeg (args : list string) :
  P (EExec "ffmpeg" args) -> emits P (start_ffmpeg os args).
Proof.
  intros HP w. unfold start_ffmpeg. destruct (os_ffmpeg os args w) as [run w1].
  destruct (ff_stderr_pipe_err run); [constructor | ].
  destruct (ff_start_err run); simpl; (constructor; [exact HP | constructor]).
Qed.

Lemma emits_runWithProgress (args : list string) (workDir : string) :
  P (EExec "yt-dlp" args) -> (forall p : Progress.t, P (ECallback p)) ->
  emits P (runWithProgress os args workDir).
Proof.
  intros HP Hcb w. unfold runWithProgress.
  destruct (os_ytdlp os args workDir w) as [run w1].
  destruct (yt_stdout_pipe_err run); [constructor | ].
  destruct (yt_stderr_pipe_err run); [constructor | ].
  destruct (yt_start_err run); simpl; [constructor; [exact HP | constructor] | ].
  constructor; [exact HP | ].
  apply Forall_forall. intros e He. apply in_map_iff in He.
  destruct He as (p & <- & _). apply Hcb.
Qed.

Lemma emits_CombinedOutput (args : list string) (workDir : string) :
  P (EExec "yt-dlp" args) -> emits P (CombinedOutput os args workDir).
Proof.
  intros HP w. unfold CombinedOutput.
  destruct (os_ytdlp os args workDir w) as [run w1]. simpl.
  constructor; [exact HP | constructor].
Qed.

Lemma emits_collect_parts (files : list string) :
  (forall (path : string) (r : option Z), P (EStat path r)) ->
  forall i : Z, emits P (collect_parts os i files).
Proof.
  intros HP. induction files as [ | f rest IH]; intros i; simpl.
  - apply emits_ret.
  - apply emits_bind; [apply emits_Stat; apply HP | ].
    intros [size | ]; [ | apply IH].
    apply emits_bind; [apply IH | intros parts; apply emits_ret].
Qed.

End Footprint.

Section Stages.

Context {W : Type}.
Variable lib : GoLib.
Variable os : OS W.

Lemma ReencodeToH264_emits (P : Effect -> Prop) (filePath : string) (has_cb : bool) :
  (forall args, P (EExec "ffprobe" args)) ->
  (forall args, P (EExec "ffmpeg" args)) ->
  (has_cb = true -> forall p, P (ECallback p)) ->
  emits P (ReencodeToH264 lib os filePath has_cb).
Proof.
  intros Hprobe Hffmpeg Hcb. unfold ReencodeToH264.
  apply emits_bind; [apply emits_GetMediaInfo; exact Hprobe | ].
  intros [mediaInfo | e]; [ | apply emits_ret].
  apply emits_bind; [apply emits_start_ffmpeg; apply Hffmpeg | ].
  intros [run | e]; [ | apply emits_ret].
  apply emits_bind.
  - destruct has_cb; [apply emits_report; apply Hcb; reflexivity | apply emits_ret].
  - intros _. destruct (ff_wait_err run); apply emits_ret.
Qed.

Lemma SplitVideo_emits (P : Effect -> Prop) (filePath : string) (has_cb : bool) :
  (forall args, P (EExec "ffprobe" args)) ->
  (forall args, P (EExec "ffmpeg" args)) ->
  (forall pattern r, P (EGlob pattern r)) ->
  (forall path r, P (EStat path r)) ->
  (has_cb = true -> forall p, P (ECallback p)) ->
  emits P (SplitVideo lib os filePath has_cb).
Proof.
  intros Hprobe Hffmpeg Hglob Hstat Hcb. unfold SplitVideo.
  apply emits_bind; [apply emits_GetMediaInfo; exact Hprobe | ].
  intros [mediaInfo | e]; [ | apply emits_ret].
  destruct (MediaInfo.Duration mediaInfo <=? 0)%float; [apply emits_ret | ].
  apply emits_bind; [apply emits_start_ffmpeg; apply Hffmpeg | ].
  intros [run | e]; [ | apply emits_ret].
  apply emits_bind.
  - destruct has_cb; [apply emits_report; apply Hcb; reflexivity | apply emits_ret].
  - intros _. destruct (ff_wait_err run); [apply emits_ret | ].
    apply emits_bind; [apply emits_Glob; apply Hglob | ].
    intros [[ | f rest] | ]; try apply emits_ret.
    apply emits_bind; [apply emits_collect_parts; exact Hstat | ].
    intros [ | p parts]; apply emits_ret.
Qed.

(** X4. [ReencodeToH264] and [SplitVideo] delete nothing: no run of
    either stage, with or without a callback, calls [os.Remove] or
    [os.RemoveAll]; the original file is kept, also when the stage fails. *)
Theorem stages_keep_files (filePath : string) (has_cb : bool) :
  emits (fun e => is_removal e = false) (ReencodeToH264 lib os filePath has_cb)
  /\ emits (fun e => is_removal e = false) (SplitVideo lib os filePath has_cb).
Proof.
  split.
  - apply ReencodeToH264_emits; intros; reflexivity.
  - apply SplitVideo_emits; intros; reflexivity.
Qed.

(** X5. Without a callback no progress event is emitted: [Download]
    (which is [DownloadWithProgress] with a nil callback), and
    [ReencodeToH264] and [SplitVideo] with a nil callback, never call
    back, whatever yt-dlp and ffmpeg write. *)
Theorem nil_callback_is_silent (d : Downloader) (url filePath : string) :
  emits (fun e => is_callback e = false) (Download lib os d url)
  /\ emits (fun e => is_callback e = false) (ReencodeToH264 lib os filePath false)
  /\ emits (fun e => is_callback e = false) (SplitVideo lib os filePath false).
Proof.
  split; [ | split].
  - unfold Download, DownloadWithProgress.
    apply emits_bind; [apply emits_Now; reflexivity | intros unixNano].
    apply emits_bind; [apply emits_MkdirAll; reflexivity | intros created].
    destruct (negb created); [apply emits_ret | ].
    apply emits_bind; [apply emits_CombinedOutput; reflexivity | ].
    intros [u | e].
    + apply emits_bind; [apply emits_Glob; reflexivity | ].
      intros [[ | f rest] | ];
        try (apply emits_bind; [apply emits_RemoveAll; reflexivity | intros _; apply emits_ret]).
      unfold finish_download.
      apply emits_bind; [apply emits_Stat; reflexivity | ].
      intros [size | ];
        [ | apply emits_bind; [apply emits_RemoveAll; reflexivity | intros _; apply emits_ret]].
      apply emits_bind; [apply emits_GetVideoCodec; reflexivity | intros probed].
      apply emits_bind.
      * destruct (negb (IsH264Compatible lib _)); [ | apply emits_ret].
        apply emits_bind; [apply emits_ret | intros _].
        apply emits_bind;
          [apply ReencodeToH264_emits; intros; reflexivity || discriminate | ].
        intros [newPath | e];
          [ | apply emits_bind; [apply emits_RemoveAll; reflexivity | intros _; apply emits_ret]].
        apply emits_bind; [apply emits_Remove; reflexivity | intros _].
        apply emits_bind; [apply emits_Stat; reflexivity | ].
        intros [newSize | ]; [apply emits_ret | ].
        apply emits_bind; [apply emits_RemoveAll; reflexivity | intros _; apply emits_ret].
      * intros [[[path name] size'] | e]; [ | apply emits_ret].
        apply emits_bind; [apply emits_GetMediaInfo; reflexivity | ].
        intros [mi | e]; apply emits_ret.
    + apply emits_bind; [apply emits_RemoveAll; reflexivity | intros _; apply emits_ret].
  - apply ReencodeToH264_emits; intros; reflexivity || discriminate.
  - apply SplitVideo_emits; intros; reflexivity || discriminate.
Qed.

End Stages.

(** ** The progress events of the partition stage *)

Lemma splitting_event_sound (D segDur : float) (N : Z) (l : FfmpegLine) (p : Progress.t) :
  splitting_event D segDur N l = Some p ->
  Progress.Phase p = "splitting"%string
  /\ Progress.TotalParts p = N
  /\ Progress.PartNum p <= N
  /\ (100 <? Progress.Percent p)%float = false.
Proof.
  destruct l as [hours mins secs | ]; [ | discriminate].
  intros [= <-]. cbn [Progress.Phase Progress.TotalParts Progress.PartNum Progress.Percent].
  split; [reflexivity | ]. split; [reflexivity | ]. split.
  - apply split_partNum_le.
  - unfold progress_percent. cbv zeta.
    destruct (100 <? currentTime hours mins secs / D * 100)%float eqn:Hcut;
      [reflexivity | exact Hcut].
Qed.

Lemma In_filter_map {A B : Type} (f : A -> option B) (l : list A) (b : B) :
  In b (filter_map f l) -> exists a : A, In a l /\ f a = Some b.
Proof.
  induction l as [ | a rest IH]; simpl; [contradiction | ].
  destruct (f a) as [b' | ] eqn:Hfa.
  - intros [<- | Hin].
    + exists a. split; [left; reflexivity | exact Hfa].
    + destruct (IH Hin) as (a' & Ha' & Hf). exists a'. split; [right | ]; assumption.
  - intros Hin. destruct (IH Hin) as (a' & Ha' & Hf).
    exists a'. split; [right | ]; assumption.
Qed.

Section Events.

Context {W : Type}.
Variable lib : GoLib.
Variable os : OS W.

Lemma bind_log {A B : Type} (m : @M W A) (k : A -> @M W B) (w : W) :
  snd (bind m k w) = (snd (m w) ++ snd (k (fst (fst (m w))) (snd (fst (m w)))))%list.
Proof.
  unfold bind. destruct (m w) as [[a w1] l1]. cbn [fst snd].
  destruct (k a w1) as [[b w2] l2]. reflexivity.
Qed.

Lemma In_bind_log {A B : Type} (m : @M W A) (k : A -> @M W B) (w : W) (e : Effect) :
  In e (snd (bind m k w)) ->
  In e (snd (m w)) \/ In e (snd (k (fst (fst (m w))) (snd (fst (m w))))).
Proof.
  rewrite bind_log. intros Hin. apply in_app_or in Hin. exact Hin.
Qed.

Lemma emits_In {A : Type} (P : Effect -> Prop) (m : @M W A) (w : W) (e : Effect) :
  emits P m -> In e (snd (m w)) -> P e.
Proof.
  intros Hm Hin. specialize (Hm w). rewrite Forall_forall in Hm. apply Hm, Hin.
Qed.

(** X6. Every progress event that [SplitVideo] hands to its callback is
    a "splitting" event whose [TotalParts] is [CalculateNumParts] of the
    size that ffprobe reported, whose [PartNum] does not exceed
    [TotalParts], and whose percent does not compare above 100; an event
    is only emitted when the callback is not nil and ffprobe's output was
    parsed. *)
Theorem SplitVideo_events (filePath : string) (has_cb : bool) (w : W) (p : Progress.t) :
  In (ECallback p) (snd (SplitVideo lib os filePath has_cb w)) ->
  has_cb = true
  /\ Progress.Phase p = "splitting"%string
  /\ Progress.PartNum p <= Progress.TotalParts p
  /\ (100 <? Progress.Percent p)%float = false
  /\ exists j : ProbeJSON,
       fst (os_ffprobe_json os (probe_args filePath) w) = ProbeParsed j
       /\ Progress.TotalParts p = CalculateNumParts (format_size j).
Proof.
  intros Hin. unfold SplitVideo in Hin.
  apply In_bind_log in Hin. destruct Hin as [Hin | Hin].
  { apply (emits_In (fun e => is_callback e = false)) in Hin; [discriminate Hin | ].
    apply emits_GetMediaInfo. reflexivity. }
  unfold GetMediaInfo in Hin.
  destruct (os_ffprobe_json os (probe_args filePath) w) as [r w1].
  cbn [fst snd] in *.
  destruct r as [ | | j]; [destruct Hin | destruct Hin | ].
  destruct (video_dimensions (streams j)) as [width height].
  cbn [MediaInfo.Duration MediaInfo.FileSize] in Hin.
  destruct (format_duration j <=? 0)%float; [destruct Hin | ].
  apply In_bind_log in Hin. destruct Hin as [Hin | Hin].
  { apply (emits_In (fun e => is_callback e = false)) in Hin; [discriminate Hin | ].
    apply emits_start_ffmpeg. reflexivity. }
  destruct (fst (fst (start_ffmpeg os _ w1))) as [run | e]; [ | destruct Hin].
  apply In_bind_log in Hin. destruct Hin as [Hin | Hin].
  - destruct has_cb; [ | destruct Hin].
    unfold report in Hin. cbn [snd] in Hin.
    apply in_map_iff in Hin. destruct Hin as (q & [= ->] & Hq).
    apply In_filter_map in Hq. destruct Hq as (l & _ & Hl).
    apply splitting_event_sound in Hl.
    destruct Hl as (Hphase & Htotal & Hnum & Hcut).
    split; [reflexivity | ]. split; [exact Hphase | ].
    split; [rewrite Htotal; exact Hnum | ]. split; [exact Hcut | ].
    exists j. split; [reflexivity | exact Htotal].
  - exfalso.
    destruct (ff_wait_err run); [destruct Hin | ].
    apply In_bind_log in Hin. destruct Hin as [Hin | Hin].
    { apply (emits_In (fun e => is_callback e = false)) in Hin; [discriminate Hin | ].
      apply emits_Glob. reflexivity. }
    destruct (fst (fst (Glob os _ _))) as [[ | f rest] | ]; try destruct Hin.
    apply In_bind_log in Hin. destruct Hin as [Hin | Hin].
    { apply (emits_In (fun e => is_callback e = false)) in Hin; [discriminate Hin | ].
      apply emits_collect_parts. reflexivity. }
    destruct (fst (fst (collect_parts os 0 (f :: rest) _))); destruct Hin.
Qed.

End Events.

Lemma SplitVideo_events_witness :
  exists p : Progress.t,
    In (ECallback p)
       (snd (SplitVideo Scripted.lib (Scripted.os (split_script stat_all))
               "/tmp/sushe/1/v.mp4" true []))
    /\ Progress.Phase p = "splitting"%string
    /\ Progress.PartNum p <= Progress.TotalParts p.
Proof.
  set (p := Progress.mk "splitting" (progress_percent (currentTime 0 0 25) 30)
              "" "" "" "" 3 3 "").
  assert (Hin : In (ECallback p)
                   (snd (SplitVideo Scripted.lib (Scripted.os (split_script stat_all))
                           "/tmp/sushe/1/v.mp4" true []))).
  { vm_compute. do 3 right. left. reflexivity. }
  exists p. split; [exact Hin | ].
  destruct (SplitVideo_events Scripted.lib (Scripted.os (split_script stat_all))
              "/tmp/sushe/1/v.mp4" true [] p Hin)
    as (_ & Hphase & Hle & _).
  split; [exact Hphase | exact Hle].
Defined.

(** ** The scratch directories of two jobs *)

(** X7. Two calls of [DownloadWithProgress] that read different values
    on the clock work in different scratch directories: each call first
    reads the clock and then creates the directory named after the
    reading, and the names of different readings differ. *)
Theorem scratch_directories_differ {W : Type} (lib : GoLib) (os1 os2 : OS W)
    (d : Downloader) (url1 url2 : string) (cb1 cb2 : bool) (w1 w2 : W) :
  fst (os_Now os1 w1) <> fst (os_Now os2 w2) ->
  exists (t1 t2 : Z) (ok1 ok2 : bool) (rest1 rest2 : list Effect),
    snd (DownloadWithProgress lib os1 d url1 cb1 w1)
    = ENow t1 :: EMkdirAll (workDir_of d t1) ok1 :: rest1
    /\ snd (DownloadWithProgress lib os2 d url2 cb2 w2)
       = ENow t2 :: EMkdirAll (workDir_of d t2) ok2 :: rest2
    /\ workDir_of d t1 <> workDir_of d t2.
Proof.
  intros Hdiff.
  assert (Hshape : forall (os : OS W) (url : string) (cb : bool) (w : W),
             exists (ok : bool) (rest : list Effect),
               snd (DownloadWithProgress lib os d url cb w)
               = ENow (fst (os_Now os w))
                   :: EMkdirAll (workDir_of d (fst (os_Now os w))) ok :: rest).
  { intros os url cb w. unfold DownloadWithProgress.
    rewrite bind_log. unfold Now.
    destruct (os_Now os w) as [t wa]. cbn [fst snd app].
    rewrite bind_log. unfold MkdirAll.
    destruct (os_MkdirAll os (workDir_of d t) wa) as [ok wb]. cbn [fst snd app].
    eexists. eexists. reflexivity. }
  destruct (Hshape os1 url1 cb1 w1) as (ok1 & rest1 & H1).
  destruct (Hshape os2 url2 cb2 w2) as (ok2 & rest2 & H2).
  exists (fst (os_Now os1 w1)), (fst (os_Now os2 w2)), ok1, ok2, rest1, rest2.
  split; [exact H1 | ]. split; [exact H2 | ].
  intros Heq. apply Hdiff. apply (workDir_of_injective d). exact Heq.
Qed.

Lemma scratch_directories_differ_witness :
  exists (t1 t2 : Z) (ok1 ok2 : bool) (rest1 rest2 : list Effect),
    snd (DownloadWithProgress Scripted.lib (Scripted.os download_script) sushe
           "https://youtu.be/a" true [])
    = ENow t1 :: EMkdirAll (workDir_of sushe t1) ok1 :: rest1
    /\ snd (DownloadWithProgress Scripted.lib (Scripted.os transcode_script) sushe
              "https://youtu.be/b" true [])
       = ENow t2 :: EMkdirAll (workDir_of sushe t2) ok2 :: rest2
    /\ workDir_of sushe t1 <> workDir_of sushe t2.
Proof.
  apply (scratch_directories_differ Scripted.lib
           (Scripted.os download_script) (Scripted.os transcode_script)).
  cbn. discriminate.
Defined.

(** ** The acquisition stage: what a successful run leaves *)

Section Success.

Context {W : Type}.
Variable lib : GoLib.
Variable os : OS W.

Lemma kept_bind {A B : Type} (Q : B -> Prop) (m : @M W A)
    (k : A -> @M W (result B)) (w : W) :
  emits (fun e => is_RemoveAll e = false) m ->
  (forall a w1, kept Q (k a w1)) ->
  kept Q (bind m k w).
Proof.
  intros Hm Hk. specialize (Hm w). unfold bind.
  destruct (m w) as [[a w1] l1]. specialize (Hk a w1).
  destruct (k a w1) as [[[b | e] w2] l2]; simpl in *; [ | exact I].
  destruct Hk as [Hlog Hb]. split; [ | exact Hb].
  apply Forall_app. split; assumption.
Qed.

Lemma kept_bind_result {A B : Type} (QA : A -> Prop) (Q : B -> Prop)
    (m : @M W (result A)) (k : result A -> @M W (result B)) (w : W) :
  kept QA (m w) ->
  (forall a w1, QA a -> kept Q (k (Ok a) w1)) ->
  (forall e w1, k (Err e) w1 = (Err e, w1, [])) ->
  kept Q (bind m k w).
Proof.
  intros Hm Hok Herr. unfold bind.
  destruct (m w) as [[[a | e] w1] l1]; simpl in Hm.
  - destruct Hm as [Hlog Ha]. specialize (Hok a w1 Ha).
    destruct (k (Ok a) w1) as [[[b | e] w2] l2]; simpl in *; [ | exact I].
    destruct Hok as [Hlog2 Hb]. split; [ | exact Hb].
    apply Forall_app. split; assumption.
  - rewrite Herr. exact I.
Qed.

Lemma kept_RemoveAll {A : Type} (Q : A -> Prop) (path msg : string) (w : W) :
  kept Q (bind (RemoveAll os path) (fun _ => ret (Err msg)) w).
Proof. exact I. Qed.

Lemma kept_ret {A : Type} (Q : A -> Prop) (a : A) (w : W) :
  Q a -> kept Q (ret (Ok a) w).
Proof. intros Ha. split; [constructor | exact Ha]. Qed.

Lemma kept_finish_download (workDir filePath : string) (has_cb : bool) (w : W) :
  kept (described lib) (finish_download lib os workDir filePath has_cb w).
Proof.
  unfold finish_download.
  apply kept_bind; [apply emits_Stat; reflexivity | ].
  intros [size | ] w1; [ | apply kept_RemoveAll].
  apply kept_bind; [apply emits_GetVideoCodec; reflexivity | ].
  intros probed w2.
  apply (kept_bind_result
           (fun r : string * string * Z => snd (fst r) = filepath_Base lib (fst (fst r)))).
  - destruct (negb (IsH264Compatible lib _)); [ | apply kept_ret; reflexivity].
    apply kept_bind;
      [destruct has_cb; [apply emits_report; reflexivity | apply emits_ret] | ].
    intros _ w3.
    apply kept_bind; [apply ReencodeToH264_emits; intros; reflexivity | ].
    intros [newPath | e] w4; [ | apply kept_RemoveAll].
    apply kept_bind; [apply emits_Remove; reflexivity | ].
    intros _ w5.
    apply kept_bind; [apply emits_Stat; reflexivity | ].
    intros [newSize | ] w6; [apply kept_ret; reflexivity | apply kept_RemoveAll].
  - intros [[path name] size'] w3 Hname. cbn [fst snd] in Hname.
    apply kept_bind; [apply emits_GetMediaInfo; reflexivity | ].
    intros mediaInfo w4.
    destruct mediaInfo as [mi | e]; apply kept_ret; repeat split; exact Hname.
  - intros e w3. reflexivity.
Qed.

(** X8. A successful [DownloadWithProgress] has not removed any
    directory: its log holds no [os.RemoveAll], so the scratch directory
    with the file is left for the caller, who removes it with [Cleanup].
    The result is described as unsplit (no parts), its file name is the
    base name of its path and its content type is the one of its path. *)
Theorem DownloadWithProgress_success
    (d : Downloader) (url : string) (has_cb : bool)
    (w w' : W) (res : DownloadResult.t) (log : list Effect) :
  DownloadWithProgress lib os d url has_cb w = (Ok res, w', log) ->
  Forall (fun e => is_RemoveAll e = false) log /\ described lib res.
Proof.
  intros Hrun.
  assert (Hkept : kept (described lib) (DownloadWithProgress lib os d url has_cb w)).
  { unfold DownloadWithProgress.
    apply kept_bind; [apply emits_Now; reflexivity | ].
    intros unixNano w1.
    apply kept_bind; [apply emits_MkdirAll; reflexivity | ].
    intros created w2. destruct (negb created); [exact I | ].
    apply kept_bind.
    { destruct has_cb;
        [apply emits_runWithProgress; reflexivity | apply emits_CombinedOutput; reflexivity]. }
    intros [u | e] w3; [ | apply kept_RemoveAll].
    apply kept_bind; [apply emits_Glob; reflexivity | ].
    intros [[ | filePath rest] | ] w4; try apply kept_RemoveAll.
    apply kept_finish_download. }
  rewrite Hrun in Hkept. exact Hkept.
Qed.

(** ** The acquisition stage: when the file is transcoded *)

Lemma IsH264Compatible_unknown : IsH264Compatible lib "unknown" = false.
Proof. reflexivity. Qed.

(** X9. A downloaded file whose codec ffprobe reports as H.264 ("h264",
    "avc" or "avc1" in any letter case, once trimmed) is returned as it is:
    after the stat and the two calls of ffprobe nothing else happens (no
    ffmpeg, no removal, no progress event), the run succeeds whether or
    not the metadata can be read, and the result has the path and the size
    of the downloaded file. *)
Theorem finish_download_compatible
    (workDir filePath : string) (has_cb : bool) (w w1 w2 : W) (size : Z) (out : string) :
  os_Stat os filePath w = (Some size, w1) ->
  os_ffprobe_text os (codec_args filePath) w1 = (Some out, w2) ->
  IsH264Compatible lib (TrimSpace lib out) = true ->
  exists (res : DownloadResult.t) (w' : W),
    finish_download lib os workDir filePath has_cb w
    = (Ok res, w',
       [ EStat filePath (Some size);
         EExec "ffprobe" (codec_args filePath);
         EExec "ffprobe" (probe_args filePath) ])
    /\ DownloadResult.FilePath res = filePath
    /\ DownloadResult.FileSize res = size
    /\ DownloadResult.Title res
       = TrimSuffix (filepath_Base lib filePath)
           (filepath_Ext lib (filepath_Base lib filePath)).
Proof.
  intros Hstat Hcodec Hcompat.
  unfold finish_download, bind, Stat, GetVideoCodec.
  rewrite Hstat. fold (codec_args filePath). rewrite Hcodec.
  cbn match. rewrite Hcompat. cbn [negb]. unfold ret, GetMediaInfo.
  destruct (os_ffprobe_json os (probe_args filePath) w2) as [r w3].
  destruct r as [ | | j].
  - eexists. eexists. split; [reflexivity | ]. repeat split.
  - eexists. eexists. split; [reflexivity | ]. repeat split.
  - destruct (video_dimensions (streams j)) as [width height].
    eexists. eexists. split; [reflexivity | ]. repeat split.
Qed.

Lemma ReencodeToH264_Ok_inv (filePath : string) (has_cb : bool) (w w' : W)
    (out : string) (log : list Effect) :
  ReencodeToH264 lib os filePath has_cb w = (Ok out, w', log) ->
  out = h264_path lib filePath
  /\ exists args : list string,
       In (EExec "ffmpeg" args) log /\ List.last args "" = h264_path lib filePath.
Proof.
  unfold ReencodeToH264, bind.
  destruct (GetMediaInfo os filePath w) as [[[mi | e] w1] l1];
    [ | unfold ret; intros [= ]; discriminate ].
  unfold start_ffmpeg.
  destruct (os_ffmpeg os _ w1) as [run w2].
  destruct (ff_stderr_pipe_err run); [ unfold ret; intros [= ]; discriminate | ].
  destruct (ff_start_err run); [ unfold ret; intros [= ]; discriminate | ].
  match goal with
  | |- context [(if has_cb then ?a else ?b) w2] =>
      destruct ((if has_cb then a else b) w2) as [[u w3] l3]
  end.
  destruct (ff_wait_err run); unfold ret; intros [= <- <- <-].
  split; [reflexivity | ].
  eexists. split.
  - apply in_or_app. right. left. reflexivity.
  - reflexivity.
Qed.

(** X10. A downloaded file whose codec is not H.264, or whose codec
    ffprobe cannot tell (the codec is then taken to be "unknown"), is only
    returned transcoded: when [DownloadWithProgress] succeeds on such a
    file, ffmpeg has been run with the output path
    [<dir>/<base name without extension>_h264.mp4], the original file has
    been removed, the result's path is that output path, its size is the
    one that [os.Stat] reported for the new file, and its title still
    comes from the name of the downloaded file. *)
Theorem finish_download_transcoded
    (workDir filePath : string) (has_cb : bool) (w w1 w2 w' : W)
    (size : Z) (probe : option string) (res : DownloadResult.t) (log : list Effect) :
  os_Stat os filePath w = (Some size, w1) ->
  os_ffprobe_text os (codec_args filePath) w1 = (probe, w2) ->
  IsH264Compatible lib (probed_codec lib probe) = false ->
  finish_download lib os workDir filePath has_cb w = (Ok res, w', log) ->
  DownloadResult.FilePath res = h264_path lib filePath
  /\ (exists args : list string,
        In (EExec "ffmpeg" args) log /\ List.last args "" = h264_path lib filePath)
  /\ In (ERemove filePath) log
  /\ In (EStat (h264_path lib filePath) (Some (DownloadResult.FileSize res))) log
  /\ DownloadResult.Title res
     = TrimSuffix (filepath_Base lib filePath)
         (filepath_Ext lib (filepath_Base lib filePath)).
Proof.
  intros Hstat Hcodec Hcompat.
  unfold finish_download, bind, Stat, GetVideoCodec.
  rewrite Hstat. fold (codec_args filePath). rewrite Hcodec.
  replace (match match probe with
                 | Some output => Ok (TrimSpace lib output)
                 | None => Err "ffprobe failed"
                 end with
           | Ok c => c
           | Err _ => "unknown"
           end) with (probed_codec lib probe) by (destruct probe; reflexivity).
  rewrite Hcompat. cbn [negb].
  match goal with
  | |- context [(if has_cb then ?a else ?b) w2] =>
      destruct ((if has_cb then a else b) w2) as [[u w3] l3]
  end.
  destruct (ReencodeToH264 lib os filePath has_cb w3) as [[[newPath | e] w4] l4] eqn:Henc;
    [ | unfold RemoveAll, ret; intros [= ]; discriminate ].
  apply ReencodeToH264_Ok_inv in Henc. destruct Henc as (-> & args & Hargs & Hlast).
  unfold Remove.
  destruct (os_Stat os (h264_path lib filePath) (os_Remove os filePath w4))
    as [[newSize | ] w6];
    [ | unfold RemoveAll, ret; intros [= ]; discriminate ].
  unfold ret, GetMediaInfo.
  destruct (os_ffprobe_json os (probe_args (h264_path lib filePath)) w6) as [r w7].
  assert (Hlog : forall tail : list Effect,
             let log0 := ([EStat filePath (Some size)]
                          ++ [EExec "ffprobe" (codec_args filePath)]
                          ++ (l3 ++ l4 ++ [ERemove filePath]
                                ++ [EStat (h264_path lib filePath) (Some newSize)] ++ [])
                          ++ tail)%list in
             (exists args : list string,
                In (EExec "ffmpeg" args) log0 /\ List.last args "" = h264_path lib filePath)
             /\ In (ERemove filePath) log0
             /\ In (EStat (h264_path lib filePath) (Some newSize)) log0).
  { intros tail log0. subst log0. split; [ | split].
    - exists args. split; [ | exact Hlast].
      do 2 (apply in_or_app; right). apply in_or_app. left.
      apply in_or_app. right. apply in_or_app. left. exact Hargs.
    - do 2 (apply in_or_app; right). apply in_or_app. left.
      do 2 (apply in_or_app; right). left. reflexivity.
    - do 2 (apply in_or_app; right). apply in_or_app. left.
      do 3 (apply in_or_app; right). left. reflexivity. }
  destruct r as [ | | j]; [ | | destruct (video_dimensions (streams j)) as [width height]];
    intros [= <- <- <-]; cbn [DownloadResult.FilePath DownloadResult.FileSize
                               DownloadResult.Title];
    (split; [reflexivity | ]);
    destruct (Hlog [EExec "ffprobe" (probe_args (h264_path lib filePath))])
      as (Hff & Hrm & Hst);
    repeat split; assumption.
Qed.

End Success.

Lemma DownloadWithProgress_success_witness :
  Forall (fun e => is_RemoveAll e = false)
    (snd (DownloadWithProgress Scripted.lib (Scripted.os download_script) sushe
            "https://youtu.be/a" true []))
  /\ exists res : DownloadResult.t,
       fst (fst (DownloadWithProgress Scripted.lib (Scripted.os download_script) sushe
                   "https://youtu.be/a" true [])) = Ok res
       /\ described Scripted.lib res.
Proof.
  destruct (DownloadWithProgress Scripted.lib (Scripted.os download_script) sushe
              "https://youtu.be/a" true []) as [[r w'] log] eqn:Hrun.
  assert (Hok : exists res, r = Ok res).
  { vm_compute in Hrun. injection Hrun as <- _ _. eexists. reflexivity. }
  destruct Hok as [res ->].
  destruct (DownloadWithProgress_success _ _ _ _ _ _ _ _ _ Hrun) as [Hlog Hres].
  split; [exact Hlog | ]. exists res. split; [reflexivity | exact Hres].
Defined.

Lemma finish_download_compatible_witness :
  exists (res : DownloadResult.t) (w' : Scripted.World),
    finish_download Scripted.lib (Scripted.os download_script)
      "/tmp/sushe/1700000000000000000" "/tmp/sushe/1700000000000000000/clip.mp4" true []
    = (Ok res, w',
       [ EStat "/tmp/sushe/1700000000000000000/clip.mp4" (Some 10485760);
         EExec "ffprobe" (codec_args "/tmp/sushe/1700000000000000000/clip.mp4");
         EExec "ffprobe" (probe_args "/tmp/sushe/1700000000000000000/clip.mp4") ])
    /\ DownloadResult.FilePath res = "/tmp/sushe/1700000000000000000/clip.mp4"%string
    /\ DownloadResult.FileSize res = 10485760
    /\ DownloadResult.Title res = "clip"%string.
Proof.
  apply (finish_download_compatible Scripted.lib (Scripted.os download_script)
           "/tmp/sushe/1700000000000000000" "/tmp/sushe/1700000000000000000/clip.mp4"
           true [] [] [] 10485760 "h264"); reflexivity.
Defined.

Lemma finish_download_transcoded_witness :
  exists res : DownloadResult.t,
    fst (fst (finish_download Scripted.lib (Scripted.os unprobed_script)
                "/tmp/sushe/1700000000000000001"
                "/tmp/sushe/1700000000000000001/clip.webm" true [])) = Ok res
    /\ DownloadResult.FilePath res
       = "/tmp/sushe/1700000000000000001/clip_h264.mp4"%string
    /\ DownloadResult.Title res = "clip"%string.
Proof.
  destruct (finish_download Scripted.lib (Scripted.os unprobed_script)
              "/tmp/sushe/1700000000000000001"
              "/tmp/sushe/1700000000000000001/clip.webm" true [])
    as [[r w'] log] eqn:Hrun.
  assert (Hok : exists res, r = Ok res).
  { vm_compute in Hrun. injection Hrun as <- _ _. eexists. reflexivity. }
  destruct Hok as [res ->].
  destruct (finish_download_transcoded Scripted.lib (Scripted.os unprobed_script)
              "/tmp/sushe/1700000000000000001"
              "/tmp/sushe/1700000000000000001/clip.webm" true [] [] [] w'
              10485760 None res log eq_refl eq_refl eq_refl Hrun)
    as (Hpath & _ & _ & _ & Htitle).
  exists res. split; [reflexivity | ]. split; [exact Hpath | exact Htitle].
Defined.

(** ** The partition stage: the manifest and the stats *)

Lemma filter_map_app {A B : Type} (f : A -> option B) (l1 l2 : list A) :
  filter_map f (l1 ++ l2) = (filter_map f l1 ++ filter_map f l2)%list.
Proof.
  induction l1 as [ | a rest IH]; simpl; [reflexivity | ].
  destruct (f a); rewrite IH; reflexivity.
Qed.

Lemma no_stats (l : list Effect) :
  Forall (fun e => stat_path e = None) l ->
  filter_map stat_answer l = [] /\ filter_map stat_path l = [].
Proof.
  induction 1 as [ | e rest He _ [IH1 IH2]]; simpl; [split; reflexivity | ].
  rewrite He. destruct e as [ | | | | | path [size | ] | | ]; try discriminate He;
    simpl; split; assumption.
Qed.

Section ManifestStats.

Context {W : Type}.
Variable lib : GoLib.
Variable os : OS W.

Lemma collect_parts_stats (files : list string) :
  forall (i : Z) (w : W),
    filter_map stat_answer (snd (collect_parts os i files w))
    = List.map (fun p => (PartInfo.FilePath p, PartInfo.FileSize p))
        (fst (fst (collect_parts os i files w)))
    /\ filter_map stat_path (snd (collect_parts os i files w)) = files.
Proof.
  induction files as [ | f rest IH]; intros i w; simpl; [split; reflexivity | ].
  unfold bind, Stat. destruct (os_Stat os f w) as [[size | ] w1].
  - specialize (IH (i + 1) w1).
    destruct (collect_parts os (i + 1) rest w1) as [[parts w2] l2].
    simpl in *. rewrite app_nil_r. destruct IH as [IH1 IH2].
    rewrite IH1, IH2. split; reflexivity.
  - specialize (IH (i + 1) w1).
    destruct (collect_parts os (i + 1) rest w1) as [[parts w2] l2].
    simpl in *. destruct IH as [IH1 IH2].
    rewrite IH1, IH2. split; reflexivity.
Qed.

(** X11. In a successful [SplitVideo], [os.Stat] is called once on each
    file that the glob returned, in the order of the glob, and on nothing
    else; the manifest lists exactly the files whose stat succeeded, in
    that order, each with the size that its stat reported. *)
Theorem SplitVideo_manifest_stats (filePath : string) (has_cb : bool) (w w' : W)
    (parts : list PartInfo.t) (log : list Effect) :
  SplitVideo lib os filePath has_cb w = (Ok parts, w', log) ->
  filter_map stat_answer log
  = List.map (fun p => (PartInfo.FilePath p, PartInfo.FileSize p)) parts
  /\ exists (pattern : string) (files : list string),
       In (EGlob pattern (Some files)) log
       /\ filter_map stat_path log = files.
Proof.
  unfold SplitVideo, bind.
  pose proof (emits_GetMediaInfo os (fun e => stat_path e = None) filePath
                ltac:(reflexivity) w) as H1.
  destruct (GetMediaInfo os filePath w) as [[[mi | e] w1] l1];
    [ | unfold ret; intros [= ]; discriminate ].
  destruct (MediaInfo.Duration mi <=? 0)%float;
    [ unfold ret; intros [= ]; discriminate | ].
  match goal with
  | |- context [start_ffmpeg os ?a w1] =>
      pose proof (emits_start_ffmpeg os (fun e => stat_path e = None) a
                    ltac:(reflexivity) w1) as H2
  end.
  destruct (start_ffmpeg os _ w1) as [[[run | e] w2] l2];
    [ | unfold ret; intros [= ]; discriminate ].
  match goal with
  | |- context [(if has_cb then ?a else ?b) w2] =>
      assert (H3 : Forall (fun e => stat_path e = None)
                     (snd ((if has_cb then a else b) w2)))
        by (destruct has_cb; [apply emits_report; reflexivity | constructor]);
      destruct ((if has_cb then a else b) w2) as [[u w3] l3]
  end.
  destruct (ff_wait_err run); [ unfold ret; intros [= ]; discriminate | ].
  unfold Glob.
  match goal with
  | |- context [os_Glob os ?pat w3] =>
      set (pattern := pat); destruct (os_Glob os pattern w3) as [[files | ] w4]
  end; [ | unfold ret; intros [= ]; discriminate ].
  destruct files as [ | f rest]; [ unfold ret; intros [= ]; discriminate | ].
  pose proof (collect_parts_stats (f :: rest) 0 w4) as [Hans Hpaths].
  destruct (collect_parts os 0 (f :: rest) w4) as [[ps w5] l5].
  cbn [fst snd] in H1, H2, H3, Hans, Hpaths.
  apply no_stats in H1. apply no_stats in H2. apply no_stats in H3.
  destruct H1 as [H1a H1p]. destruct H2 as [H2a H2p]. destruct H3 as [H3a H3p].
  destruct ps as [ | p ps]; unfold ret; intros [= <- <- <-].
  rewrite !filter_map_app. cbn [filter_map stat_answer stat_path].
  rewrite !filter_map_app, H1a, H2a, H3a, H1p, H2p, H3p, Hans, Hpaths.
  cbn [app filter_map]. rewrite !app_nil_r.
  split; [reflexivity | ].
  exists pattern, (f :: rest). split; [ | reflexivity].
  do 3 (apply in_or_app; right). left. reflexivity.
Qed.

(** ** The metadata of a file *)

Lemma video_dimensions_first (ss : list ProbeStream) :
  (exists (pre : list ProbeStream) (s : ProbeStream) (post : list ProbeStream),
     ss = (pre ++ s :: post)%list
     /\ Forall (fun x => codec_type x <> "video"%string) pre
     /\ codec_type s = "video"%string
     /\ video_dimensions ss = (stream_width s, stream_height s))
  \/ (Forall (fun x => codec_type x <> "video"%string) ss
      /\ video_dimensions ss = (0, 0)).
Proof.
  induction ss as [ | s rest IH]; simpl.
  - right. split; [constructor | reflexivity].
  - destruct (String.eqb_spec (codec_type s) "video") as [Hv | Hv].
    + left. exists [], s, rest. repeat split; [constructor | exact Hv].
    + destruct IH as [(pre & s' & post & -> & Hpre & Hs' & Hdim) | [Hnone Hdim]].
      * left. exists (s :: pre), s', post.
        repeat split; [constructor; assumption | exact Hs' | exact Hdim].
      * right. split; [constructor; assumption | exact Hdim].
Qed.

(** X12. When ffprobe's JSON output is parsed, [GetMediaInfo] succeeds
    and returns the duration, the size and the bit rate of the format
    section, with the width and the height of the first stream whose type
    is "video" (streams of other types before it and any stream after it
    are ignored); without a video stream the width and the height are 0
    and this is no error. *)
Theorem GetMediaInfo_first_video_stream (filePath : string) (w : W) (j : ProbeJSON) :
  fst (os_ffprobe_json os (probe_args filePath) w) = ProbeParsed j ->
  exists mi : MediaInfo.t,
    fst (fst (GetMediaInfo os filePath w)) = Ok mi
    /\ MediaInfo.Duration mi = format_duration j
    /\ MediaInfo.FileSize mi = format_size j
    /\ MediaInfo.Bitrate mi = format_bit_rate j
    /\ ((exists (pre : list ProbeStream) (s : ProbeStream) (post : list ProbeStream),
           streams j = (pre ++ s :: post)%list
           /\ Forall (fun x => codec_type x <> "video"%string) pre
           /\ codec_type s = "video"%string
           /\ MediaInfo.Width mi = stream_width s
           /\ MediaInfo.Height mi = stream_height s)
        \/ (Forall (fun x => codec_type x <> "video"%string) (streams j)
            /\ MediaInfo.Width mi = 0 /\ MediaInfo.Height mi = 0)).
Proof.
  intros Hprobe. unfold GetMediaInfo.
  destruct (os_ffprobe_json os (probe_args filePath) w) as [r w1].
  cbn [fst] in Hprobe. subst r.
  pose proof (video_dimensions_first (streams j)) as Hdim.
  destruct (video_dimensions (streams j)) as [width height].
  eexists. split; [reflexivity | ].
  cbn [MediaInfo.Duration MediaInfo.FileSize MediaInfo.Bitrate
       MediaInfo.Width MediaInfo.Height].
  repeat (split; [reflexivity | ]).
  destruct Hdim as [(pre & s & post & Hss & Hpre & Hs & [= -> ->]) | [Hnone [= -> ->]]].
  - left. exists pre, s, post. repeat split; assumption.
  - right. repeat split. exact Hnone.
Qed.

End ManifestStats.

Lemma SplitVideo_manifest_stats_witness :
  filter_map stat_answer
    (snd (SplitVideo Scripted.lib (Scripted.os (split_script stat_but_second))
            "/tmp/sushe/1/v.mp4" true []))
  = [ ("/tmp/sushe/1/v_part000.mp4"%string, 1789569706);
      ("/tmp/sushe/1/v_part002.mp4"%string, 1789569706) ]
  /\ exists (pattern : string) (files : list string),
       In (EGlob pattern (Some files))
          (snd (SplitVideo Scripted.lib (Scripted.os (split_script stat_but_second))
                  "/tmp/sushe/1/v.mp4" true []))
       /\ filter_map stat_path
            (snd (SplitVideo Scripted.lib (Scripted.os (split_script stat_but_second))
                    "/tmp/sushe/1/v.mp4" true []))
          = files.
Proof.
  apply (SplitVideo_manifest_stats Scripted.lib
           (Scripted.os (split_script stat_but_second)) "/tmp/sushe/1/v.mp4" true [] []
           [ PartInfo.mk "/tmp/sushe/1/v_part000.mp4" 1 1789569706;
             PartInfo.mk "/tmp/sushe/1/v_part002.mp4" 3 1789569706 ]).
  vm_compute. reflexivity.
Defined.

(** A file with an audio stream, two video streams and a subtitle stream:
    the dimensions are those of the first video stream. *)
Lemma GetMediaInfo_first_video_stream_witness :
  exists mi : MediaInfo.t,
    fst (fst (GetMediaInfo (Scripted.os mixed_streams_script) "/tmp/sushe/1/v.mkv" []))
    = Ok mi
    /\ MediaInfo.Width mi = 1920 /\ MediaInfo.Height mi = 1080.
Proof.
  destruct (GetMediaInfo_first_video_stream (Scripted.os mixed_streams_script)
              "/tmp/sushe/1/v.mkv" [] mixed_streams eq_refl)
    as (mi & Hrun & _ & _ & _ & Hdim).
  exists mi. split; [exact Hrun | ].
  destruct Hdim as [(pre & s & post & Hss & Hpre & Hs & Hw & Hh) | [Hnone _]].
  - rewrite Hw, Hh.
    destruct pre as [ | a pre]; [injection Hss as <- _; discriminate Hs | ].
    injection Hss as <- Hss. destruct pre as [ | b pre].
    + injection Hss as <- _. split; reflexivity.
    + inversion Hpre as [ | ? ? _ Hpre']. inversion Hpre' as [ | ? ? Hb _].
      injection Hss as <- _. exfalso. apply Hb. reflexivity.
  - exfalso. inversion Hnone as [ | ? ? _ Hrest]. inversion Hrest as [ | ? ? Hb _].
    apply Hb. reflexivity.
Defined.

(** ** Products that do not overflow *)

Section Finite.

Local Abbreviation bra := (binary_round_aux prec emax).
Local Abbreviation fexp64 := (SpecFloat.fexp prec emax).

Lemma shr_1_le (mrs : shr_record) : 0 <= shr_m mrs -> shr_m (shr_1 mrs) <= shr_m mrs.
Proof.
  destruct mrs as [m r s]. simpl.
  destruct m as [ | [p | p | ] | p ]; simpl; lia.
Qed.

Lemma shr_fexp_bounds (m e : Z) (l : location) :
  0 <= m ->
  0 <= shr_m (fst (shr_fexp prec emax m e l)) <= m
  /\ snd (shr_fexp prec emax m e l) = Z.max e (fexp64 (Zdigits2 m + e)).
Proof.
  intros Hm. unfold shr_fexp, shr.
  destruct (fexp64 (Zdigits2 m + e) - e) as [ | n | n ] eqn:Hn;
    cbn [fst snd]; rewrite ?shr_m_record_of_loc; try (split; lia).
  split; [ | lia].
  apply (iter_pos_invariant (fun mrs => 0 <= shr_m mrs <= m)).
  - intros mrs [H0 H1]. split; [apply shr_1_nonneg; exact H0 | ].
    pose proof (shr_1_le mrs H0). lia.
  - rewrite shr_m_record_of_loc. lia.
Qed.

Lemma round_nearest_even_le (m : Z) (l : location) : round_nearest_even m l <= m + 1.
Proof.
  destruct l as [ | [ | | ] ]; simpl; try lia.
  destruct (Z.even m); lia.
Qed.

Lemma Zdigits2_le (m k : Z) : 0 <= m < 2 ^ k -> 0 <= k -> 0 <= Zdigits2 m <= k.
Proof.
  intros Hm Hk. destruct m as [ | p | p ]; simpl; try lia.
  pose proof (Zdigits2_bounds p) as Hd.
  assert (Hlt : 2 ^ (Zpos (digits2_pos p) - 1) < 2 ^ k) by lia.
  apply Z.pow_lt_mono_r_iff in Hlt; lia.
Qed.

Lemma fexp64_le (x k : Z) : x <= k -> -1074 <= k - 53 -> fexp64 x <= k - 53.
Proof.
  intros Hx Hk. unfold SpecFloat.fexp, SpecFloat.emin, emax, prec. lia.
Qed.

(** Rounding a mantissa below [2^106] at an exponent that is not positive
    gives a zero or a finite number: the exponent of the result is too
    small for an overflow. *)
Lemma binary_round_aux_finite (s : bool) (m e : Z) (l : location) :
  0 <= m < 2 ^ 106 -> e <= 0 -> SFfinite (bra s m e l).
Proof.
  intros Hm He. unfold binary_round_aux.
  destruct (shr_fexp_bounds m e l ltac:(lia)) as [H1 E1].
  destruct (shr_fexp prec emax m e l) as [mrs1 e1]. cbn [fst snd] in H1, E1.
  set (m2 := round_nearest_even (shr_m mrs1) (loc_of_shr_record mrs1)).
  assert (Hm2 : 0 <= m2 < 2 ^ 107).
  { subst m2. split; [apply round_nearest_even_nonneg; lia | ].
    pose proof (round_nearest_even_le (shr_m mrs1) (loc_of_shr_record mrs1)).
    change (2 ^ 107) with (2 * 2 ^ 106). lia. }
  assert (He1 : e1 <= 53).
  { rewrite E1. pose proof (Zdigits2_le m 106 Hm ltac:(lia)).
    pose proof (fexp64_le (Zdigits2 m + e) 106 ltac:(lia) ltac:(lia)). lia. }
  destruct (shr_fexp_bounds m2 e1 loc_Exact ltac:(lia)) as [H2 E2].
  destruct (shr_fexp prec emax m2 e1 loc_Exact) as [mrs2 e2]. cbn [fst snd] in H2, E2.
  assert (He2 : e2 <= 107).
  { rewrite E2. pose proof (Zdigits2_le m2 107 Hm2 ltac:(lia)).
    pose proof (fexp64_le (Zdigits2 m2 + e1) 160 ltac:(lia) ltac:(lia)). lia. }
  destruct (shr_m mrs2) as [ | p | p ]; [exact I | | lia].
  replace (e2 <=? emax - prec) with true; [exact I | ].
  symmetry. apply Z.leb_le. unfold emax, prec. lia.
Qed.

Lemma Prim2SF_of_int_0 : Prim2SF (Float64.of_int 0) = S754_zero false.
Proof. reflexivity. Qed.

(** The percent of an upload is a finite number when the counts are below
    [2^53] and the total is not zero. *)
Lemma upload_percent_finite (read total : Z) :
  0 <= read < 2 ^ 53 -> 0 < total < 2 ^ 53 ->
  Float64.finite (Upload.percent read total) = true.
Proof.
  intros Hr Ht. unfold Upload.percent, Float64.finite.
  rewrite FloatAxioms.mul_spec, FloatAxioms.div_spec, Prim2SF_100.
  destruct (of_int_small total Ht) as (my & ey & Hy & Hey & Hmy & _).
  rewrite Hy.
  assert (Hfin : SFfinite (SF64mul (SF64div (Prim2SF (Float64.of_int read))
                                      (S754_finite false my ey))
                             (S754_finite false 7036874417766400 (-46)))).
  { destruct (Z.eq_dec read 0) as [-> | Hnz].
    - rewrite Prim2SF_of_int_0. exact I.
    - destruct (of_int_small read ltac:(lia)) as (mx & ex & Hx & Hex & Hmx & _).
      rewrite Hx.
      destruct (SF64div_normal mx my ex ey Hmx Hmy ltac:(lia))
        as (m & j & -> & Hj & Hm & _).
      unfold SF64mul, SFmul. cbn [xorb].
      apply binary_round_aux_finite; [ | lia].
      rewrite Pos2Z.inj_mul. split; [lia | ].
      change (2 ^ 106) with (2 ^ 53 * 2 ^ 53).
      apply Z.mul_lt_mono_nonneg; lia. }
  destruct (SF64mul _ _); simpl in Hfin; try contradiction; reflexivity.
Qed.

End Finite.

(** ** Sizes in status messages *)

Lemma formatSize_loop_spec (n div exp : Z) :
  1 <= n -> 0 < div -> 0 <= exp -> div * n <= maxInt64 -> exp + n <= maxInt64 ->
  exists k : Z,
    0 <= k
    /\ formatSize_loop n div exp = (div * 1024 ^ k, exp + k)
    /\ 1024 ^ k <= n < 1024 ^ (k + 1).
Proof.
  functional induction (formatSize_loop n div exp) as [n div exp Hge IH | n div exp Hlt];
    intros Hn Hdiv Hexp Hbound Hcount.
  - apply Z.leb_le in Hge.
    rewrite Z.quot_div_nonneg in * by lia.
    assert (Hq : 1 <= n / 1024) by (apply Z.div_le_lower_bound; lia).
    assert (Hqn : 1024 * (n / 1024) <= n < 1024 * (n / 1024) + 1024)
      by (Z.div_mod_to_equations; lia).
    rewrite (wrap64_small (div * 1024)) in * by (unfold minInt64, maxInt64 in *; nia).
    rewrite (wrap64_small (exp + 1)) in * by (unfold minInt64, maxInt64 in *; lia).
    destruct IH as (k & Hk & Heq & Hlo & Hhi); try lia; [nia | ].
    exists (k + 1). split; [lia | ]. split.
    + rewrite Heq. rewrite (Z.pow_add_r 1024 k 1) by lia. f_equal; [ring | lia].
    + rewrite !Z.pow_add_r by lia. change (1024 ^ 1) with 1024.
      rewrite Z.pow_add_r in Hhi by lia. change (1024 ^ 1) with 1024 in Hhi. lia.
  - apply Z.leb_gt in Hlt. exists 0. split; [lia | ]. split.
    + f_equal; [change (1024 ^ 0) with 1 | ]; lia.
    + change (1024 ^ 0) with 1. change (1024 ^ (0 + 1)) with 1024. lia.
Qed.

(** X13. For every size from 1024 up to the largest [int64],
    [formatSize] scales the size by the largest power of 1024 that does
    not exceed it: with [e + 1] the exponent of that power, the value that
    is printed is [float64(bytes) / float64(1024^(e+1))], the index of the
    unit letter is [e], it lies between 0 and 5, so that the indexing of
    "KMGTPE" never leaves the string, and neither [div] nor [exp]
    overflows. *)
Theorem formatSize_unit (bytes : Z) :
  1024 <= bytes <= maxInt64 ->
  exists (e : Z) (c : ascii),
    formatSize bytes
    = Scaled (Float64.of_int bytes / Float64.of_int (1024 ^ (e + 1)))%float e
    /\ 0 <= e <= 5
    /\ unit_letter e = Some c
    /\ 1024 ^ (e + 1) <= bytes < 1024 ^ (e + 2).
Proof.
  intros Hb. unfold formatSize.
  replace (bytes <? 1024) with false by (symmetry; apply Z.ltb_ge; lia).
  rewrite Z.quot_div_nonneg by lia.
  assert (Hq : 1 <= bytes / 1024) by (apply Z.div_le_lower_bound; lia).
  assert (Hqn : 1024 * (bytes / 1024) <= bytes < 1024 * (bytes / 1024) + 1024)
    by (Z.div_mod_to_equations; lia).
  destruct (formatSize_loop_spec (bytes / 1024) 1024 0)
    as (k & Hk & Heq & Hlo & Hhi); try (unfold maxInt64 in *; lia).
  rewrite Heq. cbn [Z.add].
  assert (Hpow1 : 1024 * 1024 ^ k = 1024 ^ (k + 1))
    by (rewrite Z.pow_add_r by lia; change (1024 ^ 1) with 1024; ring).
  assert (Hpow2 : 1024 * 1024 ^ (k + 1) = 1024 ^ (k + 2))
    by (replace (k + 2) with (k + 1 + 1) by lia;
        rewrite (Z.pow_add_r 1024 (k + 1) 1) by lia; change (1024 ^ 1) with 1024; ring).
  assert (Hrange : 1024 ^ (k + 1) <= bytes < 1024 ^ (k + 2)) by lia.
  assert (Hk5 : k <= 5).
  { destruct (Z_le_gt_dec k 5) as [Hle | Hgt]; [exact Hle | exfalso].
    pose proof (Z.pow_le_mono_r 1024 7 (k + 1) ltac:(lia) ltac:(lia)) as Hmono.
    change (1024 ^ 7) with 1180591620717411303424 in Hmono.
    unfold maxInt64 in Hb. lia. }
  assert (Hletter : exists c : ascii, unit_letter k = Some c).
  { assert (Hcases : k = 0 \/ k = 1 \/ k = 2 \/ k = 3 \/ k = 4 \/ k = 5) by lia.
    destruct Hcases as [-> | [-> | [-> | [-> | [-> | ->]]]]];
      eexists; reflexivity. }
  destruct Hletter as [c Hc].
  exists k, c. rewrite Hpow1. repeat split; try assumption; lia.
Qed.

Lemma formatSize_unit_witness :
  exists (e : Z) (c : ascii),
    formatSize MaxUploadSize
    = Scaled (Float64.of_int MaxUploadSize / Float64.of_int (1024 ^ (e + 1)))%float e
    /\ 0 <= e <= 5
    /\ unit_letter e = Some c
    /\ 1024 ^ (e + 1) <= MaxUploadSize < 1024 ^ (e + 2).
Proof.
  apply (formatSize_unit MaxUploadSize). unfold MaxUploadSize, maxInt64. lia.
Defined.

(** 1.9 GB, the split threshold, is shown as "1.9 GB" (the value is
    1.85546875 and the letter the third of "KMGTPE"); a size below 1024 is
    shown in bytes. *)
Example formatSize_examples :
  formatSize MaxUploadSize = Scaled 1.85546875 2
  /\ unit_letter 2 = Some "G"%char
  /\ formatSize 1023 = PlainBytes 1023
  /\ formatSize 1024 = Scaled 1 0
  /\ formatSize maxInt64 = Scaled 8 5.
Proof. vm_compute. repeat split. Qed.

(** ** The rate limiter of the upload progress *)

Section UploadLimiter.

Import Bot.

Lemma Prim2SF_10 : Prim2SF 10 = S754_finite false 5629499534213120 (-49).
Proof. reflexivity. Qed.

Lemma upload_skipped_spec (last : option (Z * float)) (now : Z) (percent : float) :
  Float64.finite (lastPercent (state_of last)) = true ->
  Float64.finite percent = true ->
  Upload.skipped (state_of last) now percent = negb (Upload.spec_shows last now percent).
Proof.
  intros Hlast Hp. unfold Upload.skipped.
  destruct last as [[t q] | ]; cbn [state_of lastUpdate lastPercent Upload.spec_shows] in *.
  - change (2 * 1000000000) with minUpdateInterval. rewrite Sub_At.
    rewrite (ltb_negb_leb (percent - q) 10)
      by (rewrite ?Prim2SF_10; simpl; auto using sub_finite_number).
    rewrite negb_orb. reflexivity.
  - reflexivity.
Qed.

(** X14. The status message of an upload follows the policy "every 2
    seconds or every 10%": over the reads of an upload whose counts stay
    below [2^53], the callback of [ProgressReader.Read] hands a message to
    [Edit] exactly when no update was accepted yet, or two seconds have
    passed since the last update that [Edit] accepted, or the percent has
    gained at least 10 since that update; the message shows the percent of
    the bytes read so far, and nothing is shown for the other reads.  There
    is no exception for the last read: it is shown only under the same
    conditions. *)
Theorem upload_policy (part : option (Z * Z)) (title : string)
    (chunks : list Upload.Chunk) (pr : Upload.ProgressReader) (last : option (Z * float)) :
  Upload.onProgress pr = true ->
  0 < Upload.total pr < 2 ^ 53 ->
  Float64.finite (lastPercent (state_of last)) = true ->
  Forall (fun r => 0 <= r < 2 ^ 53) (Upload.running_totals (Upload.read pr) chunks) ->
  Upload.run part title pr (state_of last) chunks
  = Upload.spec_run part title (Upload.total pr) (Upload.read pr) last chunks.
Proof.
  intros Hcb Htotal. revert pr last Hcb Htotal.
  induction chunks as [ | [[n now] edit_ok] rest IH]; intros pr last Hcb Htotal Hlast Hall;
    [reflexivity | ].
  cbn [Upload.running_totals] in Hall. inversion Hall as [ | r rs Hr Hrest]; subst.
  cbn [Upload.run Upload.spec_run]. unfold Upload.Read. rewrite Hcb.
  cbn [Upload.read Upload.total].
  rewrite (wrap64_small (Upload.read pr + n)) by (unfold minInt64, maxInt64; lia).
  set (sofar := Upload.read pr + n) in *.
  set (pr' := {| Upload.total := Upload.total pr; Upload.read := sofar;
                 Upload.onProgress := true |}).
  assert (Hfin : Float64.finite (Upload.percent sofar (Upload.total pr)) = true)
    by (apply upload_percent_finite; assumption).
  unfold Upload.callback. cbv zeta.
  rewrite (upload_skipped_spec last now _ Hlast Hfin).
  destruct (Upload.spec_shows last now (Upload.percent sofar (Upload.total pr)));
    cbn [negb andb].
  - destruct edit_ok.
    + f_equal.
      apply (IH pr' (Some (now, Upload.percent sofar (Upload.total pr))));
        assumption || reflexivity.
    + f_equal. apply (IH pr' last); assumption || reflexivity.
  - f_equal. apply (IH pr' last); assumption || reflexivity.
Qed.

End UploadLimiter.

(** An upload of 100 bytes read in three chunks within a second: the
    first read (20 %) is shown, the second (95 %, a gain of 75) is shown,
    and the last read, which completes the file half a second later with a
    gain of 5, is not shown. *)
Lemma upload_policy_witness :
  Upload.run None "clip"
    {| Upload.total := 100; Upload.read := 0; Upload.onProgress := true |}
    Bot.initial
    [ (20, 0, true); (75, 100000000, true); (5, 600000000, true) ]%Z
  = Upload.spec_run None "clip" 100 0 None
      [ (20, 0, true); (75, 100000000, true); (5, 600000000, true) ]%Z
  /\ List.map (@List.length _)
       (Upload.run None "clip"
          {| Upload.total := 100; Upload.read := 0; Upload.onProgress := true |}
          Bot.initial
          [ (20, 0, true); (75, 100000000, true); (5, 600000000, true) ]%Z)
     = [1; 1; 0]%nat.
Proof.
  split.
  - apply (upload_policy None "clip" _
             {| Upload.total := 100; Upload.read := 0; Upload.onProgress := true |} None).
    + reflexivity.
    + cbn. lia.
    + reflexivity.
    + cbn. repeat constructor; lia.
  - vm_compute. reflexivity.
Defined.

(** ** The whitelist *)

Section Whitelist.

Variable lib : GoLib.

Lemma add_piece_In (allowed : ZSet.t) (piece : string) (id : Z) :
  ZSet.In id (Auth.add_piece lib allowed piece)
  <-> ZSet.In id allowed
      \/ (TrimSpace lib piece <> ""%string
          /\ Auth.ParseInt (TrimSpace lib piece) = Some id).
Proof.
  unfold Auth.add_piece.
  destruct (String.eqb_spec (TrimSpace lib piece) "") as [Hempty | Hfull].
  - split; [auto | ]. intros [H | [H _]]; [exact H | contradiction].
  - destruct (Auth.ParseInt (TrimSpace lib piece)) as [parsed | ].
    + rewrite ZSet.add_spec. split.
      * intros [-> | H]; [right; split; [exact Hfull | reflexivity] | left; exact H].
      * intros [H | [_ [= ->]]]; [right; exact H | left; reflexivity].
    + split; [auto | ]. intros [H | [_ H]]; [exact H | discriminate H].
Qed.

Lemma fold_add_piece_In (pieces : list string) :
  forall (allowed : ZSet.t) (id : Z),
    ZSet.In id (List.fold_left (Auth.add_piece lib) pieces allowed)
    <-> ZSet.In id allowed
        \/ exists piece : string,
             In piece pieces /\ TrimSpace lib piece <> ""%string
             /\ Auth.ParseInt (TrimSpace lib piece) = Some id.
Proof.
  induction pieces as [ | piece rest IH]; intros allowed id; simpl.
  - split; [auto | ]. intros [H | (piece & [] & _)]. exact H.
  - rewrite IH, add_piece_In. split.
    + intros [[H | [Hne Hparse]] | (p & Hin & Hne & Hparse)].
      * left. exact H.
      * right. exists piece. auto.
      * right. exists p. auto.
    + intros [H | (p & [<- | Hin] & Hne & Hparse)].
      * left. left. exact H.
      * left. right. split; assumption.
      * right. exists p. auto.
Qed.

Lemma LoadAllowedUsers_lookup (raw : string) (id : Z) :
  Auth.lookup (Auth.LoadAllowedUsers lib raw) id = true <-> Auth.listed lib raw id.
Proof.
  unfold Auth.LoadAllowedUsers, Auth.listed.
  destruct (String.eqb_spec raw "") as [Hempty | Hfull].
  - simpl. split; [discriminate | intros [H _]; contradiction].
  - set (allowed := List.fold_left (Auth.add_piece lib) (Auth.Split raw ",") ZSet.empty).
    assert (Hin : ZSet.In id allowed
                  <-> exists piece : string,
                        In piece (Auth.Split raw ",")
                        /\ TrimSpace lib piece <> ""%string
                        /\ Auth.ParseInt (TrimSpace lib piece) = Some id).
    { subst allowed. rewrite fold_add_piece_In. split; [ | auto].
      intros [H | H]; [ | exact H]. apply ZSet.empty_spec in H. contradiction. }
    destruct (ZSet.is_empty allowed) eqn:He; simpl.
    + apply ZSet.is_empty_spec in He. split; [discriminate | ].
      intros [_ H]. apply Hin in H. apply He in H. contradiction.
    + rewrite ZSet.mem_spec, Hin. split; [intros H; split; assumption | intros [_ H]; exact H].
Qed.

Lemma LoadAllowedUsers_is_empty (raw : string) :
  Auth.is_empty (Auth.LoadAllowedUsers lib raw) = true
  <-> forall id : Z, ~ Auth.listed lib raw id.
Proof.
  split.
  - intros Hempty id Hlisted. apply LoadAllowedUsers_lookup in Hlisted.
    unfold Auth.is_empty, Auth.lookup in *.
    destruct (Auth.LoadAllowedUsers lib raw) as [ids | ]; [ | discriminate].
    apply ZSet.is_empty_spec in Hempty. apply ZSet.mem_spec in Hlisted.
    apply Hempty in Hlisted. contradiction.
  - intros Hnone. unfold Auth.is_empty.
    destruct (Auth.LoadAllowedUsers lib raw) as [ids | ] eqn:Hload; [ | reflexivity].
    apply ZSet.is_empty_spec. intros id Hid. apply (Hnone id).
    apply LoadAllowedUsers_lookup. rewrite Hload. simpl.
    apply ZSet.mem_spec. exact Hid.
Qed.

(** X15. With the whitelist that [LoadAllowedUsers] reads from
    SUSHE_ALLOWED_USERS, [AuthMiddleware] passes an update to the next
    handler exactly when the variable lists no valid id at all (it is
    unset, empty, or holds only empty and invalid pieces: every update then
    passes, also one without sender), or the update has a sender whose id
    is listed; an id is listed when one of the pieces between the commas,
    trimmed, is a decimal [int64] with that value, whatever the order and
    the repetitions of the pieces. *)
Theorem AuthMiddleware_admits (raw : string) (sender : option Auth.User) :
  Auth.AuthMiddleware lib (Auth.LoadAllowedUsers lib raw) sender = Auth.Next
  <-> (forall id : Z, ~ Auth.listed lib raw id)
      \/ (exists user : Auth.User,
            sender = Some user /\ Auth.listed lib raw (Auth.ID user)).
Proof.
  unfold Auth.AuthMiddleware.
  pose proof (LoadAllowedUsers_is_empty raw) as Hempty.
  destruct (Auth.is_empty (Auth.LoadAllowedUsers lib raw)).
  - split; [ | reflexivity]. intros _. left. apply Hempty. reflexivity.
  - assert (Hsome : ~ (forall id : Z, ~ Auth.listed lib raw id)).
    { intros Hnone. apply Hempty in Hnone. discriminate Hnone. }
    destruct sender as [user | ].
    + pose proof (LoadAllowedUsers_lookup raw (Auth.ID user)) as Hlookup.
      destruct (Auth.lookup (Auth.LoadAllowedUsers lib raw) (Auth.ID user)).
      * split; [ | reflexivity]. intros _. right. exists user.
        split; [reflexivity | apply Hlookup; reflexivity].
      * split; [discriminate | ].
        intros [Hnone | (user' & [= <-] & Hlisted)]; [contradiction | ].
        apply Hlookup in Hlisted. discriminate Hlisted.
    + split; [discriminate | ].
      intros [Hnone | (user & Hsender & _)]; [contradiction | discriminate Hsender].
Qed.

End Whitelist.

(** Two ids with blanks, an empty piece and a piece that is no number: the
    listed sender passes, another sender is logged as unauthorized under
    his first and last name, and an update without sender is dropped.
    When no piece is a valid id, everybody passes. *)
Example AuthMiddleware_examples :
  Auth.AuthMiddleware Scripted.lib
    (Auth.LoadAllowedUsers Scripted.lib "306600687, 1352262047,,abc")
    (Some {| Auth.ID := 1352262047; Auth.Username := "ann";
             Auth.FirstName := ""; Auth.LastName := "" |})
  = Auth.Next
  /\ Auth.AuthMiddleware Scripted.lib
       (Auth.LoadAllowedUsers Scripted.lib "306600687, 1352262047,,abc")
       (Some {| Auth.ID := 7; Auth.Username := "";
                Auth.FirstName := "Bob"; Auth.LastName := "" |})
     = Auth.Unauthorized 7 "Bob"
  /\ Auth.AuthMiddleware Scripted.lib
       (Auth.LoadAllowedUsers Scripted.lib "306600687, 1352262047,,abc") None
     = Auth.Silent
  /\ Auth.AuthMiddleware Scripted.lib (Auth.LoadAllowedUsers Scripted.lib "abc, ,12x")
       (Some {| Auth.ID := 7; Auth.Username := "";
                Auth.FirstName := "Bob"; Auth.LastName := "" |})
     = Auth.Next
  /\ Auth.AuthMiddleware Scripted.lib (Auth.LoadAllowedUsers Scripted.lib "") None
     = Auth.Next.
Proof. vm_compute. repeat split. Qed.

(** ** The bot service: how a run is put together *)

Section Runs.

Import Service.

Context {W S : Type}.
Variable lib : GoLib.
Variable os : OS W.
Variable api : API S.
Variable downloader : Downloader.

Local Abbreviation SM := (@Service.SM W S).

Lemma bind_inv {A B : Type} (m : SM A) (k : A -> SM B) (ws ws2 : W * S) (b : B)
    (l : list Action) :
  bind m k ws = (b, ws2, l) ->
  exists (a : A) (ws1 : W * S) (l1 l2 : list Action),
    m ws = (a, ws1, l1) /\ k a ws1 = (b, ws2, l2) /\ l = (l1 ++ l2)%list.
Proof.
  unfold bind. destruct (m ws) as [[a ws1] l1].
  destruct (k a ws1) as [[b' ws2'] l2] eqn:Hk. intros [= <- <- <-].
  exists a, ws1, l1, l2. split; [reflexivity | ]. split; [exact Hk | reflexivity].
Qed.

Lemma ret_inv {A : Type} (a b : A) (ws ws' : W * S) (l : list Action) :
  ret a ws = (b, ws', l) -> b = a /\ ws' = ws /\ l = [].
Proof. unfold ret. intros [= <- <- <-]. repeat split. Qed.

Lemma act_inv (a : Action) (u : unit) (ws ws' : W * S) (l : list Action) :
  act a ws = (u, ws', l) -> ws' = ws /\ l = [a].
Proof. unfold act. intros [= _ <- <-]. split; reflexivity. Qed.

Lemma Now_inv (t : Z) (ws ws' : W * S) (l : list Action) :
  Now api ws = (t, ws', l) -> fst ws' = fst ws /\ l = [AClock t].
Proof.
  unfold Now. destruct (api_Now api (snd ws)) as [t' s']. intros [= <- <- <-].
  split; reflexivity.
Qed.

Lemma Send_inv (what : Payload) (replyTo : option Message) (answer : result Message)
    (ws ws' : W * S) (l : list Action) :
  Send api what replyTo ws = (answer, ws', l) ->
  fst ws' = fst ws /\ l = [ASend what replyTo answer]
  /\ api_Send api what replyTo (snd ws) = (answer, snd ws').
Proof.
  unfold Send. destruct (api_Send api what replyTo (snd ws)) as [a s'].
  intros [= <- <- <-]. repeat split.
Qed.

Lemma Edit_inv (msg : Message) (text : Status) (ok : bool)
    (ws ws' : W * S) (l : list Action) :
  Edit api msg text ws = (ok, ws', l) -> fst ws' = fst ws /\ l = [AEdit msg text ok].
Proof.
  unfold Edit. destruct (api_Edit api msg text (snd ws)) as [a s'].
  intros [= <- <- <-]. split; reflexivity.
Qed.

Lemma Delete_inv (msg : Message) (u : unit) (ws ws' : W * S) (l : list Action) :
  Delete api msg ws = (u, ws', l) -> fst ws' = fst ws /\ l = [ADelete msg].
Proof. unfold Delete. intros [= _ <- <-]. split; reflexivity. Qed.

Lemma Open_inv (path : string) (answer : result unit)
    (ws ws' : W * S) (l : list Action) :
  Open api path ws = (answer, ws', l) -> fst ws' = fst ws /\ l = [AOpen path answer].
Proof.
  unfold Open. destruct (api_Open api path (snd ws)) as [a s'].
  intros [= <- <- <-]. split; reflexivity.
Qed.

Lemma Close_inv (path : string) (u : unit) (ws ws' : W * S) (l : list Action) :
  Close api path ws = (u, ws', l) -> fst ws' = fst ws /\ l = [AClose path].
Proof. unfold Close. intros [= _ <- <-]. split; reflexivity. Qed.

Lemma Reads_inv (video : Payload) (reads : list Z) (ws ws' : W * S) (l : list Action) :
  Reads api video ws = (reads, ws', l) -> fst ws' = fst ws /\ l = [].
Proof.
  unfold Reads. destruct (api_reads api video (snd ws)) as [r s'].
  intros [= <- <- <-]. split; reflexivity.
Qed.

Lemma lift_inv {A : Type} (m : @M W A) (a : A) (ws ws' : W * S) (l : list Action) :
  lift m ws = (a, ws', l) ->
  exists log : list Effect,
    m (fst ws) = (a, fst ws', log) /\ snd ws' = snd ws /\ l = List.map APipeline log.
Proof.
  unfold lift. destruct (m (fst ws)) as [[a' w'] log]. intros [= <- <- <-].
  exists log. repeat split.
Qed.

(** The callbacks only report: they read the clock and edit the status
    message, and they leave the world of the downloader alone. *)
Lemma progressCb_inv (statusMsg : Message) (st st' : Bot.Limiter) (p : Progress.t)
    (ws ws' : W * S) (l : list Action) :
  progressCb api statusMsg st p ws = (st', ws', l) ->
  fst ws' = fst ws /\ Forall (fun a => is_report a = true) l /\ pipeline l = [].
Proof.
  unfold progressCb. intros H.
  apply bind_inv in H. destruct H as (now & ws1 & l1 & l2 & Hnow & H & ->).
  apply Now_inv in Hnow. destruct Hnow as [Hw ->].
  destruct (Bot.skipped st now p).
  - apply ret_inv in H. destruct H as (_ & -> & ->).
    split; [exact Hw | ]. split; [repeat constructor | reflexivity].
  - apply bind_inv in H. destruct H as (ok & ws2 & l3 & l4 & Hedit & H & ->).
    apply Edit_inv in Hedit. destruct Hedit as [Hw2 ->].
    apply ret_inv in H. destruct H as (_ & -> & ->).
    split; [congruence | ]. split; [repeat constructor | reflexivity].
Qed.

Lemma relay_inv (statusMsg : Message) (log : list Effect) :
  forall (st st' : Bot.Limiter) (ws ws' : W * S) (l : list Action),
    relay api statusMsg st log ws = (st', ws', l) ->
    fst ws' = fst ws /\ Forall (fun a => is_report a = true) l /\ pipeline l = log.
Proof.
  induction log as [ | e rest IH]; intros st st' ws ws' l H; simpl in H.
  - apply ret_inv in H. destruct H as (_ & -> & ->).
    split; [reflexivity | ]. split; [constructor | reflexivity].
  - apply bind_inv in H. destruct H as (u & ws1 & l1 & l2 & Hact & H & ->).
    apply act_inv in Hact. destruct Hact as [-> ->].
    destruct e as [t | path ok | path | path | pattern r | path r | name args | p];
      try (destruct (IH _ _ _ _ _ H) as (Hw & Hrep & Hpipe);
           split; [exact Hw | ]; split;
           [ constructor; [reflexivity | exact Hrep]
           | unfold pipeline in *; simpl; rewrite Hpipe; reflexivity ]).
    apply bind_inv in H. destruct H as (st1 & ws2 & l3 & l4 & Hcb & H & ->).
    apply progressCb_inv in Hcb. destruct Hcb as (Hw1 & Hrep1 & Hpipe1).
    destruct (IH _ _ _ _ _ H) as (Hw2 & Hrep2 & Hpipe2).
    split; [congruence | ]. split.
    + constructor; [reflexivity | ]. apply Forall_app. split; assumption.
    + unfold pipeline in *. simpl. rewrite filter_map_app, Hpipe1, Hpipe2. reflexivity.
Qed.

End Runs.

Section Uploads.

Import Service.

Context {W S : Type}.
Variable lib : GoLib.
Variable os : OS W.
Variable api : API S.
Variable downloader : Downloader.

Lemma with_progress_inv {A : Type} (statusMsg : Message) (st st' : Bot.Limiter)
    (m : @M W A) (a : A) (ws ws' : W * S) (l : list Action) :
  with_progress api statusMsg st m ws = ((a, st'), ws', l) ->
  exists log : list Effect,
    m (fst ws) = (a, fst ws', log)
    /\ Forall (fun x => is_report x = true) l /\ pipeline l = log.
Proof.
  unfold with_progress. destruct (m (fst ws)) as [[a0 w'] log].
  destruct (relay api statusMsg st log (w', snd ws)) as [[st0 ws0] acts] eqn:Hrelay.
  intros [= <- <- <- <-].
  apply relay_inv in Hrelay. destruct Hrelay as (Hw & Hrep & Hpipe).
  exists log. cbn [fst] in Hw. rewrite Hw. repeat split; assumption.
Qed.

Lemma upload_reads_inv (statusMsg : Message) (part : option (Z * Z)) (title : string)
    (reads : list Z) :
  forall (pr : Upload.ProgressReader) (st : Bot.Limiter) (u : unit)
         (ws ws' : W * S) (l : list Action),
    upload_reads api statusMsg part title pr st reads ws = (u, ws', l) ->
    fst ws' = fst ws /\ Forall (fun x => is_report x = true) l.
Proof.
  induction reads as [ | n rest IH]; intros pr st u ws ws' l H; simpl in H.
  - apply ret_inv in H. destruct H as (_ & -> & ->). split; [reflexivity | constructor].
  - apply bind_inv in H. destruct H as (u1 & ws1 & l1 & l2 & Hact & H & ->).
    apply act_inv in Hact. destruct Hact as [-> ->].
    destruct (Upload.onProgress pr).
    + apply bind_inv in H. destruct H as (now & ws2 & l3 & l4 & Hnow & H & ->).
      apply Now_inv in Hnow. destruct Hnow as [Hw2 ->].
      destruct (Upload.skipped st now _).
      * apply IH in H. destruct H as [Hw Hrep].
        split; [congruence | ]. repeat (constructor; [reflexivity | ]). exact Hrep.
      * apply bind_inv in H. destruct H as (ok & ws3 & l5 & l6 & Hedit & H & ->).
        apply Edit_inv in Hedit. destruct Hedit as [Hw3 ->].
        apply IH in H. destruct H as [Hw Hrep].
        split; [congruence | ]. repeat (constructor; [reflexivity | ]). exact Hrep.
    + apply IH in H. destruct H as [Hw Hrep].
      split; [exact Hw | ]. constructor; [reflexivity | exact Hrep].
Qed.

Lemma send_video_inv (statusMsg : Message) (part : option (Z * Z)) (title : string)
    (total : Z) (video : Payload) (replyTo : option Message) (answer : result Message)
    (ws ws' : W * S) (l : list Action) :
  send_video api statusMsg part title total video replyTo ws = (answer, ws', l) ->
  fst ws' = fst ws
  /\ exists pre : list Action,
       l = (pre ++ [ASend video replyTo answer])%list
       /\ Forall (fun x => is_report x = true) pre.
Proof.
  unfold send_video. intros H.
  apply bind_inv in H. destruct H as (reads & ws1 & l1 & l2 & Hreads & H & ->).
  apply Reads_inv in Hreads. destruct Hreads as [Hw1 ->].
  apply bind_inv in H. destruct H as (u & ws2 & l3 & l4 & Hup & H & ->).
  apply upload_reads_inv in Hup. destruct Hup as [Hw2 Hrep].
  apply Send_inv in H. destruct H as (Hw3 & -> & _).
  split; [congruence | ]. exists l3. split; [reflexivity | exact Hrep].
Qed.

Lemma finish_inv (c : Context) (statusMsg : Message) (out : Outcome)
    (ws ws' : W * S) (l : list Action) :
  finish api c statusMsg ws = (out, ws', l) ->
  fst ws' = fst ws /\ l = [ADelete statusMsg] /\ out = ended c.
Proof.
  unfold finish, ended. intros H.
  apply bind_inv in H. destruct H as (u & ws1 & l1 & l2 & Hdel & H & ->).
  apply Delete_inv in Hdel. destruct Hdel as [Hw ->].
  destruct (Sender c); apply ret_inv in H; destruct H as (-> & -> & ->);
    repeat split; assumption.
Qed.

Lemma skeleton_app (l1 l2 : list Action) :
  skeleton (l1 ++ l2) = (skeleton l1 ++ skeleton l2)%list.
Proof. apply filter_app. Qed.

Lemma skeleton_reports (l : list Action) :
  Forall (fun x => is_report x = true) l -> skeleton l = [].
Proof.
  induction 1 as [ | a rest Ha _ IH]; [reflexivity | ].
  unfold skeleton in *. simpl. rewrite Ha. exact IH.
Qed.

(** A projection that ignores the progress reporting sees the skeleton. *)
Lemma proj_skeleton {B : Type} (f : Action -> option B) (l : list Action) :
  (forall a : Action, is_report a = true -> f a = None) ->
  filter_map f (skeleton l) = filter_map f l.
Proof.
  intros Hf. induction l as [ | a rest IH]; [reflexivity | ].
  unfold skeleton in *. simpl. destruct (is_report a) eqn:Ha; simpl.
  - rewrite (Hf a Ha). exact IH.
  - destruct (f a); rewrite IH; reflexivity.
Qed.

Lemma sends_skeleton (l : list Action) : sends (skeleton l) = sends l.
Proof. apply proj_skeleton. intros [ ] H; try discriminate H; reflexivity. Qed.

Lemma deletes_skeleton (l : list Action) : deletes (skeleton l) = deletes l.
Proof. apply proj_skeleton. intros [ ] H; try discriminate H; reflexivity. Qed.

Lemma delivered_skeleton (l : list Action) : delivered (skeleton l) = delivered l.
Proof. apply proj_skeleton. intros [ ] H; try discriminate H; reflexivity. Qed.

(** The five ways of [uploadSingleVideo], by what is left of its log
    without the progress reporting. *)
Lemma uploadSingleVideo_skeleton (c : Context) (statusMsg : Message)
    (res : DownloadResult.t) (out : Outcome) (ws ws' : W * S) (log : list Action) :
  uploadSingleVideo api c statusMsg res ws = (out, ws', log) ->
  let path := DownloadResult.FilePath res in
  let video := PVideo path (DownloadResult.FileName res) (DownloadResult.Title res)
                      (DownloadResult.Width res) (DownloadResult.Height res) in
  let doc := PDocument path (DownloadResult.FileName res) (DownloadResult.Title res) in
  fst ws' = fst ws
  /\ ((exists e, skeleton log = [AOpen path (Err e)] /\ out = Failed e)
      \/ (exists m,
            skeleton log = [AOpen path (Ok tt); ASend video None (Ok m);
                            ADelete statusMsg; AClose path]
            /\ out = ended c)
      \/ (exists e e2,
            skeleton log = [AOpen path (Ok tt); ASend video None (Err e);
                            AOpen path (Err e2); AClose path]
            /\ out = Failed e)
      \/ (exists e e2,
            skeleton log = [AOpen path (Ok tt); ASend video None (Err e);
                            AOpen path (Ok tt); ASend doc None (Err e2);
                            AClose path; AClose path]
            /\ out = Failed e2)
      \/ (exists e m,
            skeleton log = [AOpen path (Ok tt); ASend video None (Err e);
                            AOpen path (Ok tt); ASend doc None (Ok m);
                            ADelete statusMsg; AClose path; AClose path]
            /\ out = ended c)).
Proof.
  unfold uploadSingleVideo. intros H. cbv zeta.
  apply bind_inv in H. destruct H as (ok0 & ws1 & l1 & l2 & Hedit & H & ->).
  apply Edit_inv in Hedit. destruct Hedit as [Hw1 ->].
  apply bind_inv in H. destruct H as (opened & ws2 & l3 & l4 & Hopen & H & ->).
  apply Open_inv in Hopen. destruct Hopen as [Hw2 ->].
  destruct opened as [[] | e].
  2:{ apply bind_inv in H. destruct H as (ok1 & ws3 & l5 & l6 & Hedit & H & ->).
      apply Edit_inv in Hedit. destruct Hedit as [Hw3 ->].
      apply ret_inv in H. destruct H as (-> & -> & ->).
      split; [congruence | ]. left. exists e. split; reflexivity. }
  apply bind_inv in H. destruct H as (sent & ws3 & l5 & l6 & Hsend & H & ->).
  apply send_video_inv in Hsend. destruct Hsend as (Hw3 & pre & -> & Hpre).
  apply skeleton_reports in Hpre.
  destruct sent as [m | e].
  { apply bind_inv in H. destruct H as (out1 & ws4 & l7 & l8 & Hfin & H & ->).
    apply finish_inv in Hfin. destruct Hfin as (Hw4 & -> & ->).
    apply bind_inv in H. destruct H as (u & ws5 & l9 & l10 & Hclose & H & ->).
    apply Close_inv in Hclose. destruct Hclose as [Hw5 ->].
    apply ret_inv in H. destruct H as (-> & -> & ->).
    split; [congruence | ]. right. left. exists m. split; [ | reflexivity].
    rewrite !skeleton_app, Hpre. reflexivity. }
  apply bind_inv in H. destruct H as (opened2 & ws4 & l7 & l8 & Hopen & H & ->).
  apply Open_inv in Hopen. destruct Hopen as [Hw4 ->].
  destruct opened2 as [[] | e2].
  2:{ apply bind_inv in H. destruct H as (ok1 & ws5 & l9 & l10 & Hedit & H & ->).
      apply Edit_inv in Hedit. destruct Hedit as [Hw5 ->].
      apply bind_inv in H. destruct H as (u & ws6 & l11 & l12 & Hclose & H & ->).
      apply Close_inv in Hclose. destruct Hclose as [Hw6 ->].
      apply ret_inv in H. destruct H as (-> & -> & ->).
      split; [congruence | ]. right. right. left. exists e, e2.
      split; [ | reflexivity]. rewrite !skeleton_app, Hpre. reflexivity. }
  apply bind_inv in H. destruct H as (sent2 & ws5 & l9 & l10 & Hsend & H & ->).
  apply Send_inv in Hsend. destruct Hsend as (Hw5 & -> & _).
  destruct sent2 as [m | e2].
  - apply bind_inv in H. destruct H as (out1 & ws6 & l11 & l12 & Hfin & H & ->).
    apply finish_inv in Hfin. destruct Hfin as (Hw6 & -> & ->).
    apply bind_inv in H. destruct H as (u & ws7 & l13 & l14 & Hclose & H & ->).
    apply Close_inv in Hclose. destruct Hclose as [Hw7 ->].
    apply bind_inv in H. destruct H as (u' & ws8 & l15 & l16 & Hclose & H & ->).
    apply Close_inv in Hclose. destruct Hclose as [Hw8 ->].
    apply ret_inv in H. destruct H as (-> & -> & ->).
    split; [congruence | ]. right. right. right. right. exists e, m.
    split; [ | reflexivity]. rewrite !skeleton_app, Hpre. reflexivity.
  - apply bind_inv in H. destruct H as (ok1 & ws6 & l11 & l12 & Hedit & H & ->).
    apply Edit_inv in Hedit. destruct Hedit as [Hw6 ->].
    apply bind_inv in H. destruct H as (u & ws7 & l13 & l14 & Hclose & H & ->).
    apply Close_inv in Hclose. destruct Hclose as [Hw7 ->].
    apply bind_inv in H. destruct H as (u' & ws8 & l15 & l16 & Hclose & H & ->).
    apply Close_inv in Hclose. destruct Hclose as [Hw8 ->].
    apply ret_inv in H. destruct H as (-> & -> & ->).
    split; [congruence | ]. right. right. right. left. exists e, e2.
    split; [ | reflexivity]. rewrite !skeleton_app, Hpre. reflexivity.
Qed.

End Uploads.

Section Parts.

Import Service.

Context {W S : Type}.
Variable lib : GoLib.
Variable os : OS W.
Variable api : API S.
Variable downloader : Downloader.

Lemma sends_app (l1 l2 : list Action) : sends (l1 ++ l2) = (sends l1 ++ sends l2)%list.
Proof. apply filter_map_app. Qed.

Lemma deletes_app (l1 l2 : list Action) :
  deletes (l1 ++ l2) = (deletes l1 ++ deletes l2)%list.
Proof. apply filter_map_app. Qed.

Lemma delivered_app (l1 l2 : list Action) :
  delivered (l1 ++ l2) = (delivered l1 ++ delivered l2)%list.
Proof. apply filter_map_app. Qed.

Lemma sends_reports (l : list Action) :
  Forall (fun x => is_report x = true) l -> sends l = [].
Proof. intros H. rewrite <- sends_skeleton, (skeleton_reports l H). reflexivity. Qed.

Lemma deletes_reports (l : list Action) :
  Forall (fun x => is_report x = true) l -> deletes l = [].
Proof. intros H. rewrite <- deletes_skeleton, (skeleton_reports l H). reflexivity. Qed.

Lemma delivered_reports (l : list Action) :
  Forall (fun x => is_report x = true) l -> delivered l = [].
Proof. intros H. rewrite <- delivered_skeleton, (skeleton_reports l H). reflexivity. Qed.

(** The loop over the parts: it deletes nothing, every send replies to
    the last message that was sent, only videos and documents are sent,
    and when the loop ends without error every part has been delivered, in
    order, as its video or as its document. *)
Lemma upload_parts_inv (statusMsg : Message) (res : DownloadResult.t) (totalParts : Z)
    (parts : list PartInfo.t) :
  forall (i : Z) (prevMsg : option Message) (failed : option string)
         (ws ws' : W * S) (log : list Action),
    upload_parts api statusMsg res totalParts i prevMsg parts ws = (failed, ws', log) ->
    fst ws' = fst ws
    /\ deletes log = []
    /\ threaded prevMsg (sends log)
    /\ Forall (fun x => is_upload (fst (fst x)) = true) (sends log)
    /\ (failed = None ->
        Forall2 (sent_as res totalParts) (delivered log) (indexed i parts)).
Proof.
  induction parts as [ | part rest IH]; intros i prevMsg failed ws ws' log H; simpl in H.
  - apply ret_inv in H. destruct H as (-> & -> & ->).
    repeat split; try constructor.
  - apply bind_inv in H. destruct H as (ok0 & ws1 & l1 & l2 & Hedit & H & ->).
    apply Edit_inv in Hedit. destruct Hedit as [Hw1 ->].
    apply bind_inv in H. destruct H as (opened & ws2 & l3 & l4 & Hopen & H & ->).
    apply Open_inv in Hopen. destruct Hopen as [Hw2 ->].
    destruct opened as [[] | e].
    2:{ apply bind_inv in H. destruct H as (ok1 & ws3 & l5 & l6 & Hedit & H & ->).
        apply Edit_inv in Hedit. destruct Hedit as [Hw3 ->].
        apply ret_inv in H. destruct H as (-> & -> & ->).
        split; [congruence | ]. repeat split; try constructor. discriminate. }
    apply bind_inv in H. destruct H as (sent & ws3 & l5 & l6 & Hsend & H & ->).
    apply send_video_inv in Hsend. destruct Hsend as (Hw3 & pre & -> & Hpre).
    apply bind_inv in H. destruct H as (u & ws4 & l7 & l8 & Hclose & H & ->).
    apply Close_inv in Hclose. destruct Hclose as [Hw4 ->].
    rewrite !sends_app, !deletes_app, !delivered_app.
    rewrite (sends_reports pre Hpre), (deletes_reports pre Hpre),
      (delivered_reports pre Hpre).
    cbn [sends deletes delivered filter_map app].
    destruct sent as [m | e].
    { apply IH in H. destruct H as (Hw & Hdel & Hthr & Hup & Hall).
      split; [congruence | ]. split; [exact Hdel | ].
      split; [split; [reflexivity | exact Hthr] | ].
      split; [constructor; [reflexivity | exact Hup] | ].
      intros Hnone. constructor; [left; reflexivity | exact (Hall Hnone)]. }
    apply bind_inv in H. destruct H as (opened2 & ws5 & l9 & l10 & Hopen & H & ->).
    apply Open_inv in Hopen. destruct Hopen as [Hw5 ->].
    destruct opened2 as [[] | e2].
    2:{ apply bind_inv in H. destruct H as (ok1 & ws6 & l11 & l12 & Hedit & H & ->).
        apply Edit_inv in Hedit. destruct Hedit as [Hw6 ->].
        apply ret_inv in H. destruct H as (-> & -> & ->).
        split; [congruence | ]. cbn [sends deletes delivered filter_map app].
        repeat split; try constructor; try reflexivity; try constructor.
        discriminate. }
    apply bind_inv in H. destruct H as (sent2 & ws6 & l11 & l12 & Hsend & H & ->).
    apply Send_inv in Hsend. destruct Hsend as (Hw6 & -> & _).
    apply bind_inv in H. destruct H as (u' & ws7 & l13 & l14 & Hclose & H & ->).
    apply Close_inv in Hclose. destruct Hclose as [Hw7 ->].
    rewrite !sends_app, !deletes_app, !delivered_app.
    cbn [sends deletes delivered filter_map app].
    destruct sent2 as [m | e2].
    + apply IH in H. destruct H as (Hw & Hdel & Hthr & Hup & Hall).
      split; [congruence | ]. split; [exact Hdel | ].
      split; [split; [reflexivity | split; [reflexivity | exact Hthr]] | ].
      split; [constructor; [reflexivity | constructor; [reflexivity | exact Hup]] | ].
      intros Hnone. constructor; [right; reflexivity | exact (Hall Hnone)].
    + apply bind_inv in H. destruct H as (ok1 & ws8 & l15 & l16 & Hedit & H & ->).
      apply Edit_inv in Hedit. destruct Hedit as [Hw8 ->].
      apply ret_inv in H. destruct H as (-> & -> & ->).
      split; [congruence | ]. cbn [sends deletes delivered filter_map app].
      repeat split; try constructor; try reflexivity; try constructor;
        try reflexivity; try constructor.
      discriminate.
Qed.

End Parts.

(** ** The bot service: a video that is split *)

Section LargeVideo.

Import Service.

Context {W S : Type}.
Variable lib : GoLib.
Variable os : OS W.
Variable api : API S.
Variable downloader : Downloader.

(** [handleLargeVideo] is the split, reported through [progressCb], then
    the loop over the parts, then the end of a successful upload. *)
Lemma handleLargeVideo_inv (c : Context) (statusMsg : Message) (res : DownloadResult.t)
    (st : Bot.Limiter) (out : Outcome) (ws ws' : W * S) (log : list Action) :
  handleLargeVideo lib os api c statusMsg res st ws = (out, ws', log) ->
  exists (r : result (list PartInfo.t)) (w1 : W) (slog : list Effect)
         (lsplit lrest : list Action),
    SplitVideo lib os (DownloadResult.FilePath res) true (fst ws) = (r, w1, slog)
    /\ log = (lsplit ++ lrest)%list
    /\ Forall (fun x => is_report x = true) lsplit
    /\ fst ws' = w1
    /\ match r with
       | Err e => out = Failed e /\ Forall (fun x => is_report x = true) lrest
       | Ok parts =>
           exists (failed : option string) (ws1 ws2 : W * S) (lup lfin : list Action),
             upload_parts api statusMsg res (Z.of_nat (List.length parts)) 0 None parts ws1
             = (failed, ws2, lup)
             /\ lrest = (lup ++ lfin)%list
             /\ match failed with
                | Some e => out = Failed e /\ lfin = []
                | None => out = ended c /\ lfin = [ADelete statusMsg]
                end
       end.
Proof.
  unfold handleLargeVideo. intros H. cbv zeta in H.
  apply bind_inv in H. destruct H as (ok0 & ws1 & l1 & l2 & Hedit & H & ->).
  apply Edit_inv in Hedit. destruct Hedit as [Hw1 ->].
  apply bind_inv in H. destruct H as ([r st'] & ws2 & l3 & l4 & Hsplit & H & ->).
  apply with_progress_inv in Hsplit. destruct Hsplit as (slog & Hrun & Hrep & Hpipe).
  rewrite Hw1 in Hrun. cbn [fst] in H.
  exists r, (fst ws2), slog,
    (AEdit statusMsg
       (SSplitting (formatSize (DownloadResult.FileSize res))
                   (CalculateNumParts (DownloadResult.FileSize res))) ok0 :: l3), l4.
  split; [exact Hrun | ]. split; [reflexivity | ].
  split; [constructor; [reflexivity | exact Hrep] | ].
  destruct r as [parts | e].
  - apply bind_inv in H. destruct H as (failed & ws3 & l5 & l6 & Hup & H & ->).
    pose proof (upload_parts_inv api statusMsg res _ parts _ _ _ _ _ _ Hup) as (Hw3 & _).
    destruct failed as [e | ].
    + apply ret_inv in H. destruct H as (-> & -> & ->).
      split; [congruence | ].
      exists (Some e), ws2, ws3, l5, []. repeat split. exact Hup.
    + apply finish_inv in H. destruct H as (Hw4 & -> & ->).
      split; [congruence | ].
      exists None, ws2, ws3, l5, [ADelete statusMsg]. repeat split. exact Hup.
  - apply bind_inv in H. destruct H as (ok1 & ws3 & l5 & l6 & Hedit & H & ->).
    apply Edit_inv in Hedit. destruct Hedit as [Hw3 ->].
    apply ret_inv in H. destruct H as (-> & -> & ->).
    split; [congruence | ]. split; [reflexivity | repeat constructor].
Qed.

Lemma handleLargeVideo_sends (c : Context) (statusMsg : Message)
    (res : DownloadResult.t) (st : Bot.Limiter) (out : Outcome)
    (ws ws' : W * S) (log : list Action) :
  handleLargeVideo lib os api c statusMsg res st ws = (out, ws', log) ->
  threaded None (sends log)
  /\ Forall (fun x => is_upload (fst (fst x)) = true) (sends log).
Proof.
  intros H. apply handleLargeVideo_inv in H.
  destruct H as (r & w1 & slog & lsplit & lrest & _ & -> & Hsplit & _ & Hr).
  rewrite sends_app, (sends_reports lsplit Hsplit). cbn [app].
  destruct r as [parts | e].
  - destruct Hr as (failed & ws1 & ws2 & lup & lfin & Hup & -> & Hfin).
    apply upload_parts_inv in Hup. destruct Hup as (_ & _ & Hthr & Hupl & _).
    assert (Hlfin : sends lfin = []).
    { destruct failed as [e | ]; destruct Hfin as [_ ->]; reflexivity. }
    rewrite sends_app, Hlfin, app_nil_r. split; assumption.
  - destruct Hr as [_ Hrest]. rewrite (sends_reports lrest Hrest).
    split; constructor.
Qed.

(** X17. The parts of a split video are threaded: in every run of
    [handleLargeVideo] the first part is sent without reply target and
    every later send replies to the message of the last send that
    succeeded; a document that replaces a refused video replies to the same
    message as the video did.  Nothing but videos and documents is sent. *)
Theorem handleLargeVideo_threads (c : Context) (statusMsg : Message)
    (res : DownloadResult.t) (st : Bot.Limiter) (ws : W * S) :
  threaded None (sends (snd (handleLargeVideo lib os api c statusMsg res st ws)))
  /\ Forall (fun x => is_upload (fst (fst x)) = true)
       (sends (snd (handleLargeVideo lib os api c statusMsg res st ws))).
Proof.
  destruct (handleLargeVideo lib os api c statusMsg res st ws) as [[out ws'] log] eqn:H.
  cbn [snd]. exact (handleLargeVideo_sends c statusMsg res st out ws ws' log H).
Qed.

(** X18. When [handleLargeVideo] does not fail, every part of the
    manifest of [SplitVideo] has been delivered exactly once, in the order
    of the manifest, as a video or as a document; the caption and the file
    name of the part at position [k] (from 1) say "Part k/n" and
    "_part<k>.mp4", with [n] the length of the manifest, whatever the
    [PartNum] of the manifest is. *)
Theorem handleLargeVideo_delivers (c : Context) (statusMsg : Message)
    (res : DownloadResult.t) (st : Bot.Limiter) (out : Outcome)
    (ws ws' : W * S) (log : list Action)
    (parts : list PartInfo.t) (w1 : W) (slog : list Effect) :
  handleLargeVideo lib os api c statusMsg res st ws = (out, ws', log) ->
  SplitVideo lib os (DownloadResult.FilePath res) true (fst ws) = (Ok parts, w1, slog) ->
  (forall e : string, out <> Failed e) ->
  Forall2 (sent_as res (Z.of_nat (List.length parts))) (delivered log) (indexed 0 parts)
  /\ deletes log = [statusMsg].
Proof.
  intros H Hsplit Hout.
  apply handleLargeVideo_inv in H.
  destruct H as (r & w1' & slog' & lsplit & lrest & Hrun & -> & Hrep & _ & Hr).
  rewrite Hsplit in Hrun. injection Hrun as <- <- <-.
  destruct Hr as (failed & ws1 & ws2 & lup & lfin & Hup & -> & Hfin).
  apply upload_parts_inv in Hup. destruct Hup as (_ & Hdel & _ & _ & Hall).
  destruct failed as [e | ]; [destruct Hfin as [-> _]; exfalso; apply (Hout e); reflexivity | ].
  destruct Hfin as [_ ->].
  rewrite !delivered_app, !deletes_app, (delivered_reports lsplit Hrep),
    (deletes_reports lsplit Hrep), Hdel.
  cbn [delivered deletes filter_map app]. rewrite app_nil_r.
  split; [apply Hall; reflexivity | reflexivity].
Qed.

End LargeVideo.

Lemma handleLargeVideo_delivers_witness :
  Service.delivered
    (snd (Service.handleLargeVideo Scripted.lib (Scripted.os (split_script stat_but_second))
            (ScriptedAPI.api ScriptedAPI.documents_only)
            {| Service.Text := "https://youtu.be/a"; Service.Sender := Some ann |}
            1 large_result Bot.initial ([], 2)))
  = [ Service.PDocument "/tmp/sushe/1/v_part000.mp4" "v_part1.mp4"
        (Service.part_caption "v" 1 2);
      Service.PDocument "/tmp/sushe/1/v_part002.mp4" "v_part2.mp4"
        (Service.part_caption "v" 2 2) ]
  /\ Forall2 (Service.sent_as large_result 2)
       (Service.delivered
          (snd (Service.handleLargeVideo Scripted.lib
                  (Scripted.os (split_script stat_but_second))
                  (ScriptedAPI.api ScriptedAPI.documents_only)
                  {| Service.Text := "https://youtu.be/a"; Service.Sender := Some ann |}
                  1 large_result Bot.initial ([], 2))))
       (Service.indexed 0
          [ PartInfo.mk "/tmp/sushe/1/v_part000.mp4" 1 1789569706;
            PartInfo.mk "/tmp/sushe/1/v_part002.mp4" 3 1789569706 ]).
Proof.
  split; [vm_compute; reflexivity | ].
  destruct (Service.handleLargeVideo Scripted.lib
              (Scripted.os (split_script stat_but_second))
              (ScriptedAPI.api ScriptedAPI.documents_only)
              {| Service.Text := "https://youtu.be/a"; Service.Sender := Some ann |}
              1 large_result Bot.initial ([], 2)) as [[out ws'] log] eqn:Hrun.
  assert (Hout : out = Service.Done).
  { vm_compute in Hrun. injection Hrun as <- _ _. reflexivity. }
  cbn [snd].
  refine (proj1 (handleLargeVideo_delivers Scripted.lib
                   (Scripted.os (split_script stat_but_second))
                   (ScriptedAPI.api ScriptedAPI.documents_only)
                   _ 1 large_result Bot.initial out ([], 2) ws' log
                   [ PartInfo.mk "/tmp/sushe/1/v_part000.mp4" 1 1789569706;
                     PartInfo.mk "/tmp/sushe/1/v_part002.mp4" 3 1789569706 ]
                   []
                   (snd (SplitVideo Scripted.lib
                           (Scripted.os (split_script stat_but_second))
                           "/tmp/sushe/1/v.mp4" true []))
                   Hrun _ _)).
  - vm_compute. reflexivity.
  - intros e He. rewrite Hout in He. discriminate He.
Defined.

(** ** The bot service: one URL *)

Section OneURL.

Import Service.

Context {W S : Type}.
Variable lib : GoLib.
Variable os : OS W.
Variable api : API S.
Variable downloader : Downloader.

(** X16. [uploadSingleVideo] tries the file as a video and, only when
    the video is refused, once more as a document: its sends are the video
    alone (accepted, or refused when the file cannot be opened again), the
    refused video followed by the document, or none when the file cannot
    be opened; none of them is a reply.  It fails with the error of the
    last step that failed, and the status message is deleted exactly when
    it does not fail. *)
Theorem uploadSingleVideo_fallback (c : Context) (statusMsg : Message)
    (res : DownloadResult.t) (out : Outcome) (ws ws' : W * S) (log : list Action) :
  uploadSingleVideo api c statusMsg res ws = (out, ws', log) ->
  let path := DownloadResult.FilePath res in
  let video := PVideo path (DownloadResult.FileName res) (DownloadResult.Title res)
                      (DownloadResult.Width res) (DownloadResult.Height res) in
  let doc := PDocument path (DownloadResult.FileName res) (DownloadResult.Title res) in
  ((exists e, sends log = [] /\ out = Failed e /\ deletes log = [])
   \/ (exists m,
         sends log = [(video, None, Ok m)] /\ out = ended c /\ deletes log = [statusMsg])
   \/ (exists e,
         sends log = [(video, None, Err e)] /\ out = Failed e /\ deletes log = [])
   \/ (exists e e2,
         sends log = [(video, None, Err e); (doc, None, Err e2)]
         /\ out = Failed e2 /\ deletes log = [])
   \/ (exists e m,
         sends log = [(video, None, Err e); (doc, None, Ok m)]
         /\ out = ended c /\ deletes log = [statusMsg])).
Proof.
  intros H. cbv zeta.
  apply uploadSingleVideo_skeleton in H. cbv zeta in H. destruct H as [_ H].
  rewrite <- (sends_skeleton log), <- (deletes_skeleton log).
  destruct H as [(e & -> & ->) | [(m & -> & ->) | [(e & e2 & -> & ->)
                  | [(e & e2 & -> & ->) | (e & m & -> & ->)]]]].
  - left. exists e. repeat split.
  - right. left. exists m. repeat split.
  - right. right. left. exists e. repeat split.
  - right. right. right. left. exists e, e2. repeat split.
  - right. right. right. right. exists e, m. repeat split.
Qed.

Lemma ended_not_Failed (c : Context) (e : string) : ended c <> Failed e.
Proof. unfold ended. destruct (Sender c); discriminate. Qed.

Lemma upload_inv (c : Context) (statusMsg : Message) (res : DownloadResult.t)
    (st : Bot.Limiter) (out : Outcome) (ws ws' : W * S) (log : list Action) :
  upload lib os api c statusMsg res st ws = (out, ws', log) ->
  deletes log = match out with Failed _ => [] | _ => [statusMsg] end
  /\ Forall (fun x => is_upload (fst (fst x)) = true) (sends log).
Proof.
  unfold upload. destruct (NeedsSplit (DownloadResult.FileSize res)); intros H.
  - pose proof (handleLargeVideo_sends lib os api c statusMsg res st out ws ws' log H)
      as [_ Hsends].
    split; [ | exact Hsends].
    apply handleLargeVideo_inv in H.
    destruct H as (r & w1 & slog & lsplit & lrest & _ & -> & Hsplit & _ & Hr).
    rewrite deletes_app, (deletes_reports lsplit Hsplit). cbn [app].
    destruct r as [parts | e].
    + destruct Hr as (failed & ws1 & ws2 & lup & lfin & Hup & -> & Hfin).
      apply upload_parts_inv in Hup. destruct Hup as (_ & Hdel & _).
      rewrite deletes_app, Hdel. cbn [app].
      destruct failed as [e | ]; destruct Hfin as [-> ->]; [reflexivity | ].
      unfold ended. destruct (Sender c); reflexivity.
    + destruct Hr as [-> Hrest]. apply deletes_reports. exact Hrest.
  - apply uploadSingleVideo_skeleton in H. cbv zeta in H. destruct H as [_ H].
    rewrite <- (sends_skeleton log), <- (deletes_skeleton log).
    assert (Hended : forall l : list Message,
               match ended c with Failed _ => [] | _ => l end = l)
      by (intros l; unfold ended; destruct (Sender c); reflexivity).
    destruct H as [(e & -> & ->) | [(m & -> & ->) | [(e & e2 & -> & ->)
                    | [(e & e2 & -> & ->) | (e & m & -> & ->)]]]];
      rewrite ?Hended; split; try reflexivity; repeat constructor.
Qed.

(** [processURL] is the status message, the download reported through
    [progressCb], the upload and the deferred [Cleanup]. *)
Lemma processURL_inv (c : Context) (url : string) (out : Outcome)
    (ws ws' : W * S) (log : list Action) :
  processURL lib os api downloader c url ws = (out, ws', log) ->
  exists (status : result Message) (s1 : S),
    api_Send api (PText starting_text) None (snd ws) = (status, s1)
    /\ match status with
       | Err e => out = Failed e /\ log = [ASend (PText starting_text) None (Err e)]
       | Ok statusMsg =>
           exists (r : result DownloadResult.t) (w1 : W) (dlog : list Effect)
                  (ldown lrest : list Action),
             DownloadWithProgress lib os downloader url true (fst ws) = (r, w1, dlog)
             /\ log = (ASend (PText starting_text) None (Ok statusMsg) :: ldown ++ lrest)%list
             /\ Forall (fun x => is_report x = true) ldown
             /\ pipeline ldown = dlog
             /\ match r with
                | Err e =>
                    exists ok : bool,
                      out = Failed e /\ lrest = [AEdit statusMsg (SDownloadFailed e) ok]
                      /\ fst ws' = w1
                | Ok res =>
                    exists (st : Bot.Limiter) (ws1 ws2 : W * S) (lup : list Action),
                      upload lib os api c statusMsg res st ws1 = (out, ws2, lup)
                      /\ fst ws1 = w1
                      /\ lrest
                         = (lup ++ List.map APipeline
                                     (snd (Cleanup lib os (Some res) (fst ws2))))%list
                      /\ fst ws' = snd (fst (Cleanup lib os (Some res) (fst ws2)))
                end
       end.
Proof.
  unfold processURL. intros H.
  apply bind_inv in H. destruct H as (status & ws1 & l1 & l2 & Hsend & H & ->).
  apply Send_inv in Hsend. destruct Hsend as (Hw1 & -> & Hanswer).
  exists status, (snd ws1). split; [exact Hanswer | ].
  destruct status as [statusMsg | e].
  2:{ apply ret_inv in H. destruct H as (-> & -> & ->). split; reflexivity. }
  apply bind_inv in H. destruct H as ([r st] & ws2 & l3 & l4 & Hdown & H & ->).
  apply with_progress_inv in Hdown. destruct Hdown as (dlog & Hrun & Hrep & Hpipe).
  rewrite Hw1 in Hrun. cbn [fst snd] in H.
  exists r, (fst ws2), dlog, l3, l4.
  split; [exact Hrun | ]. split; [reflexivity | ]. split; [exact Hrep | ].
  split; [exact Hpipe | ].
  destruct r as [res | e].
  - apply bind_inv in H. destruct H as (out1 & ws3 & l5 & l6 & Hup & H & ->).
    apply bind_inv in H. destruct H as (u & ws4 & l7 & l8 & Hclean & H & ->).
    apply lift_inv in Hclean. destruct Hclean as (clog & Hclean & _ & ->).
    apply ret_inv in H. destruct H as (-> & -> & ->).
    exists st, ws2, ws3, l5. split; [exact Hup | ]. split; [reflexivity | ].
    rewrite Hclean. cbn [fst snd]. rewrite app_nil_r. split; reflexivity.
  - apply bind_inv in H. destruct H as (ok & ws3 & l5 & l6 & Hedit & H & ->).
    apply Edit_inv in Hedit. destruct Hedit as [Hw3 ->].
    apply ret_inv in H. destruct H as (-> & -> & ->).
    exists ok. repeat split. exact Hw3.
Qed.

(** X19. Once the download has succeeded, [processURL] always ends with
    [Cleanup]: whatever the upload does (it succeeds, it fails, or the
    handler panics for want of a sender), the last action is
    [os.RemoveAll] of the directory of the downloaded file, and the world
    that is left is the one after that removal. *)
Theorem processURL_cleans_up (c : Context) (url : string) (out : Outcome)
    (w w1 : W) (s s1 : S) (ws' : W * S) (log : list Action)
    (statusMsg : Message) (res : DownloadResult.t) (dlog : list Effect) :
  api_Send api (PText starting_text) None s = (Ok statusMsg, s1) ->
  DownloadWithProgress lib os downloader url true w = (Ok res, w1, dlog) ->
  DownloadResult.FilePath res <> ""%string ->
  processURL lib os api downloader c url (w, s) = (out, ws', log) ->
  let dir := filepath_Dir lib (DownloadResult.FilePath res) in
  (exists pre : list Action, log = (pre ++ [APipeline (ERemoveAll dir)])%list)
  /\ exists w0 : W, fst ws' = os_RemoveAll os dir w0.
Proof.
  intros Hsend Hdown Hpath H. cbv zeta.
  apply processURL_inv in H. destruct H as (status & s1' & Hsend' & H).
  cbn [snd] in Hsend'. rewrite Hsend in Hsend'. injection Hsend' as <- <-.
  destruct H as (r & w1' & dlog' & ldown & lrest & Hdown' & -> & _ & _ & H).
  cbn [fst] in Hdown'. rewrite Hdown in Hdown'. injection Hdown' as <- <- <-.
  destruct H as (st & ws1 & ws2 & lup & _ & _ & -> & Hw).
  unfold Cleanup in *.
  replace (negb (DownloadResult.FilePath res =? ""))%string with true in *
    by (symmetry; apply negb_true_iff, String.eqb_neq; exact Hpath).
  unfold RemoveAll in *. cbn [fst snd List.map] in *.
  split.
  - exists (ASend (PText starting_text) None (Ok statusMsg) :: ldown ++ lup)%list.
    cbn [app]. rewrite <- app_assoc. reflexivity.
  - exists (fst ws2). exact Hw.
Qed.

(** X20. When the download fails, [processURL] uploads nothing: after
    the status message and the reporting of the download, whose effects
    are those of [DownloadWithProgress] and nothing more (no second
    cleanup), its last action is the edit of the status message to
    "Download failed"; the status message is not deleted and the error of
    the download is returned. *)
Theorem processURL_download_failed (c : Context) (url : string) (out : Outcome)
    (w w1 : W) (s s1 : S) (ws' : W * S) (log : list Action)
    (statusMsg : Message) (e : string) (dlog : list Effect) :
  api_Send api (PText starting_text) None s = (Ok statusMsg, s1) ->
  DownloadWithProgress lib os downloader url true w = (Err e, w1, dlog) ->
  processURL lib os api downloader c url (w, s) = (out, ws', log) ->
  out = Failed e
  /\ fst ws' = w1
  /\ pipeline log = dlog
  /\ sends log = [(PText starting_text, None, Ok statusMsg)]
  /\ deletes log = []
  /\ exists (pre : list Action) (ok : bool),
       log = (pre ++ [AEdit statusMsg (SDownloadFailed e) ok])%list.
Proof.
  intros Hsend Hdown H.
  apply processURL_inv in H. destruct H as (status & s1' & Hsend' & H).
  cbn [snd] in Hsend'. rewrite Hsend in Hsend'. injection Hsend' as <- <-.
  destruct H as (r & w1' & dlog' & ldown & lrest & Hdown' & -> & Hrep & Hpipe & H).
  cbn [fst] in Hdown'. rewrite Hdown in Hdown'. injection Hdown' as <- <- <-.
  destruct H as (ok & -> & -> & Hw).
  split; [reflexivity | ]. split; [exact Hw | ].
  split.
  { unfold pipeline in *. cbn [filter_map]. rewrite filter_map_app, Hpipe.
    cbn [filter_map]. apply app_nil_r. }
  split.
  { change (sends (ASend (PText starting_text) None (Ok statusMsg) :: ldown ++ [_]))
      with ((PText starting_text, None, Ok statusMsg)
              :: sends (ldown ++ [AEdit statusMsg (SDownloadFailed e) ok])).
    rewrite sends_app, (sends_reports ldown Hrep). reflexivity. }
  split.
  { change (deletes (ASend (PText starting_text) None (Ok statusMsg) :: ldown ++ [_]))
      with (deletes (ldown ++ [AEdit statusMsg (SDownloadFailed e) ok])).
    rewrite deletes_app, (deletes_reports ldown Hrep). reflexivity. }
  exists (ASend (PText starting_text) None (Ok statusMsg) :: ldown), ok. reflexivity.
Qed.

Lemma processURL_projections (c : Context) (url : string) (out : Outcome)
    (ws ws' : W * S) (log : list Action) :
  processURL lib os api downloader c url ws = (out, ws', log) ->
  texts log = [starting_text]
  /\ match out with
     | Failed _ => deletes log = []
     | _ =>
         exists statusMsg : Message,
           List.hd_error (sends log) = Some (PText starting_text, None, Ok statusMsg)
           /\ deletes log = [statusMsg]
     end.
Proof.
  intros H. apply processURL_inv in H. destruct H as (status & s1 & _ & H).
  destruct status as [statusMsg | e]; [ | destruct H as [-> ->]; split; reflexivity].
  destruct H as (r & w1 & dlog & ldown & lrest & _ & -> & Hrep & _ & H).
  assert (Htexts : forall l : list Action,
             Forall (fun x => is_upload (fst (fst x)) = true) (sends l) -> texts l = []).
  { induction l as [ | a rest IH]; [reflexivity | ].
    destruct a as [ | | what replyTo answer | | | | | ]; cbn [sends texts filter_map];
      try exact IH.
    intros Hall. inversion Hall as [ | ? ? Hup Hrest]; subst. cbn [fst] in Hup.
    destruct what; [discriminate Hup | | ]; apply IH; exact Hrest. }
  assert (Hfirst : List.hd_error
                     (sends (ASend (PText starting_text) None (Ok statusMsg)
                               :: ldown ++ lrest))
                   = Some (PText starting_text, None, Ok statusMsg)) by reflexivity.
  assert (Htx : texts (ASend (PText starting_text) None (Ok statusMsg) :: ldown ++ lrest)
                = starting_text :: texts lrest).
  { unfold texts. cbn [filter_map]. rewrite filter_map_app. fold (texts ldown).
    rewrite (Htexts ldown); [reflexivity | ].
    rewrite (sends_reports ldown Hrep). constructor. }
  assert (Hdl : deletes (ASend (PText starting_text) None (Ok statusMsg) :: ldown ++ lrest)
                = deletes lrest).
  { unfold deletes. cbn [filter_map]. rewrite filter_map_app. fold (deletes ldown).
    rewrite (deletes_reports ldown Hrep). reflexivity. }
  rewrite Htx, Hdl.
  assert (Hclean : forall l : list Effect,
             texts (List.map APipeline l) = [] /\ deletes (List.map APipeline l) = []).
  { induction l as [ | x rest [IH1 IH2]]; [split; reflexivity | ].
    split; [exact IH1 | exact IH2]. }
  destruct r as [res | e].
  - destruct H as (st & ws1 & ws2 & lup & Hup & _ & -> & _).
    apply upload_inv in Hup. destruct Hup as [Hdel Hsends].
    apply Htexts in Hsends.
    destruct (Hclean (snd (Cleanup lib os (Some res) (fst ws2)))) as [Hc1 Hc2].
    unfold texts, deletes in *. rewrite !filter_map_app.
    fold (texts lup) (deletes lup).
    unfold texts, deletes in *. rewrite Hsends, Hdel, Hc1, Hc2.
    split; [reflexivity | ].
    destruct out as [ | e | ]; rewrite ?app_nil_r;
      [ exists statusMsg; split; [exact Hfirst | reflexivity]
      | reflexivity
      | exists statusMsg; split; [exact Hfirst | reflexivity] ].
  - destruct H as (ok & -> & -> & _). split; reflexivity.
Qed.

(** X21. The status message of [processURL] is deleted exactly when the
    URL was processed without error: if [processURL] fails, nothing is
    deleted (the message stays, with the text of the failure); otherwise
    the message that the first send returned is deleted, once, and it is
    the only message that is deleted. *)
Theorem processURL_status_message (c : Context) (url : string) (ws : W * S) :
  match fst (fst (processURL lib os api downloader c url ws)) with
  | Failed _ => deletes (snd (processURL lib os api downloader c url ws)) = []
  | _ =>
      exists statusMsg : Message,
        List.hd_error (sends (snd (processURL lib os api downloader c url ws)))
        = Some (PText starting_text, None, Ok statusMsg)
        /\ deletes (snd (processURL lib os api downloader c url ws)) = [statusMsg]
  end.
Proof.
  destruct (processURL lib os api downloader c url ws) as [[out ws'] log] eqn:H.
  cbn [fst snd]. apply processURL_projections in H. exact (proj2 H).
Qed.

Lemma process_all_inv (c : Context) (urls : list string) :
  forall (out : Outcome) (ws ws' : W * S) (log : list Action),
    process_all lib os api downloader c urls ws = (out, ws', log) ->
    (forall e : string, out <> Failed e)
    /\ (out = Done -> texts log = List.repeat starting_text (List.length urls)).
Proof.
  induction urls as [ | url rest IH]; intros out ws ws' log H; simpl in H.
  - apply ret_inv in H. destruct H as (-> & -> & ->).
    split; [discriminate | reflexivity].
  - apply bind_inv in H. destruct H as (out1 & ws1 & l1 & l2 & Hone & H & ->).
    apply processURL_projections in Hone. destruct Hone as [Htexts _].
    assert (Hrest : process_all lib os api downloader c rest ws1 = (out, ws', l2)
                    \/ (out = Panicked /\ out1 = Panicked)).
    { destruct out1; [left; exact H | left; exact H | right].
      apply ret_inv in H. destruct H as (-> & _ & _). split; reflexivity. }
    destruct Hrest as [Hrest | [-> _]].
    + apply IH in Hrest. destruct Hrest as [Hnot Hdone].
      split; [exact Hnot | ]. intros Hout.
      unfold texts in *. rewrite filter_map_app, Htexts, (Hdone Hout). reflexivity.
    + split; discriminate.
Qed.

(** X22. [handleText]: a message without URL is answered with the hint
    "No video URL detected" unless it begins with "/", in which case
    nothing is done; a message with URLs never makes the handler return an
    error, and when the handler returns, a status message has been sent
    for every URL, so a URL whose processing failed does not keep the
    later ones from being processed. *)
Theorem handleText_processes_every_url (c : Context) (out : Outcome)
    (ws ws' : W * S) (log : list Action) :
  handleText lib os api downloader c ws = (out, ws', log) ->
  match ExtractURLs lib (Text c) with
  | [] =>
      if HasPrefix (Text c) "/" then log = [] /\ out = Done
      else
        exists answer : result Message,
          log = [ASend (PText no_url_text) None answer]
          /\ out = match answer with Ok _ => Done | Err e => Failed e end
  | urls =>
      (forall e : string, out <> Failed e)
      /\ (out = Done -> texts log = List.repeat starting_text (List.length urls))
  end.
Proof.
  unfold handleText. intros H.
  destruct (ExtractURLs lib (Text c)) as [ | url rest].
  - destruct (HasPrefix (Text c) "/"); cbn [negb] in H.
    + apply ret_inv in H. destruct H as (-> & _ & ->). split; reflexivity.
    + apply bind_inv in H. destruct H as (answer & ws1 & l1 & l2 & Hsend & H & ->).
      apply Send_inv in Hsend. destruct Hsend as (_ & -> & _).
      exists answer.
      destruct answer as [m | e]; apply ret_inv in H; destruct H as (-> & -> & ->);
        split; reflexivity.
  - apply process_all_inv in H. exact H.
Qed.

End OneURL.

(** ** The bot service on the concrete environment *)

Lemma triple_eta {A B C : Type} (x : A * B * C) : x = (fst (fst x), snd (fst x), snd x).
Proof. destruct x as [[a b] c]. reflexivity. Qed.

(** An API that refuses videos: the file goes as a document. *)
Lemma uploadSingleVideo_fallback_witness :
  exists (e : string) (m : Service.Message),
    Service.sends
      (snd (Service.uploadSingleVideo (W := Scripted.World)
              (ScriptedAPI.api ScriptedAPI.documents_only)
              (from_ann "https://youtu.be/a") 1 small_result ([], 2)))
    = [ (Service.PVideo "/tmp/sushe/1700000000000000000/clip.mp4" "clip.mp4" "clip"
           1280 720, None, Err e);
        (Service.PDocument "/tmp/sushe/1700000000000000000/clip.mp4" "clip.mp4" "clip",
         None, Ok m) ]
    /\ Service.deletes
         (snd (Service.uploadSingleVideo (W := Scripted.World)
                 (ScriptedAPI.api ScriptedAPI.documents_only)
                 (from_ann "https://youtu.be/a") 1 small_result ([], 2)))
       = [1].
Proof.
  pose proof (uploadSingleVideo_fallback (W := Scripted.World)
                (ScriptedAPI.api ScriptedAPI.documents_only)
                (from_ann "https://youtu.be/a") 1 small_result _ ([], 2) _ _
                (triple_eta _)) as H.
  cbv zeta in H.
  destruct H as [(e & Hs & _) | [(m & Hs & _) | [(e & Hs & _)
                  | [(e & e2 & Hs & _) | (e & m & Hs & _ & Hd)]]]];
    try (vm_compute in Hs; discriminate Hs).
  exists e, m. split; [exact Hs | exact Hd].
Defined.

(** A download that succeeds and is uploaded whole: the last action is
    the removal of the scratch directory. *)
Lemma processURL_cleans_up_witness :
  exists pre : list Service.Action,
    snd (Service.processURL Scripted.lib (Scripted.os download_script)
           (ScriptedAPI.api ScriptedAPI.friendly) sushe
           (from_ann "https://youtu.be/a") "https://youtu.be/a" ([], 1))
    = (pre ++ [Service.APipeline (ERemoveAll "/tmp/sushe/1700000000000000000")])%list.
Proof.
  destruct (DownloadWithProgress Scripted.lib (Scripted.os download_script) sushe
              "https://youtu.be/a" true []) as [[r w1] dlog] eqn:Hdown.
  assert (Hres : exists res : DownloadResult.t,
             r = Ok res
             /\ DownloadResult.FilePath res
                = "/tmp/sushe/1700000000000000000/clip.mp4"%string).
  { vm_compute in Hdown. injection Hdown as <- _ _. eexists. split; reflexivity. }
  destruct Hres as (res & -> & Hpath).
  destruct (processURL_cleans_up Scripted.lib (Scripted.os download_script)
              (ScriptedAPI.api ScriptedAPI.friendly) sushe
              (from_ann "https://youtu.be/a") "https://youtu.be/a" _
              [] w1 1 2 _ _ 1 res dlog eq_refl Hdown
              ltac:(rewrite Hpath; discriminate) (triple_eta _)) as [Hlast _].
  rewrite Hpath in Hlast. exact Hlast.
Defined.

(** yt-dlp fails: the status message is edited and nothing is uploaded. *)
Lemma processURL_download_failed_witness :
  fst (fst (Service.processURL Scripted.lib (Scripted.os failing_download_script)
              (ScriptedAPI.api ScriptedAPI.friendly) sushe
              (from_ann "https://youtu.be/x") "https://youtu.be/x" ([], 1)))
  = Service.Failed "download failed"
  /\ Service.sends
       (snd (Service.processURL Scripted.lib (Scripted.os failing_download_script)
               (ScriptedAPI.api ScriptedAPI.friendly) sushe
               (from_ann "https://youtu.be/x") "https://youtu.be/x" ([], 1)))
     = [(Service.PText Service.starting_text, None, Ok 1)].
Proof.
  destruct (DownloadWithProgress Scripted.lib (Scripted.os failing_download_script) sushe
              "https://youtu.be/x" true []) as [[r w1] dlog] eqn:Hdown.
  assert (Hr : r = Err "download failed").
  { vm_compute in Hdown. injection Hdown as <- _ _. reflexivity. }
  subst r.
  destruct (processURL_download_failed Scripted.lib
              (Scripted.os failing_download_script)
              (ScriptedAPI.api ScriptedAPI.friendly) sushe
              (from_ann "https://youtu.be/x") "https://youtu.be/x" _
              [] w1 1 2 _ _ 1 "download failed" dlog eq_refl Hdown (triple_eta _))
    as (Hout & _ & _ & Hsends & _).
  split; [exact Hout | exact Hsends].
Defined.

(** Two URLs whose downloads fail: both are processed, and the handler
    returns nil. *)
Lemma handleText_processes_every_url_witness :
  (forall e : string,
     fst (fst (Service.handleText Scripted.lib (Scripted.os failing_download_script)
                 (ScriptedAPI.api ScriptedAPI.friendly) sushe
                 (from_ann "see https://youtu.be/x and <https://youtu.be/y>") ([], 1)))
     <> Service.Failed e)
  /\ (fst (fst (Service.handleText Scripted.lib (Scripted.os failing_download_script)
                  (ScriptedAPI.api ScriptedAPI.friendly) sushe
                  (from_ann "see https://youtu.be/x and <https://youtu.be/y>") ([], 1)))
      = Service.Done ->
      Service.texts
        (snd (Service.handleText Scripted.lib (Scripted.os failing_download_script)
                (ScriptedAPI.api ScriptedAPI.friendly) sushe
                (from_ann "see https://youtu.be/x and <https://youtu.be/y>") ([], 1)))
      = [Service.starting_text; Service.starting_text]).
Proof.
  exact (handleText_processes_every_url Scripted.lib
           (Scripted.os failing_download_script)
           (ScriptedAPI.api ScriptedAPI.friendly) sushe
           (from_ann "see https://youtu.be/x and <https://youtu.be/y>") _ ([], 1) _ _
           (triple_eta _)).
Defined.

(** The runs of the examples: a download that is uploaded whole, a
    message without URL, and a command. *)
Example processURL_examples :
  Service.skeleton
    (snd (Service.processURL Scripted.lib (Scripted.os download_script)
            (ScriptedAPI.api ScriptedAPI.friendly) sushe
            (from_ann "https://youtu.be/a") "https://youtu.be/a" ([], 1)))
  = [ Service.ASend (Service.PText Service.starting_text) None (Ok 1);
      Service.AOpen "/tmp/sushe/1700000000000000000/clip.mp4" (Ok tt);
      Service.ASend
        (Service.PVideo "/tmp/sushe/1700000000000000000/clip.mp4" "clip.mp4" "clip"
           1280 720) None (Ok 2);
      Service.ADelete 1;
      Service.AClose "/tmp/sushe/1700000000000000000/clip.mp4" ]
  /\ fst (fst (Service.handleText Scripted.lib (Scripted.os download_script)
                 (ScriptedAPI.api ScriptedAPI.friendly) sushe
                 (from_ann "https://youtu.be/a") ([], 1)))
     = Service.Done
  /\ snd (Service.handleText Scripted.lib (Scripted.os download_script)
            (ScriptedAPI.api ScriptedAPI.friendly) sushe (from_ann "hello") ([], 1))
     = [Service.ASend (Service.PText Service.no_url_text) None (Ok 1)]
  /\ snd (Service.handleText Scripted.lib (Scripted.os download_script)
            (ScriptedAPI.api ScriptedAPI.friendly) sushe (from_ann "/settings") ([], 1))
     = []
  /\ fst (fst (Service.handleText Scripted.lib (Scripted.os download_script)
                 (ScriptedAPI.api ScriptedAPI.friendly) sushe
                 {| Service.Text := "https://youtu.be/a"; Service.Sender := None |}
                 ([], 1)))
     = Service.Panicked.
Proof. vm_compute. repeat split. Qed.

(** ** Further properties of the stages *)

(** X2. In the transcode and the partition stage, every progress event
    that comes from a time marker which is not negative carries a percent
    between 0 and 100 when the duration that ffprobe reported is a finite
    number above zero: the quotient is not negative, and the test
    [percent > 100] cuts it at 100. *)
Theorem progress_events_in_range (D segDur : float) (N hours mins : Z) (secs : float)
    (p : Progress.t) :
  Float64.finite D = true -> (0 <? D)%float = true ->
  (0 <=? currentTime hours mins secs)%float = true ->
  encoding_event D (TimeLine hours mins secs) = Some p
  \/ splitting_event D segDur N (TimeLine hours mins secs) = Some p ->
  in_percent_range (Progress.Percent p) = true.
Proof.
  intros Hfin Hpos Hcur [[= <-] | [= <-]]; cbn [Progress.Percent];
    apply progress_percent_in_range; assumption.
Qed.

Lemma progress_events_in_range_witness :
  in_percent_range
    (Progress.Percent
       (Progress.mk "splitting" (progress_percent (currentTime 0 1 5) 30)
          "" "" "" "" 3 3 ""))
  = true.
Proof.
  apply (progress_events_in_range 30 (segmentDuration 30 3) 3 0 1 5).
  - reflexivity.
  - reflexivity.
  - reflexivity.
  - right. vm_compute. reflexivity.
Defined.

(** When the scratch directory cannot be created, [DownloadWithProgress]
    returns the error at once: its only effects are the reading of the
    clock and the failed [os.MkdirAll]; yt-dlp is not started and nothing
    is removed. *)
Lemma DownloadWithProgress_mkdir_failed {W : Type} (lib : GoLib) (os : OS W)
    (d : Downloader) (url : string) (has_cb : bool) (w w1 w2 : W) (unixNano : Z) :
  os_Now os w = (unixNano, w1) ->
  os_MkdirAll os (workDir_of d unixNano) w1 = (false, w2) ->
  DownloadWithProgress lib os d url has_cb w
  = (Err "failed to create work directory", w2,
     [ENow unixNano; EMkdirAll (workDir_of d unixNano) false]).
Proof.
  intros Hnow Hmkdir. unfold DownloadWithProgress, bind, Now, MkdirAll.
  rewrite Hnow, Hmkdir. reflexivity.
Qed.

Example DownloadWithProgress_mkdir_failed_example :
  DownloadWithProgress Scripted.lib (read_only download_script) sushe
    "https://youtu.be/a" true []
  = (Err "failed to create work directory", [],
     [ENow 1700000000000000000;
      EMkdirAll (workDir_of sushe 1700000000000000000) false]).
Proof.
  apply (DownloadWithProgress_mkdir_failed Scripted.lib (read_only download_script)
           sushe "https://youtu.be/a" true [] [] [] 1700000000000000000);
    reflexivity.
Qed.
